(** * github-release-stats: the API client [GithubStats] (src/lib/ghstats.ts)

    A shallow embedding of the client class: the constructor that resolves
    the token, the private paginated [fetch], the three queries and the
    three download counters built on them.

    Conventions of the embedding.
    - What [response.json()] yields is an untyped JavaScript value
      ([value]); the TypeScript interfaces [GithubRelease] and
      [GithubAsset] are unchecked casts in the source and appear here as
      predicates on values ([is_release], [is_asset]).
    - Numbers are the doubles that hold an integer, the two infinities
      and NaN.  Addition rounds to the nearest double, ties to even, and
      overflows to an infinity, as IEEE 754 has it; up to 2^53 in
      magnitude it is the addition of integers.  The text of a number is
      the shortest decimal that reads back as the same double, in
      exponent form from 10^21 on.  Fractions are not represented: a
      download counter is a count.
    - Strings are byte strings ([String.string]).
    - An [async] method is a computation in the monad [M]: it threads the
      log of what the client does to the transport (calls, and readings
      of bodies) and ends in a [completion]: the promise resolves or
      rejects.  [await] is the bind of [M], so a call has settled before
      the code after it runs.  The recursion of [fetch], whose depth the
      source does not bound, carries fuel; when it runs out the promise
      is still pending and the log holds what was done so far. *)

From Stdlib Require Import ZArith List String Ascii Bool Arith Lia.
From Stdlib Require Import DecimalString.
Import ListNotations.

Local Open Scope string_scope.
Local Open Scope list_scope.

#[local] Set Warnings "-register-all".

(* ================================================================= *)
(** ** JavaScript values *)

Inductive number : Type :=
| NaN
| Int (z : Z)                    (* a double that holds the integer [z] *)
| Infinity (negative : bool).

Inductive value : Type :=
| VUndefined
| VNull
| VBool (b : bool)
| VNumber (n : number)
| VString (s : string)
| VArray (items : list value)
| VObject (props : list (string * value)).

(** The class [GithubError]: [super(message)] stores the message,
    the constructor then sets [name]. *)
Record GithubError : Type := mkGithubError {
  message : string;
  name : string
}.

(** What a promise can reject with. *)
Inductive exn : Type :=
| EGithub (e : GithubError)      (* thrown by [fetch] on a non-ok response *)
| TypeError                      (* raised by the runtime *)
| Fault (reason : string).       (* whatever the transport rejected with *)

Inductive completion (A : Type) : Type :=
| Return (a : A)
| Throw (e : exn).

Arguments Return {A} a.
Arguments Throw {A} e.

Definition cbind {A B : Type} (c : completion A) (k : A -> completion B)
  : completion B :=
  match c with
  | Return a => k a
  | Throw e => Throw e
  end.

Notation "x <~ c ;; k" := (cbind c (fun x => k))
  (at level 61, c at next level, right associativity).

(** Own property lookup of an object parsed from JSON. *)
Fixpoint own (key : string) (props : list (string * value)) : option value :=
  match props with
  | [] => None
  | (k, v) :: rest => if String.eqb k key then Some v else own key rest
  end.

(** [v.key] for the property names this program reads ([assets],
    [download_count], [message]): none of them is found on the prototype
    of an object, array, string, number or boolean. *)
Definition get (v : value) (key : string) : completion value :=
  match v with
  | VUndefined | VNull => Throw TypeError
  | VObject props =>
      Return (match own key props with Some x => x | None => VUndefined end)
  | _ => Return VUndefined
  end.

(** The decimal digits of an integer, all of them. *)
Definition decimal (z : Z) : string :=
  NilZero.string_of_int (Z.to_int z).

(** Up to this magnitude every integer is a double. *)
Definition exact_bound : Z := 2 ^ 53.

(** The double nearest to the integer [x]: beyond [exact_bound] the 53
    leading bits are kept and the rest is rounded away, a tie going to
    the even neighbour; what rounds to 2^1024 or more is an infinity. *)
Definition double_of_Z (x : Z) : number :=
  let a := Z.abs x in
  if (a <=? exact_bound)%Z then Int x
  else
    let e := (Z.log2 a - 52)%Z in
    let q := Z.shiftr a e in
    let r := (a - Z.shiftl q e)%Z in
    let half := Z.shiftl 1 (e - 1) in
    let up := (half <? r)%Z || ((r =? half)%Z && Z.odd q) in
    let m := Z.shiftl (if up then q + 1 else q)%Z e in
    if (2 ^ 1024 <=? m)%Z then Infinity (x <? 0)%Z
    else Int (Z.sgn x * m).

(** The double nearest to [v] is [a]. *)
Definition rounds_to (a v : Z) : bool :=
  match double_of_Z v with
  | Int m => (m =? a)%Z
  | _ => false
  end.

(** The significand of [k] digits, if there is one, that followed by
    [d - k] zeros reads back as the double [a] of [d] digits: of the two
    neighbours of [a] the one that reads back, the closer one if both
    do, the even one if they are as close. *)
Definition shortest_at (a d k : Z) : option Z :=
  let scale := (10 ^ (d - k))%Z in
  let lo := (a / scale)%Z in
  let hi := (lo + 1)%Z in
  let below := (a - lo * scale)%Z in
  let above := (hi * scale - a)%Z in
  match rounds_to a (lo * scale),
        (hi <? 10 ^ k)%Z && rounds_to a (hi * scale) with
  | true, true =>
      Some (if (below <? above)%Z then lo
            else if (above <? below)%Z then hi
            else if Z.even lo then lo else hi)
  | true, false => Some lo
  | false, true => Some hi
  | false, false => None
  end.

(** The shortest significand, and its number of digits, from [k] digits
    on; all the digits of [a] read back as [a]. *)
Fixpoint shortest (fuel : nat) (a d k : Z) : Z * Z :=
  match fuel with
  | O => (a, d)
  | S fuel' =>
      if (d <=? k)%Z then (a, d)
      else match shortest_at a d k with
           | Some s => (s, k)
           | None => shortest fuel' a d (k + 1)%Z
           end
  end.

Fixpoint zeros (n : nat) : string :=
  match n with
  | O => EmptyString
  | S n' => String "0" (zeros n')
  end.

(** The text of a double [a] above [exact_bound]: the significand [s]
    of [k] digits and the exponent [n] with [s * 10^(n - k)] reading
    back as [a] and [k] as small as possible (17 digits tell any two
    doubles apart); the digits and [n - k] zeros up to 21 digits, the
    exponent form beyond.  A power of ten that rounds down to [a] is
    the one case where [n] is not the number of digits of [a]. *)
Definition large (a : Z) : string :=
  let d := Z.of_nat (String.length (decimal a)) in
  let '(s, k, n) :=
    if rounds_to a (10 ^ d) then (1, 1, d + 1)%Z
    else let '(s, k) := shortest 17 a d 1 in (s, k, d) in
  if (n <=? 21)%Z then (decimal s ++ zeros (Z.to_nat (n - k)))%string
  else
    match decimal s with
    | String c EmptyString => String c ("e+" ++ decimal (n - 1))
    | String c more => String c ("." ++ more ++ "e+" ++ decimal (n - 1))
    | EmptyString => EmptyString
    end.

(** [Number.prototype.toString()], which is also ToString on a number. *)
Definition Number_toString (n : number) : string :=
  match n with
  | NaN => "NaN"
  | Infinity false => "Infinity"
  | Infinity true => "-Infinity"
  | Int z =>
      if (Z.abs z <=? exact_bound)%Z then decimal z
      else ((if (z <? 0)%Z then "-" else "") ++ large (Z.abs z))%string
  end.

(** The abstract operation ToString.  An array is joined with commas,
    [undefined] and [null] elements giving the empty string; an object
    is converted by [Object.prototype.toString] unless an own property
    [toString] (never callable in parsed JSON) hides it. *)
Fixpoint ToString (v : value) : completion string :=
  match v with
  | VUndefined => Return "undefined"
  | VNull => Return "null"
  | VBool true => Return "true"
  | VBool false => Return "false"
  | VNumber n => Return (Number_toString n)
  | VString s => Return s
  | VArray items =>
      (fix join (l : list value) : completion string :=
         match l with
         | [] => Return ""
         | x :: rest =>
             s <~ match x with
                  | VUndefined | VNull => Return ""
                  | _ => ToString x
                  end ;;
             match rest with
             | [] => Return s
             | _ :: _ => r <~ join rest ;; Return (s ++ "," ++ r)%string
             end
         end) items
  | VObject props =>
      match own "toString" props with
      | Some _ => Throw TypeError
      | None => Return "[object Object]"
      end
  end.

(** ToPrimitive, for the values above. *)
Definition ToPrimitive (v : value) : completion value :=
  match v with
  | VArray _ | VObject _ => s <~ ToString v ;; Return (VString s)
  | _ => Return v
  end.

(** ToNumber on a primitive that is not a string. *)
Definition ToNumber (p : value) : number :=
  match p with
  | VNull => Int 0
  | VBool b => Int (if b then 1 else 0)
  | VNumber n => n
  | _ => NaN
  end.

(** The addition of doubles. *)
Definition number_add (a b : number) : number :=
  match a, b with
  | NaN, _ | _, NaN => NaN
  | Int x, Int y => double_of_Z (x + y)
  | Infinity s, Int _ | Int _, Infinity s => Infinity s
  | Infinity s, Infinity t => if Bool.eqb s t then Infinity s else NaN
  end.

Definition is_string (v : value) : bool :=
  match v with VString _ => true | _ => false end.

(** The operator [+]. *)
Definition js_add (a b : value) : completion value :=
  pa <~ ToPrimitive a ;;
  pb <~ ToPrimitive b ;;
  if is_string pa || is_string pb then
    sa <~ ToString pa ;;
    sb <~ ToString pb ;;
    Return (VString (sa ++ sb)%string)
  else
    Return (VNumber (number_add (ToNumber pa) (ToNumber pb))).

(** [Array.prototype.reduce] with an initial value, over the items. *)
Fixpoint reduce_items (f : value -> value -> completion value)
    (items : list value) (acc : value) : completion value :=
  match items with
  | [] => Return acc
  | x :: rest => a <~ f acc x ;; reduce_items f rest a
  end.

(** [arr.reduce(f, init)]: only an array has the method. *)
Definition reduce (f : value -> value -> completion value)
    (arr : value) (init : value) : completion value :=
  match arr with
  | VArray items => reduce_items f items init
  | _ => Throw TypeError
  end.

(** [Array.prototype.flat()] (depth 1). *)
Definition flat (items : list value) : list value :=
  flat_map (fun x => match x with VArray l => l | _ => [x] end) items.

(** [result.push(...xs)] and [result.unshift(...xs)]. *)
Definition push (result xs : list value) : list value := result ++ xs.
Definition unshift (result xs : list value) : list value := xs ++ result.

(** [response[0]]. *)
Definition first (response : list value) : value :=
  match response with
  | x :: _ => x
  | [] => VUndefined
  end.

(** [new GithubError(message)]: [Error] stores ToString(message), or
    leaves the inherited empty message when it is [undefined]. *)
Definition new_GithubError (msg : value) : completion GithubError :=
  m <~ match msg with
       | VUndefined => Return ""
       | _ => ToString msg
       end ;;
  Return {| message := m; name := "GithubError" |}.

(* ================================================================= *)
(** ** The class [Headers] *)

Definition Headers : Type := list (string * string).

Definition lower_ascii (c : ascii) : ascii :=
  let n := nat_of_ascii c in
  if (65 <=? n)%nat && (n <=? 90)%nat then ascii_of_nat (n + 32) else c.

Fixpoint lower (s : string) : string :=
  match s with
  | EmptyString => EmptyString
  | String c rest => String (lower_ascii c) (lower rest)
  end.

(** [headers.append(name, value)]. *)
Definition append (h : Headers) (name value : string) : Headers :=
  h ++ [(name, value)].

(** The values stored under a name; names compare without case. *)
Definition values_of (h : Headers) (name : string) : list string :=
  map snd (filter (fun kv => String.eqb (lower (fst kv)) (lower name)) h).

(** [headers.has(name)]. *)
Definition has (h : Headers) (name : string) : bool :=
  match values_of h name with
  | [] => false
  | _ :: _ => true
  end.

(** [headers.get(name)]: the values joined with a comma and a space,
    [None] for [null]. *)
Definition get_header (h : Headers) (name : string) : option string :=
  match values_of h name with
  | [] => None
  | v :: vs => Some (String.concat ", " (v :: vs))
  end.

(* ================================================================= *)
(** ** Regular expressions

    A backtracking matcher for the fragment the source uses, with the
    semantics of ECMAScript: alternatives are tried in priority order,
    [*] is greedy and refuses an iteration that consumes nothing, [.]
    matches any character but a line terminator, and a match is looked
    for at each start index in turn. *)

Inductive regex : Type :=
| Eps
| Bol                            (* ^ *)
| Chr (c : ascii)
| Dot                            (* . : no line feed, no carriage return *)
| Star (r : regex)               (* r* *)
| Cat (r1 r2 : regex)
| Group (i : nat) (r : regex).   (* ( r ), the i-th capturing group *)

Record mstate : Type := mkMstate {
  pos : nat;                            (* index in the input *)
  rest : list ascii;                    (* the input from [pos] on *)
  caps : list (nat * list ascii)        (* captures, most recent first *)
}.

Definition line_terminator (c : ascii) : bool :=
  let n := nat_of_ascii c in (n =? 10)%nat || (n =? 13)%nat.

Definition advance (st : mstate) (xs : list ascii) : mstate :=
  {| pos := S (pos st); rest := xs; caps := caps st |}.

(** The iterations of [r*], at most [n] of them: one more iteration is
    preferred to going on with [k], and must consume something. *)
Fixpoint iterate (step : mstate -> (mstate -> option mstate) -> option mstate)
    (k : mstate -> option mstate) (n : nat) (st : mstate) : option mstate :=
  match n with
  | O => k st
  | S n' =>
      match step st (fun st1 =>
              if (pos st <? pos st1)%nat then iterate step k n' st1
              else None) with
      | Some m => Some m
      | None => k st
      end
  end.

Fixpoint run (r : regex) (st : mstate) (k : mstate -> option mstate)
  : option mstate :=
  match r with
  | Eps => k st
  | Bol => if (pos st =? 0)%nat then k st else None
  | Chr c =>
      match rest st with
      | x :: xs => if Ascii.eqb x c then k (advance st xs) else None
      | [] => None
      end
  | Dot =>
      match rest st with
      | x :: xs => if line_terminator x then None else k (advance st xs)
      | [] => None
      end
  | Cat r1 r2 => run r1 st (fun st1 => run r2 st1 k)
  | Group i r =>
      run r st (fun st1 =>
        k {| pos := pos st1; rest := rest st1;
             caps := (i, firstn (pos st1 - pos st) (rest st)) :: caps st1 |})
  | Star r => iterate (run r) k (S (List.length (rest st))) st
  end.

(** [RegExp.prototype.exec] without flags: the first start index at
    which the pattern matches. *)
Fixpoint exec_from (r : regex) (i : nat) (s : list ascii) : option mstate :=
  match run r {| pos := i; rest := s; caps := [] |} Some with
  | Some m => Some m
  | None =>
      match s with
      | [] => None
      | _ :: s' => exec_from r (S i) s'
      end
  end.

(** [str.match(r)]: the captures of the match, [None] for [null]. *)
Definition regex_match (s : string) (r : regex) : option mstate :=
  exec_from r 0 (list_ascii_of_string s).

(** [match[i]] for a group [i >= 1]; a group that took no part gives
    [undefined]. *)
Fixpoint group (i : nat) (cs : list (nat * list ascii)) : option string :=
  match cs with
  | [] => None
  | (j, c) :: more =>
      if (i =? j)%nat then Some (string_of_list_ascii c) else group i more
  end.

Fixpoint Lit (s : string) : regex :=
  match s with
  | EmptyString => Eps
  | String c rest => Cat (Chr c) (Lit rest)
  end.

Definition dquote : string := String (ascii_of_nat 34) EmptyString.

(** The pattern that [fetch] applies to the link header: the start of
    the input, a greedy run of any characters, the character [<], group 1
    (a greedy run of any characters), then the characters [>; rel=],
    a double quote, [next] and a double quote. *)
Definition next_link : regex :=
  Cat Bol
   (Cat (Star Dot)
    (Cat (Chr "<")
     (Cat (Group 1 (Star Dot))
          (Lit (">; rel=" ++ dquote ++ "next" ++ dquote)%string)))).

(* ================================================================= *)
(** ** The transport: [fetch] of node-fetch, or of the browser *)

(** The second argument of [fetch(url, init)]. *)
Record RequestInit : Type := mkInit {
  method : string;
  headers : Headers;
  body : option string             (* [None]: no body is given *)
}.

Module Response.
Record t : Type := mk {
  ok : bool;                     (* the status is in the range 200-299 *)
  headers : Headers;
  json : completion value        (* what [response.json()] settles to *)
}.
End Response.

(** The calls made so far, oldest first, and the call to answer. *)
Definition Transport : Type :=
  list (string * RequestInit) -> string -> RequestInit ->
  completion Response.t.

(** What the client does to the outside, in the order it does it. *)
Inductive event : Type :=
| Fetch (url : string) (init : RequestInit) (res : completion Response.t)
| Json (url : string) (res : completion value).

Definition calls (log : list event) : list (string * RequestInit) :=
  flat_map (fun ev => match ev with
                      | Fetch u i _ => [(u, i)]
                      | Json _ _ => []
                      end) log.

(** An [async] computation: how the promise settles, [None] if it is
    still pending when the fuel runs out, and the log as it then is. *)
Definition M (A : Type) : Type :=
  list event -> option (completion A) * list event.

Definition ret {A : Type} (a : A) : M A :=
  fun log => (Some (Return a), log).

Definition throw {A : Type} (e : exn) : M A :=
  fun log => (Some (Throw e), log).

Definition lift {A : Type} (c : completion A) : M A :=
  fun log => (Some c, log).

Definition bind {A B : Type} (m : M A) (k : A -> M B) : M B :=
  fun log =>
    match m log with
    | (Some (Return a), log') => k a log'
    | (Some (Throw e), log') => (Some (Throw e), log')
    | (None, log') => (None, log')
    end.

Notation "x <- m ;; k" := (bind m (fun x => k))
  (at level 61, m at next level, right associativity).

(** The environment the module runs in. *)
Record Env : Type := mkEnv {
  self_defined : bool;             (* [typeof self !== 'undefined'] *)
  GITHUB_TOKEN : option string     (* [process.env.GITHUB_TOKEN] *)
}.

(** A string is falsy exactly when it is empty. *)
Definition truthy (s : string) : bool := negb (String.eqb s "").

(** [a || b] for a string [a] and a [b] that may be [undefined]. *)
Definition or_env (a : string) (b : option string) : option string :=
  if truthy a then Some a else b.

(** [a || b] for an [a] that may be [undefined] and a string [b]. *)
Definition or_string (a : option string) (b : string) : string :=
  match a with
  | Some s => if truthy s then s else b
  | None => b
  end.

(* ================================================================= *)
(** ** The class [GithubStats] *)

Record GithubStats : Type := mkGithubStats {
  repoOwner : string;
  repoName : string;
  token : string
}.

Section Client.

Variable env : Env.
Variable net : Transport.

(** [new GithubStats(repoOwner, repoName, token)]; the third argument
    is [None] when it is left out, and then defaults to the empty
    string. *)
Definition new_GithubStats (repoOwner repoName : string)
    (token : option string) : GithubStats :=
  let token := match token with Some t => t | None => "" end in
  {| repoOwner := repoOwner;
     repoName := repoName;
     token := if negb (self_defined env)
              then or_string (or_env token (GITHUB_TOKEN env)) ""
              else token |}.

(** [await fetch(url, init)]. *)
Definition node_fetch (url : string) (init : RequestInit) : M Response.t :=
  fun log =>
    let res := net (calls log) url init in
    (Some res, log ++ [Fetch url init res]).

(** [await response.json()], for the response to [url]. *)
Definition response_json (url : string) (response : Response.t) : M value :=
  fun log =>
    (Some (Response.json response), log ++ [Json url (Response.json response)]).

(** The headers [fetch] builds. *)
Definition request_headers (this : GithubStats) : Headers :=
  let headers : Headers := [] in
  let headers :=
    if negb (self_defined env)
    then append headers "User-Agent" "github-release-stats"
    else headers in
  let headers :=
    if truthy (token this)
    then append headers "Authorization" ("token " ++ token this)%string
    else headers in
  headers.

(** The private method [fetch].  A group of the match that took no part
    would reach the recursive call as [undefined] and be made a string
    by the transport; [next_link_group] below shows that a match of
    [next_link] always has its group 1. *)
Fixpoint fetch (fuel : nat) (this : GithubStats) (url : string)
  : M (list value) :=
  match fuel with
  | O => fun log => (None, log)
  | S fuel' =>
      let result : list value := [] in
      let headers := request_headers this in
      response <- node_fetch url
                    {| method := "GET"; headers := headers; body := None |} ;;
      if negb (Response.ok response) then
        parsed <- response_json url response ;;
        msg <- lift (get parsed "message") ;;
        e <- lift (new_GithubError msg) ;;
        throw (EGithub e)
      else
        result <-
          (if has (Response.headers response) "link" then
             match get_header (Response.headers response) "link" with
             | Some link =>
                 match regex_match link next_link with
                 | Some m =>
                     (* Fetch next page *)
                     next <- fetch fuel' this
                               (match group 1 (caps m) with
                                | Some u => u
                                | None => "undefined"
                                end) ;;
                     ret (push result next)
                 | None => ret result
                 end
             | None => ret result
             end
           else ret result) ;;
        parsed <- response_json url response ;;
        ret (unshift result (flat [parsed]))
  end.

Definition api (this : GithubStats) (path : string) : string :=
  ("https://api.github.com/repos/" ++ repoOwner this ++ "/"
     ++ repoName this ++ path)%string.

Definition getAllReleases (fuel : nat) (this : GithubStats)
  : M (list value) :=
  let url := api this "/releases?per_page=100" in
  response <- fetch fuel this url ;;
  ret response.

Definition getRelease (fuel : nat) (this : GithubStats) (tag : string)
  : M value :=
  let url := api this ("/releases/tags/" ++ tag)%string in
  response <- fetch fuel this url ;;
  ret (first response).

Definition getLatestRelease (fuel : nat) (this : GithubStats) : M value :=
  let url := api this "/releases/latest" in
  response <- fetch fuel this url ;;
  ret (first response).

(** The callback [(acc, asset) => acc + asset.download_count]. *)
Definition add_asset (acc asset : value) : completion value :=
  count <~ get asset "download_count" ;;
  js_add acc count.

(** [release.assets.reduce((acc, asset) => ..., 0)]. *)
Definition release_downloads (release : value) : completion value :=
  assets <~ get release "assets" ;;
  reduce add_asset assets (VNumber (Int 0)).

(** The outer callback of [getTotalDownloads]. *)
Definition add_release (acc release : value) : completion value :=
  downloads <~ release_downloads release ;;
  js_add acc downloads.

Definition getTotalDownloads (fuel : nat) (this : GithubStats) : M value :=
  releases <- getAllReleases fuel this ;;
  lift (reduce_items add_release releases (VNumber (Int 0))).

Definition getReleaseDownloads (fuel : nat) (this : GithubStats)
    (tag : string) : M value :=
  release <- getRelease fuel this tag ;;
  lift (release_downloads release).

Definition getLatestReleaseDownloads (fuel : nat) (this : GithubStats)
  : M value :=
  release <- getLatestRelease fuel this ;;
  lift (release_downloads release).

End Client.

(* ================================================================= *)
(** ** Vocabulary of the statements *)

(** The request [fetch] builds for every page. *)
Definition init_of (env : Env) (this : GithubStats) : RequestInit :=
  {| method := "GET"; headers := request_headers env this; body := None |}.

(** The URL of the next page as [fetch] reads it off a response. *)
Definition next_page (response : Response.t) : option string :=
  if has (Response.headers response) "link" then
    match get_header (Response.headers response) "link" with
    | Some link =>
        match regex_match link next_link with
        | Some m => Some (match group 1 (caps m) with
                          | Some u => u
                          | None => "undefined"
                          end)
        | None => None
        end
    | None => None
    end
  else None.

(** What [fetch] does once the transport has answered. *)
Definition after_response (env : Env) (net : Transport) (fuel : nat)
    (this : GithubStats) (url : string)
    (response : Response.t) (log1 : list event)
  : option (completion (list value)) * list event :=
  let read := Json url (Response.json response) in
  if Response.ok response then
    match next_page response with
    | Some u =>
        match fetch env net fuel this u log1 with
        | (None, log2) => (None, log2)
        | (Some (Throw e), log2) => (Some (Throw e), log2)
        | (Some (Return next), log2) =>
            match Response.json response with
            | Return parsed =>
                (Some (Return (flat [parsed] ++ next)), log2 ++ [read])
            | Throw e => (Some (Throw e), log2 ++ [read])
            end
        end
    | None =>
        match Response.json response with
        | Return parsed => (Some (Return (flat [parsed] ++ [])), log1 ++ [read])
        | Throw e => (Some (Throw e), log1 ++ [read])
        end
    end
  else
    match Response.json response with
    | Return parsed =>
        match msg <~ get parsed "message" ;; new_GithubError msg with
        | Return e => (Some (Throw (EGithub e)), log1 ++ [read])
        | Throw e => (Some (Throw e), log1 ++ [read])
        end
    | Throw e => (Some (Throw e), log1 ++ [read])
    end.

(** The records of a page: its parsed body, normalised. *)
Definition page_records (response : Response.t) : list value :=
  match Response.json response with
  | Return parsed => flat [parsed]
  | Throw _ => []
  end.

Definition resolves {A : Type} (c : completion A) : bool :=
  match c with Return _ => true | Throw _ => false end.

(** A pagination chain as the transport serves it: after the calls
    [history], a request for [url] is answered by the first page, whose
    link header names the URL of the second, and so on; the last page
    names no next page.  Every page is a success with a body that
    parses. *)
Fixpoint chain (env : Env) (net : Transport) (this : GithubStats)
    (history : list (string * RequestInit)) (url : string)
    (pages : list (string * Response.t)) : Prop :=
  match pages with
  | [] => False
  | (u, response) :: more =>
      u = url /\
      net history url (init_of env this) = Return response /\
      Response.ok response = true /\
      resolves (Response.json response) = true /\
      match more with
      | [] => next_page response = None
      | (u', _) :: _ =>
          next_page response = Some u' /\
          chain env net this (history ++ [(url, init_of env this)]) u' more
      end
  end.

(** The events of a chain: one call per page, and one body read. *)
Definition fetch_event (env : Env) (this : GithubStats)
    (p : string * Response.t) : event :=
  Fetch (fst p) (init_of env this) (Return (snd p)).

Definition json_event (p : string * Response.t) : event :=
  Json (fst p) (Response.json (snd p)).

(** The requests of a trace, in order. *)
Definition requested (trace : list event) : list string :=
  map fst (calls trace).

(** No request is issued while the body of an earlier response is still
    unread: [unread] is the URL of the response received last, as long
    as [response.json()] has not been called on it. *)
Fixpoint bodies_read_first (unread : option string) (trace : list event)
  : bool :=
  match trace with
  | [] => true
  | Fetch u _ res :: rest =>
      match unread with
      | Some _ => false
      | None =>
          bodies_read_first (if resolves res then Some u else None) rest
      end
  | Json u _ :: rest =>
      match unread with
      | Some v =>
          bodies_read_first (if String.eqb u v then None else unread) rest
      | None => bodies_read_first None rest
      end
  end.

(** The error an event ended in, if it did. *)
Definition rejected (ev : event) : option exn :=
  match ev with
  | Fetch _ _ (Throw e) => Some e
  | Json _ (Throw e) => Some e
  | _ => None
  end.

Definition thrown {A : Type} (res : option (completion A)) : option exn :=
  match res with
  | Some (Throw e) => Some e
  | _ => None
  end.

Definition faultless (trace : list event) : Prop :=
  Forall (fun ev => rejected ev = None) trace.

(** A trace and the error it ended with fit together: either nothing
    failed on the wire, or the one failure is the last event and its
    error is the error of the whole computation. *)
Definition settled (err : option exn) (trace : list event) : Prop :=
  faultless trace \/
  exists before ev e,
    trace = before ++ [ev] /\ faultless before /\
    rejected ev = Some e /\ err = Some e.

(** Every call in the trace carries the request [fetch] builds. *)
Definition uniform (env : Env) (this : GithubStats) (trace : list event)
  : Prop :=
  Forall (fun ev => match ev with
                    | Fetch _ init _ => init = init_of env this
                    | Json _ _ => True
                    end) trace.

(** The discipline every method of the client keeps: it only appends to
    the log, and what it appends is uniform and settled. *)
Definition disciplined {A : Type} (env : Env) (this : GithubStats) (m : M A)
  : Prop :=
  forall log res log',
    m log = (res, log') ->
    exists trace,
      log' = log ++ trace /\ uniform env this trace /\
      settled (thrown res) trace.

(** A failure on the wire surfaces: the computation ends with the error
    of the failing event, nothing is attempted after it, and a result
    is returned only if nothing failed. *)
Definition faults_surface {A : Type} (log : list event)
    (res : option (completion A)) (log' : list event) : Prop :=
  exists trace,
    log' = log ++ trace /\
    (forall before ev after e,
        trace = before ++ ev :: after ->
        rejected ev = Some e ->
        res = Some (Throw e) /\ after = []) /\
    (forall a, res = Some (Return a) -> faultless trace).

(** The interfaces [GithubAsset] and [GithubRelease], as far as the
    source declares them. *)
Definition is_asset (v : value) (count : Z) : Prop :=
  exists props,
    v = VObject props /\
    own "download_count" props = Some (VNumber (Int count)).

Definition is_release (v : value) (counts : list Z) : Prop :=
  exists props assets,
    v = VObject props /\
    own "assets" props = Some (VArray assets) /\
    Forall2 is_asset assets counts.

Definition sum (counts : list Z) : Z := fold_right Z.add 0%Z counts.

(** The counts add up without rounding: the sum of their magnitudes,
    which bounds every partial sum, is at most 2^53. *)
Definition magnitude (counts : list Z) : Z := sum (map Z.abs counts).

Definition exact (counts : list Z) : Prop :=
  (magnitude counts <= exact_bound)%Z.

(** The numbers that are doubles: the integers among them are those
    that rounding leaves as they are. *)
Definition is_double (n : number) : Prop :=
  match n with
  | Int z => double_of_Z z = Int z
  | _ => True
  end.

(** What the additions of doubles make of the counts, from [acc] on. *)
Definition add_all (acc : number) (counts : list Z) : number :=
  fold_left (fun a count => number_add a (Int count)) counts acc.

(* ================================================================= *)
(** ** The fixtures of the test suite (src/lib/ghstats.test.ts) *)

Module FakeApi.

Definition asset (count : Z) : value :=
  VObject [("download_count", VNumber (Int count))].

Definition release (tag : string) (counts : list Z) : value :=
  VObject [("tag_name", VString tag); ("assets", VArray (map asset counts))].

Definition releases : list value :=
  [ release "v1.2.0" [120; 220]%Z;
    release "v1.1.2" [112; 212]%Z;
    release "v1.1.1" [111; 211]%Z;
    release "v1.1.0" [110; 210]%Z;
    release "v1.0.2" [102; 202]%Z;
    release "v1.0.1" [101; 201]%Z;
    release "v1.0.0" [100; 200]%Z ].

Definition counts : list (list Z) :=
  [ [120; 220]; [112; 212]; [111; 211]; [110; 210];
    [102; 202]; [101; 201]; [100; 200] ]%Z.

Definition page_url (n : string) : string :=
  ("https://api.github.com/repositories/1/releases?page=" ++ n)%string.

Definition rel (n kind : string) : string :=
  ("<" ++ page_url n ++ ">; rel=" ++ dquote ++ kind ++ dquote)%string.

Definition respond (link : option string) (parsed : value) : Response.t :=
  {| Response.ok := true;
     Response.headers := match link with
                         | Some l => [("link", l)]
                         | None => []
                         end;
     Response.json := Return parsed |}.

(** [getPaginatedReleases()]: three pages of three, three and one. *)
Definition page1 : Response.t :=
  respond (Some (rel "2" "next" ++ ", " ++ rel "3" "last")%string)
          (VArray (firstn 3 releases)).
Definition page2 : Response.t :=
  respond (Some (rel "1" "prev" ++ ", " ++ rel "3" "next" ++ ", "
                   ++ rel "3" "last" ++ ", " ++ rel "1" "first")%string)
          (VArray (firstn 3 (skipn 3 releases))).
Definition page3 : Response.t :=
  respond (Some (rel "2" "prev" ++ ", " ++ rel "1" "first")%string)
          (VArray (skipn 6 releases)).

(** [fetchMock.mockResponses]: the n-th call gets the n-th answer. *)
Definition mockResponses (answers : list (completion Response.t))
  : Transport :=
  fun history _ _ =>
    nth (List.length history) answers (Throw (Fault "no answer mocked")).

Definition paginated : Transport :=
  mockResponses [Return page1; Return page2; Return page3].

Definition single (parsed : value) : Transport :=
  mockResponses [Return (respond None parsed)].

Definition not_found : Transport :=
  mockResponses
    [Return {| Response.ok := false;
               Response.headers := [];
               Response.json :=
                 Return (VObject [("message", VString "Not Found")]) |}].

(** The second page is never delivered. *)
Definition broken : Transport :=
  mockResponses [Return page1; Throw (Fault "Network error")].

Definition node : Env := {| self_defined := false; GITHUB_TOKEN := None |}.
Definition node_with_token : Env :=
  {| self_defined := false; GITHUB_TOKEN := Some "secret" |}.
Definition browser : Env :=
  {| self_defined := true; GITHUB_TOKEN := None |}.

Definition gh : GithubStats := new_GithubStats node "foo" "bar" None.

Definition all_url : string :=
  "https://api.github.com/repos/foo/bar/releases?per_page=100".

Definition pages : list (string * Response.t) :=
  [(all_url, page1); (page_url "2", page2); (page_url "3", page3)].

End FakeApi.

(* ================================================================= *)
(** ** Vocabulary of the further statements *)

(** The calls of a trace follow the links: each call goes to the URL
    [expected], which is the URL [fetch] was given for the first call
    and afterwards the next page that the answer before names, if that
    answer was a success. *)
Fixpoint follows (expected : option string) (trace : list event) : Prop :=
  match trace with
  | [] => True
  | Json _ _ :: rest => follows expected rest
  | Fetch u _ res :: rest =>
      expected = Some u /\
      follows (match res with
               | Return response =>
                   if Response.ok response then next_page response else None
               | Throw _ => None
               end) rest
  end.

(** An asset object without the property [download_count]. *)
Definition counterless (asset : value) : Prop :=
  exists props, asset = VObject props /\ own "download_count" props = None.

(** A page that names itself as the next page, served for ever. *)
Definition endless_page : Response.t :=
  FakeApi.respond
    (Some ("<" ++ FakeApi.all_url ++ ">; rel=" ++ dquote ++ "next" ++ dquote)%string)
    (VArray []).

Definition endless : Transport := fun _ _ _ => Return endless_page.

(** [l] is a prefix of [s]; [l] occurs in [s]. *)
Fixpoint prefixb (l s : list ascii) : bool :=
  match l, s with
  | [], _ => true
  | c :: l', x :: s' => Ascii.eqb x c && prefixb l' s'
  | _ :: _, [] => false
  end.

Fixpoint occurs (l s : list ascii) : bool :=
  prefixb l s ||
  match s with
  | [] => false
  | _ :: s' => occurs l s'
  end.

(** No line terminator in [s]; no [c] in [s]. *)
Definition plain (s : list ascii) : bool :=
  forallb (fun x => negb (line_terminator x)) s.

Definition lacks (c : ascii) (s : list ascii) : bool :=
  forallb (fun x => negb (Ascii.eqb x c)) s.

(** The characters that end the URL of the next page in a link header:
    [>; rel=], a double quote, [next], a double quote. *)
Definition next_mark : string :=
  (">; rel=" ++ dquote ++ "next" ++ dquote)%string.

(** What a greedy run of [.] does: the longest run of characters that
    are no line terminators is tried first, then the shorter ones. *)
Fixpoint greedy (k : mstate -> option mstate) (p : nat)
    (cs : list (nat * list ascii)) (s : list ascii) : option mstate :=
  match s with
  | [] => k {| pos := p; rest := []; caps := cs |}
  | x :: xs =>
      if line_terminator x then k {| pos := p; rest := s; caps := cs |}
      else match greedy k (S p) cs xs with
           | Some m => Some m
           | None => k {| pos := p; rest := s; caps := cs |}
           end
  end.

(* ================================================================= *)
(** ** The command line: the class [GithubStatsCli] (src/bin/ghstats-cli.ts)

    The console is a list of outputs in the order they are made.  The
    properties read here ([name], [tag_name], [url], [published_at],
    [assets], [download_count]) are, like those read by the client, on
    no prototype of a value parsed from JSON, so [get] reads them. *)

(** The abstract operation ToBoolean. *)
Definition ToBoolean (v : value) : bool :=
  match v with
  | VUndefined | VNull => false
  | VBool b => b
  | VNumber NaN => false
  | VNumber (Int z) => negb (z =? 0)%Z
  | VNumber (Infinity _) => true
  | VString s => truthy s
  | VArray _ | VObject _ => true
  end.

(** [s.split(sep)] for a separator of one character: the pieces between
    the separators, at least one. *)
Fixpoint split (sep : ascii) (s : string) : list string :=
  match s with
  | EmptyString => [EmptyString]
  | String c rest =>
      if Ascii.eqb c sep then EmptyString :: split sep rest
      else match split sep rest with
           | piece :: pieces => String c piece :: pieces
           | [] => [String c EmptyString]
           end
  end.

(** [xs.includes(x)] for strings. *)
Definition includes (xs : list string) (x : string) : bool :=
  existsb (String.eqb x) xs.

(** The text a template literal gives for a string that may be
    [undefined]. *)
Definition text_of (s : option string) : string :=
  match s with
  | Some t => t
  | None => "undefined"
  end.

Definition truthy_opt (s : option string) : bool :=
  match s with
  | Some t => truthy t
  | None => false
  end.

Definition newline : string := String (ascii_of_nat 10) EmptyString.

Module Cli.

Inductive output : Type :=
| Info (text : string)             (* [console.info], one line on stdout *)
| Error (text : string)            (* [console.error], one line on stderr *)
| Question (text : string).        (* the prompt of [rl.question] *)

Record t : Type := mk {
  repoOwner : string;
  repoName : option string;        (* [None]: [undefined], after a split *)
  releaseTag : string;
  detailed : bool;
  latest : bool;
  quiet : bool
}.

(** The field initialisers. *)
Definition initial : t :=
  {| repoOwner := ""; repoName := Some ""; releaseTag := "";
     detailed := false; latest := false; quiet := false |}.

Definition help : string :=
"GitHub Release Stats

Usage:
  ghstats [owner] [repo] [tag] [options]
  ghstats [owner/repo] [tag] [options]

Arguments:
  owner         Repository owner. If not present, you will be
                prompted for the input.
  repo          Repository name. If not present, you will be
                prompted for the input.
  tag           Release tag name. If not present, prints the
                total number of downloads.

Options:
  -d, --detail  Print detailed statistics for each release.
  -q, --quiet   Print only resulting numbers and errors (quiet mode).
  -l, --latest  Print statistics for the latest release
  -h, --help    Print help message.

Environment variables:
  GITHUB_TOKEN  GitHub personal access token to increase API limits.".

(** What the constructor ends in: the object, or the end of the process
    in [printHelp], with what it printed and the exit code. *)
Inductive constructed : Type :=
| Built (cli : t)
| Exit (code : Z) (console : list output).

(** The callback of [args.forEach]. *)
Definition step (cli : t) (arg : string) : constructed :=
  if includes ["-h"; "--help"; "-?"] arg then
    Exit 0 [Info help]
  else if includes ["-d"; "--detailed"] arg then
    Built {| repoOwner := repoOwner cli; repoName := repoName cli;
             releaseTag := releaseTag cli;
             detailed := true; latest := latest cli; quiet := quiet cli |}
  else if includes ["-l"; "--latest"] arg then
    Built {| repoOwner := repoOwner cli; repoName := repoName cli;
             releaseTag := releaseTag cli;
             detailed := detailed cli; latest := true; quiet := quiet cli |}
  else if includes ["-q"; "--quiet"] arg then
    Built {| repoOwner := repoOwner cli; repoName := repoName cli;
             releaseTag := releaseTag cli;
             detailed := detailed cli; latest := latest cli; quiet := true |}
  else if negb (truthy (repoOwner cli)) then
    let pieces := split "/" arg in
    Built {| repoOwner := nth 0 pieces ""; repoName := nth_error pieces 1;
             releaseTag := releaseTag cli;
             detailed := detailed cli; latest := latest cli;
             quiet := quiet cli |}
  else if negb (truthy_opt (repoName cli)) then
    Built {| repoOwner := repoOwner cli; repoName := Some arg;
             releaseTag := releaseTag cli;
             detailed := detailed cli; latest := latest cli;
             quiet := quiet cli |}
  else if negb (truthy (releaseTag cli)) then
    Built {| repoOwner := repoOwner cli; repoName := repoName cli;
             releaseTag := arg;
             detailed := detailed cli; latest := latest cli;
             quiet := quiet cli |}
  else Built cli.

Fixpoint forEach (cli : t) (args : list string) : constructed :=
  match args with
  | [] => Built cli
  | arg :: more =>
      match step cli arg with
      | Built cli' => forEach cli' more
      | Exit code console => Exit code console
      end
  end.

(** [new GithubStatsCli(args)]. *)
Definition new_GithubStatsCli (args : list string) : constructed :=
  forEach initial args.

(** A computation that prints and may throw. *)
Definition P (A : Type) : Type := list output -> completion A * list output.

Definition pret {A : Type} (a : A) : P A := fun console => (Return a, console).

Definition plift {A : Type} (c : completion A) : P A :=
  fun console => (c, console).

Definition pbind {A B : Type} (m : P A) (k : A -> P B) : P B :=
  fun console =>
    match m console with
    | (Return a, console') => k a console'
    | (Throw e, console') => (Throw e, console')
    end.

Notation "x <-- m ;; k" := (pbind m (fun x => k))
  (at level 61, m at next level, right associativity).

(** [console.info(text)]. *)
Definition info (text : string) : P unit :=
  fun console => (Return tt, console ++ [Info text]).

(** The template literal [prefix${v}suffix]. *)
Definition template (prefix : string) (v : value) (suffix : string)
  : completion string :=
  s <~ ToString v ;; Return (prefix ++ s ++ suffix)%string.

(** The callback of [release.assets.forEach] in [printRelease]. *)
Definition print_asset (total asset : value) : P value :=
  count <-- plift (get asset "download_count") ;;
  total <-- plift (js_add total count) ;;
  name <-- plift (get asset "name") ;;
  name <-- plift (ToString name) ;;
  count <-- plift (get asset "download_count") ;;
  line <-- plift (template ("  " ++ name ++ " - ") count " download(s)") ;;
  _ <-- info line ;;
  pret total.

Fixpoint print_assets (assets : list value) (total : value) : P value :=
  match assets with
  | [] => pret total
  | asset :: more =>
      total <-- print_asset total asset ;;
      print_assets more total
  end.

(** [GithubStatsCli.printRelease(release)]. *)
Definition printRelease (release : value) : P unit :=
  name <-- plift (get release "name") ;;
  _ <-- (if ToBoolean name then
           line <-- plift (template "Name: " name "") ;; info line
         else pret tt) ;;
  tag <-- plift (get release "tag_name") ;;
  line <-- plift (template "Tag: " tag "") ;;
  _ <-- info line ;;
  url <-- plift (get release "url") ;;
  line <-- plift (template "URL: " url "") ;;
  _ <-- info line ;;
  published <-- plift (get release "published_at") ;;
  line <-- plift (template "Published at: " published "") ;;
  _ <-- info line ;;
  _ <-- info "Assets:" ;;
  assets <-- plift (get release "assets") ;;
  total <-- match assets with
            | VArray items => print_assets items (VNumber (Int 0))
            | _ => plift (Throw TypeError)
            end ;;
  line <-- plift (template "    " total " total downloads") ;;
  info line.

(** The callback of [releases.forEach] in the detailed listing. *)
Definition print_listed (total release : value) : P value :=
  _ <-- printRelease release ;;
  _ <-- info "" ;;
  downloads <-- plift (release_downloads release) ;;
  plift (js_add total downloads).

Fixpoint print_all (releases : list value) (total : value) : P value :=
  match releases with
  | [] => pret total
  | release :: more =>
      total <-- print_listed total release ;;
      print_all more total
  end.

(** The callback given to [then] in the detailed listing. *)
Definition print_listing (releases : list value) : P unit :=
  total <-- print_all releases (VNumber (Int 0)) ;;
  line <-- plift (template "" total " total downloads") ;;
  info line.

(** What the process has done by the time it ends. *)
Record world : Type := mkWorld {
  console : list output;
  exitCode : option Z;             (* [process.exitCode] *)
  log : list event                 (* the calls to the transport *)
}.

Section Run.

Variable env : Env.
Variable net : Transport.
(** What the user answers to a question of [readline]. *)
Variable ask : string -> string.
(** The text of an error that the runtime or the transport made, name,
    colon, message. *)
Variable describe : exn -> string.
(** What [console.info] prints for an array or an object. *)
Variable inspect : value -> string.

(** [GithubStatsCli.printError(error)]. *)
Definition printError (error : exn) : P unit :=
  fun console =>
    (Return tt,
     console ++ [Error (match error with
                        | EGithub e => (name e ++ ": " ++ message e)%string
                        | _ => describe error
                        end)]).

(** [console.info(v)] with one argument. *)
Definition info_value (v : value) : P unit :=
  match v with
  | VUndefined => info "undefined"
  | VNull => info "null"
  | VBool true => info "true"
  | VBool false => info "false"
  | VNumber n => info (Number_toString n)
  | VString s => info s
  | VArray _ | VObject _ => info (inspect v)
  end.

(** [this.printMessage(message)]. *)
Definition printMessage (cli : t) (message : string) (w : world) : world :=
  if negb (quiet cli) then
    {| console := console w ++ [Info message];
       exitCode := exitCode w; log := log w |}
  else w.

Definition owner_question : string := "Enter the GitHub repository owner: ".
Definition name_question : string := "Enter the GitHub repository name: ".

(** [this.getUserInput()]: the object and the world afterwards. *)
Definition getUserInput (cli : t) (w : world) : t * world :=
  let '(owner, asked) :=
    if negb (truthy (repoOwner cli))
    then (ask owner_question, [Question owner_question])
    else (repoOwner cli, []) in
  let '(name, asked) :=
    if negb (truthy_opt (repoName cli))
    then (Some (ask name_question), asked ++ [Question name_question])
    else (repoName cli, asked) in
  ({| repoOwner := owner; repoName := name; releaseTag := releaseTag cli;
      detailed := detailed cli; latest := latest cli; quiet := quiet cli |},
   {| console := console w ++ asked;
      exitCode := exitCode w; log := log w |}).

(** [promise.then(onValue).catch(printError)]; a promise that is still
    pending calls neither. *)
Definition then_catch {A : Type} (promise : M A) (onValue : A -> P unit)
    (w : world) : world :=
  match promise (log w) with
  | (None, log') =>
      {| console := console w; exitCode := exitCode w; log := log' |}
  | (Some (Throw e), log') =>
      {| console := snd (printError e (console w));
         exitCode := exitCode w; log := log' |}
  | (Some (Return a), log') =>
      match onValue a (console w) with
      | (Return _, console') =>
          {| console := console'; exitCode := exitCode w; log := log' |}
      | (Throw e, console') =>
          {| console := snd (printError e console');
             exitCode := exitCode w; log := log' |}
      end
  end.

Definition tag_or_latest : string :=
  ("Error: You must specify either the " ++ dquote ++ "tag" ++ dquote
     ++ " or " ++ dquote ++ "latest" ++ dquote ++ " option, not both.")%string.

Definition detailed_or_quiet : string :=
  ("Error: You must specify either the " ++ dquote ++ "detailed" ++ dquote
     ++ " or " ++ dquote ++ "quiet" ++ dquote ++ " option, not both.")%string.

Definition fail (message : string) (w : world) : world :=
  {| console := console w ++ [Error message];
     exitCode := Some 1%Z; log := log w |}.

(** [this.run()]. *)
Definition run (fuel : nat) (cli : t) (w : world) : world :=
  let w := printMessage cli "GitHub Release Stats" w in
  let '(cli, w) :=
    if negb (truthy (repoOwner cli)) || negb (truthy_opt (repoName cli))
    then getUserInput cli w
    else (cli, w) in
  let repo := (repoOwner cli ++ "/" ++ text_of (repoName cli))%string in
  if truthy (releaseTag cli) && latest cli then
    fail tag_or_latest w
  else if detailed cli && quiet cli then
    fail detailed_or_quiet w
  else
    let gh := new_GithubStats env (repoOwner cli) (text_of (repoName cli)) None in
    if detailed cli then
      if latest cli then
        let w := printMessage cli
                   ("Fetching " ++ repo ++ " latest release stats..." ++ newline)%string w in
        then_catch (getLatestRelease env net fuel gh) printRelease w
      else if truthy (releaseTag cli) then
        let w := printMessage cli
                   ("Fetching " ++ repo ++ " " ++ releaseTag cli ++ " stats..." ++ newline)%string w in
        then_catch (getRelease env net fuel gh (releaseTag cli)) printRelease w
      else
        let w := printMessage cli
                   ("Fetching " ++ repo ++ " stats..." ++ newline)%string w in
        then_catch (getAllReleases env net fuel gh) print_listing w
    else if latest cli then
      let w := printMessage cli
                 ("Fetching " ++ repo ++ " latest release download count...")%string w in
      then_catch (getLatestReleaseDownloads env net fuel gh) info_value w
    else if truthy (releaseTag cli) then
      let w := printMessage cli
                 ("Fetching " ++ repo ++ " " ++ releaseTag cli
                    ++ " download count...")%string w in
      then_catch (getReleaseDownloads env net fuel gh (releaseTag cli))
                 info_value w
    else
      let w := printMessage cli
                 ("Fetching " ++ repo ++ " download count...")%string w in
      then_catch (getTotalDownloads env net fuel gh) info_value w.

(** The script: [new GithubStatsCli(process.argv.slice(2))], then
    [cli.run()]. *)
Definition main (fuel : nat) (args : list string) : world :=
  match new_GithubStatsCli args with
  | Exit code console =>
      {| console := console; exitCode := Some code; log := [] |}
  | Built cli => run fuel cli {| console := []; exitCode := None; log := [] |}
  end.

End Run.

End Cli.

(** The arguments the constructor knows, and the others. *)
Definition helps (arg : string) : bool := includes ["-h"; "--help"; "-?"] arg.
Definition sets_detailed (arg : string) : bool :=
  includes ["-d"; "--detailed"] arg.
Definition sets_latest (arg : string) : bool := includes ["-l"; "--latest"] arg.
Definition sets_quiet (arg : string) : bool := includes ["-q"; "--quiet"] arg.

Definition positional (arg : string) : bool :=
  negb (helps arg || sets_detailed arg || sets_latest arg || sets_quiet arg).

(** The options of a command line exclude each other. *)
Definition conflict (cli : Cli.t) : bool :=
  truthy (Cli.releaseTag cli) && Cli.latest cli
  || Cli.detailed cli && Cli.quiet cli.

(** The path of the first request, by the options. *)
Definition endpoint (cli : Cli.t) : string :=
  if Cli.latest cli then "/releases/latest"
  else if truthy (Cli.releaseTag cli)
       then ("/releases/tags/" ++ Cli.releaseTag cli)%string
       else "/releases?per_page=100".

Definition is_question (o : Cli.output) : bool :=
  match o with Cli.Question _ => true | _ => false end.

Definition is_info (o : Cli.output) : bool :=
  match o with Cli.Info _ => true | _ => false end.

(** A value that is no array and no object: its text never fails. *)
Definition scalar (v : value) : bool :=
  match v with VArray _ | VObject _ => false | _ => true end.

Definition field (props : list (string * value)) (key : string) : value :=
  match own key props with Some v => v | None => VUndefined end.

(** A release as [printRelease] expects it: assets with a count and a
    name that is a scalar (or missing), and scalars (or nothing) under
    the four properties it prints. *)
Definition printable_asset (asset : value) (count : Z) : Prop :=
  exists props,
    asset = VObject props /\
    own "download_count" props = Some (VNumber (Int count)) /\
    scalar (field props "name") = true.

Definition printable (release : value) (counts : list Z) : Prop :=
  exists props assets,
    release = VObject props /\
    own "assets" props = Some (VArray assets) /\
    Forall2 printable_asset assets counts /\
    scalar (field props "name") = true /\
    scalar (field props "tag_name") = true /\
    scalar (field props "url") = true /\
    scalar (field props "published_at") = true.

(** The object and the world when [run] has printed its title and has
    asked for the names that are missing. *)
Definition entered (ask : string -> string) (cli : Cli.t) (w : Cli.world)
  : Cli.t * Cli.world :=
  let w1 := Cli.printMessage cli "GitHub Release Stats" w in
  if negb (truthy (Cli.repoOwner cli)) || negb (truthy_opt (Cli.repoName cli))
  then Cli.getUserInput ask cli w1
  else (cli, w1).

(** The client that [run] makes. *)
Definition client_of (env : Env) (cli : Cli.t) : GithubStats :=
  new_GithubStats env (Cli.repoOwner cli) (text_of (Cli.repoName cli)) None.

(** The counter that [run] calls when [detailed] is not set. *)
Definition counter (env : Env) (net : Transport) (fuel : nat) (cli : Cli.t)
  : M value :=
  if Cli.latest cli then
    getLatestReleaseDownloads env net fuel (client_of env cli)
  else if truthy (Cli.releaseTag cli) then
    getReleaseDownloads env net fuel (client_of env cli) (Cli.releaseTag cli)
  else getTotalDownloads env net fuel (client_of env cli).

(** The message that [run] prints before it calls the client. *)
Definition announcement (cli : Cli.t) : string :=
  let repo :=
    (Cli.repoOwner cli ++ "/" ++ text_of (Cli.repoName cli))%string in
  if Cli.detailed cli then
    if Cli.latest cli then
      ("Fetching " ++ repo ++ " latest release stats..." ++ newline)%string
    else if truthy (Cli.releaseTag cli) then
      ("Fetching " ++ repo ++ " " ++ Cli.releaseTag cli ++ " stats..."
         ++ newline)%string
    else ("Fetching " ++ repo ++ " stats..." ++ newline)%string
  else if Cli.latest cli then
    ("Fetching " ++ repo ++ " latest release download count...")%string
  else if truthy (Cli.releaseTag cli) then
    ("Fetching " ++ repo ++ " " ++ Cli.releaseTag cli
       ++ " download count...")%string
  else ("Fetching " ++ repo ++ " download count...")%string.

(** The call of the client with its two callbacks, by the options. *)
Definition settle (env : Env) (net : Transport) (describe : exn -> string)
    (inspect : value -> string) (fuel : nat) (cli : Cli.t) (w : Cli.world)
  : Cli.world :=
  if Cli.detailed cli then
    if Cli.latest cli then
      Cli.then_catch describe
        (getLatestRelease env net fuel (client_of env cli))
        Cli.printRelease w
    else if truthy (Cli.releaseTag cli) then
      Cli.then_catch describe
        (getRelease env net fuel (client_of env cli) (Cli.releaseTag cli))
        Cli.printRelease w
    else
      Cli.then_catch describe
        (getAllReleases env net fuel (client_of env cli))
        Cli.print_listing w
  else
    Cli.then_catch describe (counter env net fuel cli)
      (Cli.info_value inspect) w.

(** A printing computation that asks nothing. *)
Definition asks_nothing {A : Type} (m : Cli.P A) : Prop :=
  forall console,
    filter is_question (snd (m console)) = filter is_question console.

(** A session for the examples: the user answers [foo] for the owner and
    [bar] for the name, the repository of the test suite; an error is
    described by its kind and its reason. *)
Module FakeSession.

Definition answers (question : string) : string :=
  if String.eqb question Cli.owner_question then "foo" else "bar".

Definition describe (error : exn) : string :=
  match error with
  | EGithub e => (name e ++ ": " ++ message e)%string
  | TypeError => "TypeError"
  | Fault reason => ("Error: " ++ reason)%string
  end.

Definition inspect (v : value) : string :=
  match v with
  | VArray _ => "[Array]"
  | _ => "[Object]"
  end.

(** The world before the script starts. *)
Definition started : Cli.world :=
  {| Cli.console := []; Cli.exitCode := None; Cli.log := [] |}.

(** The object after [ghstats foo bar], with a tag and options. *)
Definition command (tag : string) (detailed latest quiet : bool) : Cli.t :=
  {| Cli.repoOwner := "foo"; Cli.repoName := Some "bar";
     Cli.releaseTag := tag; Cli.detailed := detailed;
     Cli.latest := latest; Cli.quiet := quiet |}.

(** An answer that is no success and carries no message. *)
Definition refused : Transport :=
  FakeApi.mockResponses
    [Return {| Response.ok := false;
               Response.headers := [];
               Response.json := Return (VObject []) |}].

End FakeSession.

(* ================================================================= *)
(** ** Basic facts *)

Lemma calls_app (l1 l2 : list event) : calls (l1 ++ l2) = calls l1 ++ calls l2.
Proof. unfold calls. apply flat_map_app. Qed.

Lemma requested_app (l1 l2 : list event) :
  requested (l1 ++ l2) = requested l1 ++ requested l2.
Proof. unfold requested. rewrite calls_app. apply map_app. Qed.

Lemma has_get_header (h : Headers) (key : string) :
  has h key = true -> exists v, get_header h key = Some v.
Proof.
  unfold has, get_header. destruct (values_of h key) as [|v vs].
  - discriminate.
  - intros _. eexists. reflexivity.
Qed.

(** Every result of the matcher is a result of its continuation. *)
Lemma run_continues (r : regex) :
  forall st k m, run r st k = Some m -> exists st', k st' = Some m.
Proof.
  induction r as [ | | c | | r IH | r1 IH1 r2 IH2 | i r IH ];
    intros st k m H; cbn [run] in H.
  - eauto.
  - destruct (pos st =? 0)%nat; [eauto | discriminate].
  - destruct (rest st) as [|x xs]; [discriminate|].
    destruct (Ascii.eqb x c); [eauto | discriminate].
  - destruct (rest st) as [|x xs]; [discriminate|].
    destruct (line_terminator x); [discriminate | eauto].
  - revert H. generalize (S (List.length (rest st))). intros n. revert st.
    induction n as [|n IHn]; intros st H; cbn [iterate] in H.
    + exists st. exact H.
    + destruct (run r st _) as [m'|] eqn:E.
      * injection H as <-. apply IH in E. destruct E as [st1 E].
        destruct (pos st <? pos st1)%nat; [eauto | discriminate].
      * exists st. exact H.
  - apply IH1 in H. destruct H as [st1 H]. eapply IH2. exact H.
  - apply IH in H. destruct H as [st1 H]. eauto.
Qed.

Lemma run_Lit_caps (s : string) :
  forall st m, run (Lit s) st Some = Some m -> caps m = caps st.
Proof.
  induction s as [|c s IH]; intros st m H; cbn [Lit run] in H.
  - congruence.
  - destruct (rest st) as [|x xs]; [discriminate|].
    destruct (Ascii.eqb x c); [|discriminate].
    apply IH in H. exact H.
Qed.

Lemma exec_from_run (r : regex) (s : list ascii) :
  forall i m, exec_from r i s = Some m ->
  exists st, run r st Some = Some m.
Proof.
  induction s as [|c s IH]; intros i m H; cbn [exec_from] in H.
  - destruct (run r _ Some) eqn:E; [|discriminate].
    injection H as <-. eauto.
  - destruct (run r _ Some) eqn:E.
    + injection H as <-. eauto.
    + eapply IH. exact H.
Qed.

(** A match of the link pattern always has its group 1: the fallback
    in [fetch] for an [undefined] group is never taken. *)
Lemma next_link_group (link : string) (m : mstate) :
  regex_match link next_link = Some m ->
  exists u, group 1 (caps m) = Some u.
Proof.
  unfold regex_match. intros H.
  apply exec_from_run in H. destruct H as [st H].
  unfold next_link in H. cbn [run] in H.
  destruct (pos st =? 0)%nat; [|discriminate].
  apply (run_continues (Star Dot)) in H. destruct H as [st1 H].
  destruct (rest st1) as [|x xs]; [discriminate|].
  destruct (Ascii.eqb x "<"); [|discriminate].
  apply (run_continues (Star Dot)) in H. destruct H as [st2 H].
  apply run_Lit_caps in H. rewrite H. cbn. eauto.
Qed.

(* ================================================================= *)
(** ** One step of [fetch] *)

Section Fetch.

Variable env : Env.
Variable net : Transport.

Lemma fetch_S (fuel : nat) (this : GithubStats) (url : string)
    (log : list event) :
  fetch env net (S fuel) this url log =
  let res := net (calls log) url (init_of env this) in
  let log1 := log ++ [Fetch url (init_of env this) res] in
  match res with
  | Return response => after_response env net fuel this url response log1
  | Throw e => (Some (Throw e), log1)
  end.
Proof.
  cbn [fetch]. unfold bind at 1. unfold node_fetch at 1.
  fold (init_of env this).
  destruct (net (calls log) url (init_of env this)) as [response|e];
    cbn zeta; [|reflexivity].
  unfold after_response, next_page.
  destruct (Response.ok response); cbn [negb].
  - destruct (has (Response.headers response) "link").
    + destruct (get_header (Response.headers response) "link") as [link|].
      * destruct (regex_match link next_link) as [m|].
        -- unfold bind, response_json, ret, push, unshift.
           destruct (fetch env net fuel this _ _) as [[[next|e]|] log2];
             reflexivity.
        -- unfold bind, response_json, ret, unshift.
           destruct (Response.json response); reflexivity.
      * unfold bind, response_json, ret, unshift.
        destruct (Response.json response); reflexivity.
    + unfold bind, response_json, ret, unshift.
      destruct (Response.json response); reflexivity.
  - unfold bind, response_json, lift, throw.
    destruct (Response.json response) as [parsed|e]; [|reflexivity].
    destruct (get parsed "message") as [msg|e]; cbn [cbind]; [|reflexivity].
    destruct (new_GithubError msg); reflexivity.
Qed.

(** Once [fetch] has settled, more fuel changes nothing. *)
Lemma fetch_more_fuel (this : GithubStats) :
  forall fuel url log r log',
    fetch env net fuel this url log = (Some r, log') ->
    forall fuel', fuel <= fuel' ->
    fetch env net fuel' this url log = (Some r, log').
Proof.
  induction fuel as [|fuel IH]; intros url log r log' H fuel' Hle.
  - discriminate H.
  - destruct fuel' as [|fuel']; [lia|].
    rewrite fetch_S in H. rewrite fetch_S.
    destruct (net (calls log) url (init_of env this)) as [response|e];
      cbn zeta in *; [|exact H].
    unfold after_response in *.
    destruct (Response.ok response); [|exact H].
    destruct (next_page response) as [u|]; [|exact H].
    destruct (fetch env net fuel this u _) as [[[next|e]|] log2] eqn:E.
    + rewrite (IH _ _ _ _ E fuel') by lia. exact H.
    + rewrite (IH _ _ _ _ E fuel') by lia. exact H.
    + discriminate H.
Qed.

(** *** A chain of pages *)

Lemma fetch_chain (this : GithubStats) (pages : list (string * Response.t)) :
  forall fuel url log,
    chain env net this (calls log) url pages ->
    List.length pages <= fuel ->
    fetch env net fuel this url log =
    (Some (Return (List.concat (map page_records (map snd pages)))),
          log ++ map (fetch_event env this) pages
              ++ map json_event (rev pages)).
Proof.
  induction pages as [|[u response] more IH]; intros fuel url log Hc Hf.
  - destruct Hc.
  - cbn [chain] in Hc. destruct Hc as (-> & Hnet & Hok & Hjson & Hnext).
    destruct fuel as [|fuel]; [cbn in Hf; lia|].
    rewrite fetch_S. rewrite Hnet. cbn zeta. unfold after_response.
    rewrite Hok.
    destruct (Response.json response) as [parsed|e] eqn:Ej;
      [|discriminate Hjson].
    assert (Hp : page_records response = flat [parsed])
      by (unfold page_records; rewrite Ej; reflexivity).
    destruct more as [|[u' response'] more'].
    + rewrite Hnext. cbn [map rev List.concat snd app].
      rewrite Hp.
      unfold fetch_event, json_event. simpl fst. simpl snd. rewrite Ej.
      rewrite <- app_assoc. reflexivity.
    + destruct Hnext as [Hnext Hrest]. rewrite Hnext.
      rewrite (IH fuel u' (log ++ [Fetch url (init_of env this) (Return response)])).
      * cbn [map rev List.concat snd].
        rewrite Hp. f_equal.
        rewrite !map_app. cbn [map].
        unfold fetch_event, json_event. simpl fst. simpl snd.
        rewrite ?Ej. rewrite <- !app_assoc. reflexivity.
      * rewrite calls_app. cbn. exact Hrest.
      * cbn in Hf. cbn. lia.
Qed.

Lemma requested_fetch_events (this : GithubStats)
    (pages : list (string * Response.t)) :
  requested (map (fetch_event env this) pages) = map fst pages.
Proof.
  induction pages as [|p more IH]; [reflexivity|].
  cbn [map]. change (requested (fetch_event env this p :: ?l))
    with (fst p :: requested l). rewrite IH. reflexivity.
Qed.

Lemma requested_json_events (pages : list (string * Response.t)) :
  requested (map json_event pages) = [].
Proof.
  induction pages as [|p more IH]; [reflexivity|]. exact IH.
Qed.

Lemma length_concat (ls : list (list value)) :
  List.length (List.concat ls) = list_sum (map (@List.length value) ls).
Proof.
  induction ls as [|l ls IH]; [reflexivity|].
  cbn [List.concat map list_sum]. rewrite List.length_app, IH. reflexivity.
Qed.

End Fetch.

(* ================================================================= *)
(** ** The discipline of the log *)

Lemma settled_nil (err : option exn) : settled err [].
Proof. left. constructor. Qed.

Lemma settled_app (err : option exn) (t1 t2 : list event) :
  faultless t1 -> settled err t2 -> settled err (t1 ++ t2).
Proof.
  intros H1 [H2 | (before & ev & e & -> & Hb & Hr & He)].
  - left. apply Forall_app. split; assumption.
  - right. exists (t1 ++ before), ev, e. rewrite app_assoc.
    repeat split; try assumption. apply Forall_app. split; assumption.
Qed.

Lemma settled_Return_faultless (trace : list event) :
  settled None trace -> faultless trace.
Proof.
  intros [H | (before & ev & e & _ & _ & _ & He)]; [exact H | discriminate].
Qed.

Lemma settled_surface {A : Type} (res : option (completion A))
    (trace : list event) :
  settled (thrown res) trace ->
  (forall before ev after e,
      trace = before ++ ev :: after ->
      rejected ev = Some e ->
      res = Some (Throw e) /\ after = []) /\
  (forall a, res = Some (Return a) -> faultless trace).
Proof.
  intros Hs. split.
  - intros before ev after e Ht Hr.
    destruct Hs as [Hf | (init & ev' & e' & Ht' & Hf & Hr' & He)].
    + unfold faultless in Hf. rewrite Forall_forall in Hf.
      rewrite (Hf ev) in Hr; [discriminate|].
      rewrite Ht. apply in_or_app. right. left. reflexivity.
    + destruct (exists_last (l := ev :: after)) as (mid & last & Hl);
        [discriminate|].
      rewrite Ht' in Ht. rewrite Hl, app_assoc in Ht.
      apply app_inj_tail in Ht. destruct Ht as [Hinit Hlast].
      destruct mid as [|x mid].
      * cbn in Hl. injection Hl as Hev Hafter. subst.
        rewrite Hr' in Hr. injection Hr as ->.
        destruct res as [[a|e']|]; cbn in He; try discriminate.
        injection He as ->. split; reflexivity.
      * cbn in Hl. injection Hl as <- _.
        unfold faultless in Hf. rewrite Forall_forall in Hf.
        rewrite (Hf ev) in Hr; [discriminate|].
        rewrite Hinit. apply in_or_app. right. left. reflexivity.
  - intros a ->. apply settled_Return_faultless. exact Hs.
Qed.

Section Discipline.

Variable env : Env.
Variable net : Transport.
Variable this : GithubStats.

Lemma disciplined_ret {A : Type} (a : A) : disciplined env this (ret a).
Proof.
  intros log res log' H. injection H as <- <-.
  exists []. rewrite app_nil_r. repeat split.
  - constructor.
  - apply settled_nil.
Qed.

Lemma disciplined_lift {A : Type} (c : completion A) :
  disciplined env this (lift c).
Proof.
  intros log res log' H. injection H as <- <-.
  exists []. rewrite app_nil_r. repeat split.
  - constructor.
  - apply settled_nil.
Qed.

Lemma disciplined_throw {A : Type} (e : exn) :
  disciplined env this (@throw A e).
Proof. exact (disciplined_lift (Throw e)). Qed.

Lemma disciplined_bind {A B : Type} (m : M A) (k : A -> M B) :
  disciplined env this m ->
  (forall a, disciplined env this (k a)) ->
  disciplined env this (bind m k).
Proof.
  intros Hm Hk log res log' H. unfold bind in H.
  destruct (m log) as [[[a|e]|] log1] eqn:Em.
  - destruct (Hm _ _ _ Em) as (t1 & -> & Hu1 & Hs1).
    destruct (Hk a _ _ _ H) as (t2 & -> & Hu2 & Hs2).
    exists (t1 ++ t2). rewrite app_assoc. repeat split.
    + apply Forall_app. split; assumption.
    + apply settled_app; [|exact Hs2].
      apply settled_Return_faultless. exact Hs1.
  - injection H as <- <-.
    destruct (Hm _ _ _ Em) as (t1 & -> & Hu1 & Hs1).
    exists t1. repeat split; assumption.
  - injection H as <- <-.
    destruct (Hm _ _ _ Em) as (t1 & -> & Hu1 & Hs1).
    exists t1. repeat split; assumption.
Qed.

Lemma disciplined_node_fetch (url : string) :
  disciplined env this (node_fetch net url (init_of env this)).
Proof.
  intros log res log' H. unfold node_fetch in H. injection H as <- <-.
  eexists. split; [reflexivity|]. split.
  - constructor; [reflexivity | constructor].
  - destruct (net (calls log) url (init_of env this)) as [r|e].
    + left. constructor; [reflexivity | constructor].
    + right. exists [], (Fetch url (init_of env this) (Throw e)), e.
      repeat split. constructor.
Qed.

Lemma disciplined_response_json (url : string) (response : Response.t) :
  disciplined env this (response_json url response).
Proof.
  intros log res log' H. unfold response_json in H. injection H as <- <-.
  eexists. split; [reflexivity|]. split.
  - constructor; [exact I | constructor].
  - destruct (Response.json response) as [v|e] eqn:E.
    + left. constructor; [reflexivity | constructor].
    + right. exists [], (Json url (Throw e)), e.
      repeat split. constructor.
Qed.

Lemma disciplined_fetch (fuel : nat) :
  forall url, disciplined env this (fetch env net fuel this url).
Proof.
  induction fuel as [|fuel IH]; intros url.
  - intros log res log' H. injection H as <- <-.
    exists []. rewrite app_nil_r. repeat split.
    + constructor.
    + apply settled_nil.
  - cbn [fetch]. fold (init_of env this).
    apply disciplined_bind; [apply disciplined_node_fetch|].
    intros response. destruct (negb (Response.ok response)).
    + apply disciplined_bind; [apply disciplined_response_json|].
      intros parsed. apply disciplined_bind; [apply disciplined_lift|].
      intros msg. apply disciplined_bind; [apply disciplined_lift|].
      intros e. apply disciplined_throw.
    + apply disciplined_bind.
      * destruct (has _ _); [|apply disciplined_ret].
        destruct (get_header _ _); [|apply disciplined_ret].
        destruct (regex_match _ _); [|apply disciplined_ret].
        apply disciplined_bind; [apply IH|].
        intros next. apply disciplined_ret.
      * intros result. apply disciplined_bind;
          [apply disciplined_response_json|].
        intros parsed. apply disciplined_ret.
Qed.

Lemma disciplined_getAllReleases (fuel : nat) :
  disciplined env this (getAllReleases env net fuel this).
Proof.
  unfold getAllReleases.
  apply disciplined_bind; [apply disciplined_fetch|].
  intros response. apply disciplined_ret.
Qed.

Lemma disciplined_getTotalDownloads (fuel : nat) :
  disciplined env this (getTotalDownloads env net fuel this).
Proof.
  unfold getTotalDownloads.
  apply disciplined_bind; [apply disciplined_getAllReleases|].
  intros releases. apply disciplined_lift.
Qed.

End Discipline.

(* ================================================================= *)
(** ** Download counts *)

Lemma sum_app (l1 l2 : list Z) : sum (l1 ++ l2) = (sum l1 + sum l2)%Z.
Proof.
  induction l1 as [|x l1 IH]; cbn [sum fold_right app].
  - reflexivity.
  - fold (sum (l1 ++ l2)). fold (sum l1). rewrite IH. lia.
Qed.

Lemma magnitude_app (l1 l2 : list Z) :
  magnitude (l1 ++ l2) = (magnitude l1 + magnitude l2)%Z.
Proof. unfold magnitude. rewrite map_app. apply sum_app. Qed.

Lemma magnitude_cons (x : Z) (l : list Z) :
  magnitude (x :: l) = (Z.abs x + magnitude l)%Z.
Proof. reflexivity. Qed.

Lemma magnitude_nonneg (l : list Z) : (0 <= magnitude l)%Z.
Proof.
  induction l as [|x l IH]; [reflexivity|].
  rewrite magnitude_cons. lia.
Qed.

Lemma sum_le_magnitude (l : list Z) : (Z.abs (sum l) <= magnitude l)%Z.
Proof.
  induction l as [|x l IH]; [reflexivity|].
  rewrite magnitude_cons. cbn [sum fold_right]. fold (sum l). lia.
Qed.

Lemma double_of_Z_exact (x : Z) :
  (Z.abs x <= exact_bound)%Z -> double_of_Z x = Int x.
Proof.
  intros H. unfold double_of_Z.
  destruct (Z.leb_spec (Z.abs x) exact_bound) as [_|Hlt]; [reflexivity | lia].
Qed.

Lemma Number_toString_exact (z : Z) :
  (Z.abs z <= exact_bound)%Z -> Number_toString (Int z) = decimal z.
Proof.
  intros H. unfold Number_toString.
  destruct (Z.leb_spec (Z.abs z) exact_bound) as [_|Hlt]; [reflexivity | lia].
Qed.

Lemma js_add_numbers (a b : number) :
  js_add (VNumber a) (VNumber b) = Return (VNumber (number_add a b)).
Proof. reflexivity. Qed.

Lemma number_add_exact (x y : Z) :
  (Z.abs (x + y) <= exact_bound)%Z ->
  number_add (Int x) (Int y) = Int (x + y).
Proof. intros H. cbn [number_add]. apply double_of_Z_exact. exact H. Qed.

Lemma add_asset_number (n : number) (asset : value) (count : Z) :
  is_asset asset count ->
  add_asset (VNumber n) asset = Return (VNumber (number_add n (Int count))).
Proof.
  intros (props & -> & Hc). unfold add_asset, get. rewrite Hc. reflexivity.
Qed.

Lemma reduce_assets_number (assets : list value) (counts : list Z) :
  Forall2 is_asset assets counts ->
  forall n,
    reduce_items add_asset assets (VNumber n) =
    Return (VNumber (add_all n counts)).
Proof.
  induction 1 as [|asset count assets counts Ha _ IH]; intros n.
  - reflexivity.
  - cbn [reduce_items]. rewrite (add_asset_number _ _ _ Ha). cbn [cbind].
    rewrite IH. reflexivity.
Qed.

Lemma add_all_exact (counts : list Z) :
  forall acc,
    (Z.abs acc + magnitude counts <= exact_bound)%Z ->
    add_all (Int acc) counts = Int (acc + sum counts).
Proof.
  induction counts as [|count counts IH]; intros acc H.
  - cbn. f_equal. lia.
  - rewrite magnitude_cons in H.
    pose proof (magnitude_nonneg counts) as Hm.
    unfold add_all. cbn [fold_left]. fold (add_all (number_add (Int acc) (Int count)) counts).
    rewrite number_add_exact by lia. rewrite IH by lia.
    cbn [sum fold_right]. fold (sum counts). f_equal. lia.
Qed.

Lemma reduce_assets (assets : list value) (counts : list Z) :
  Forall2 is_asset assets counts ->
  forall acc,
    (Z.abs acc + magnitude counts <= exact_bound)%Z ->
    reduce_items add_asset assets (VNumber (Int acc)) =
    Return (VNumber (Int (acc + sum counts))).
Proof.
  intros Ha acc H.
  rewrite (reduce_assets_number _ _ Ha), (add_all_exact _ _ H). reflexivity.
Qed.

Lemma release_downloads_number (release : value) (counts : list Z) :
  is_release release counts ->
  release_downloads release = Return (VNumber (add_all (Int 0) counts)).
Proof.
  intros (props & assets & -> & Ha & Hc).
  unfold release_downloads, get. rewrite Ha. cbn [cbind reduce].
  apply (reduce_assets_number _ _ Hc).
Qed.

Lemma release_downloads_sum (release : value) (counts : list Z) :
  is_release release counts ->
  exact counts ->
  release_downloads release = Return (VNumber (Int (sum counts))).
Proof.
  intros Hr He. rewrite (release_downloads_number _ _ Hr).
  rewrite add_all_exact by exact He. reflexivity.
Qed.

Lemma add_release_number (n : number) (release : value) (counts : list Z) :
  is_release release counts ->
  add_release (VNumber n) release =
  Return (VNumber (number_add n (add_all (Int 0) counts))).
Proof.
  intros Hr. unfold add_release.
  rewrite (release_downloads_number _ _ Hr). reflexivity.
Qed.

Lemma reduce_releases_number (releases : list value)
    (counts : list (list Z)) :
  Forall2 is_release releases counts ->
  forall n, exists n',
    reduce_items add_release releases (VNumber n) = Return (VNumber n').
Proof.
  induction 1 as [|release cs releases counts Hr _ IH]; intros n.
  - eexists. reflexivity.
  - cbn [reduce_items]. rewrite (add_release_number _ _ _ Hr). cbn [cbind].
    apply IH.
Qed.

Lemma reduce_releases (releases : list value) (counts : list (list Z)) :
  Forall2 is_release releases counts ->
  forall acc,
    (Z.abs acc + magnitude (List.concat counts) <= exact_bound)%Z ->
    reduce_items add_release releases (VNumber (Int acc)) =
    Return (VNumber (Int (acc + sum (List.concat counts)))).
Proof.
  induction 1 as [|release cs releases counts Hr _ IH]; intros acc H.
  - cbn. f_equal. f_equal. f_equal. lia.
  - cbn [List.concat] in H. rewrite magnitude_app in H.
    pose proof (magnitude_nonneg cs) as Hcs.
    pose proof (magnitude_nonneg (List.concat counts)) as Hrest.
    pose proof (sum_le_magnitude cs) as Hsum.
    cbn [reduce_items]. rewrite (add_release_number _ _ _ Hr). cbn [cbind].
    rewrite add_all_exact by lia. cbn [Z.add].
    rewrite number_add_exact by lia.
    rewrite IH by lia. cbn [List.concat]. rewrite sum_app.
    f_equal. f_equal. f_equal. lia.
Qed.

(** Counters that are not negative add up without rounding when their
    sum is 2^53 at most. *)
Lemma exact_counts (counts : list Z) :
  Forall (fun count => 0 <= count)%Z counts ->
  (sum counts <= exact_bound)%Z ->
  exact counts.
Proof.
  intros Hpos Hsum. unfold exact.
  replace (magnitude counts) with (sum counts); [exact Hsum|].
  clear Hsum. induction Hpos as [|count counts Hc _ IH]; [reflexivity|].
  rewrite magnitude_cons. cbn [sum fold_right]. fold (sum counts).
  rewrite IH. lia.
Qed.

Lemma exact_each (counts : list (list Z)) :
  exact (List.concat counts) -> Forall exact counts.
Proof.
  unfold exact. induction counts as [|cs counts IH]; intros H; constructor.
  - cbn [List.concat] in H. rewrite magnitude_app in H.
    pose proof (magnitude_nonneg (List.concat counts)). lia.
  - apply IH. cbn [List.concat] in H. rewrite magnitude_app in H.
    pose proof (magnitude_nonneg cs). lia.
Qed.

(** C1. [getTotalDownloads] resolves to the sum of the download counts
    of all assets of all releases that [getAllReleases] resolves to:
    each release contributes the sum of its assets' counts, added from
    zero (so nothing when it has no assets), and the contributions are
    added from zero (so the total of no releases is zero).  The
    additions are those of doubles: they are the additions of integers
    as long as the magnitudes of the counts add up to 2^53 at most. *)
Theorem getTotalDownloads_is_sum (env : Env) (net : Transport) (fuel : nat)
    (this : GithubStats) (log log' : list event)
    (releases : list value) (counts : list (list Z)) :
  getAllReleases env net fuel this log = (Some (Return releases), log') ->
  Forall2 is_release releases counts ->
  exact (List.concat counts) ->
  getTotalDownloads env net fuel this log =
    (Some (Return (VNumber (Int (sum (List.concat counts))))), log') /\
  Forall2 (fun release cs =>
             release_downloads release = Return (VNumber (Int (sum cs))))
          releases counts /\
  (forall release, is_release release [] ->
     release_downloads release = Return (VNumber (Int 0))) /\
  (releases = [] ->
     getTotalDownloads env net fuel this log =
       (Some (Return (VNumber (Int 0))), log')).
Proof.
  intros Hall Hrel Hexact.
  assert (Htotal : getTotalDownloads env net fuel this log =
            (Some (Return (VNumber (Int (sum (List.concat counts))))), log')).
  { unfold getTotalDownloads, bind. rewrite Hall. unfold lift.
    rewrite (reduce_releases _ _ Hrel 0) by exact Hexact. reflexivity. }
  repeat split.
  - exact Htotal.
  - pose proof (exact_each _ Hexact) as Heach. clear Hall Htotal Hexact.
    induction Hrel as [|release cs releases counts Hr _ IH]; constructor.
    + apply release_downloads_sum; [exact Hr|].
      inversion Heach; assumption.
    + apply IH. inversion Heach; assumption.
  - intros release Hr. apply (release_downloads_sum _ _ Hr).
    unfold exact. cbn. discriminate.
  - intros ->. inversion Hrel; subst. exact Htotal.
Qed.

(* ================================================================= *)
(** ** Pagination *)

(** C2. Over a chain of pages, each but the last naming the next one
    in its link header, [fetch] resolves to the concatenation of the
    pages' records in page order, the records of the first page before
    those of the pages after it; the number of records is the sum of
    the pages' numbers of records. *)
Theorem fetch_concatenates_pages (env : Env) (net : Transport)
    (this : GithubStats) (fuel : nat) (url : string) (log : list event)
    (pages : list (string * Response.t)) :
  chain env net this (calls log) url pages ->
  List.length pages <= fuel ->
  exists records log',
    fetch env net fuel this url log = (Some (Return records), log') /\
    records = List.concat (map page_records (map snd pages)) /\
    (forall p more, pages = p :: more ->
       records = page_records (snd p)
                 ++ List.concat (map page_records (map snd more))) /\
    List.length records =
      list_sum (map (fun p => List.length (page_records (snd p))) pages).
Proof.
  intros Hc Hf. eexists. eexists. split; [|split; [|split]].
  - apply fetch_chain; eassumption.
  - reflexivity.
  - intros p more ->. reflexivity.
  - rewrite length_concat. rewrite !map_map. reflexivity.
Qed.

(** C3, as the code has it.  Over a chain of pages [fetch] calls the
    transport once per page, in page order, each call made with the
    answer (status and headers) to the one before in hand; the bodies
    are read after the last call, last page first.  A single page takes
    one call. *)
Theorem fetch_one_request_per_page (env : Env) (net : Transport)
    (this : GithubStats) (fuel : nat) (url : string) (log : list event)
    (pages : list (string * Response.t)) :
  chain env net this (calls log) url pages ->
  List.length pages <= fuel ->
  exists records trace,
    fetch env net fuel this url log = (Some (Return records), log ++ trace) /\
    trace = map (fetch_event env this) pages ++ map json_event (rev pages) /\
    requested trace = map fst pages /\
    List.length (requested trace) = List.length pages /\
    (forall p, pages = [p] -> requested trace = [url]).
Proof.
  intros Hc Hf. eexists. eexists. split; [|split; [|split; [|split]]].
  - apply fetch_chain; eassumption.
  - reflexivity.
  - rewrite requested_app, requested_fetch_events, requested_json_events.
    apply app_nil_r.
  - rewrite requested_app, requested_fetch_events, requested_json_events.
    rewrite app_nil_r. apply length_map.
  - intros [u r] ->. cbn [chain] in Hc. destruct Hc as [-> _]. reflexivity.
Qed.

(* ================================================================= *)
(** ** Errors *)

(** C4. When the transport answers with a status that is not a success
    and the body parses to an object whose [message] is a string,
    [fetch], and with it [getRelease], [getLatestRelease] and
    [getAllReleases], rejects with a [GithubError] whose message is that
    string and whose name is GithubError. *)
Theorem fetch_throws_GithubError (env : Env) (net : Transport)
    (this : GithubStats) (fuel : nat) (url : string) (log : list event)
    (response : Response.t) (props : list (string * value)) (msg : string) :
  net (calls log) url (init_of env this) = Return response ->
  Response.ok response = false ->
  Response.json response = Return (VObject props) ->
  own "message" props = Some (VString msg) ->
  exists e log',
    fetch env net (S fuel) this url log = (Some (Throw (EGithub e)), log') /\
    message e = msg /\
    name e = "GithubError" /\
    (forall tag, url = api this ("/releases/tags/" ++ tag) ->
       getRelease env net (S fuel) this tag log
       = (Some (Throw (EGithub e)), log')) /\
    (url = api this "/releases/latest" ->
       getLatestRelease env net (S fuel) this log
       = (Some (Throw (EGithub e)), log')) /\
    (url = api this "/releases?per_page=100" ->
       getAllReleases env net (S fuel) this log
       = (Some (Throw (EGithub e)), log')).
Proof.
  intros Hnet Hok Hjson Hmsg.
  assert (Hf : fetch env net (S fuel) this url log =
               (Some (Throw (EGithub {| message := msg; name := "GithubError" |})),
                     (log ++ [Fetch url (init_of env this) (Return response)])
                       ++ [Json url (Response.json response)])).
  { rewrite fetch_S, Hnet. cbn zeta. unfold after_response.
    rewrite Hok, Hjson. unfold get. rewrite Hmsg. reflexivity. }
  eexists. eexists. split; [exact Hf|].
  split; [reflexivity|]. split; [reflexivity|].
  split; [|split].
  - intros tag ->. unfold getRelease, bind. rewrite Hf. reflexivity.
  - intros ->. unfold getLatestRelease, bind. rewrite Hf. reflexivity.
  - intros ->. unfold getAllReleases, bind. rewrite Hf. reflexivity.
Qed.

Lemma disciplined_surface {A : Type} (env : Env) (this : GithubStats)
    (m : M A) (log : list event) (res : option (completion A))
    (log' : list event) :
  disciplined env this m ->
  m log = (res, log') ->
  faults_surface log res log'.
Proof.
  intros Hd Hm. destruct (Hd _ _ _ Hm) as (trace & -> & _ & Hs).
  exists trace. split; [reflexivity|]. apply settled_surface. exact Hs.
Qed.

(** C5. Whatever the transport rejects a call with, and whatever the
    reading of a body rejects with, is what [fetch] rejects with, as it
    is; no call and no reading follows the failure; and a result is
    returned only when no call and no reading failed.  The same holds
    for [getAllReleases] and for the aggregation [getTotalDownloads].
    And [fetch] does reject: at once when the call is rejected, after
    the later pages when its own body does not parse, and with the
    rejection of the later pages when they reject. *)
Theorem faults_propagate (env : Env) (net : Transport) (this : GithubStats)
    (fuel : nat) (log : list event) :
  (forall url res log',
      fetch env net fuel this url log = (res, log') ->
      faults_surface log res log') /\
  (forall res log',
      getAllReleases env net fuel this log = (res, log') ->
      faults_surface log res log') /\
  (forall res log',
      getTotalDownloads env net fuel this log = (res, log') ->
      faults_surface log res log') /\
  (forall url e,
      net (calls log) url (init_of env this) = Throw e ->
      fetch env net (S fuel) this url log =
      (Some (Throw e), log ++ [Fetch url (init_of env this) (Throw e)])) /\
  (forall url response e,
      net (calls log) url (init_of env this) = Return response ->
      Response.json response = Throw e ->
      Response.ok response = false \/ next_page response = None ->
      fetch env net (S fuel) this url log =
      (Some (Throw e), log ++ [Fetch url (init_of env this) (Return response);
                             Json url (Throw e)])) /\
  (forall url response u e log2,
      net (calls log) url (init_of env this) = Return response ->
      Response.ok response = true ->
      next_page response = Some u ->
      fetch env net fuel this u
        (log ++ [Fetch url (init_of env this) (Return response)])
      = (Some (Throw e), log2) ->
      fetch env net (S fuel) this url log = (Some (Throw e), log2)) /\
  (forall url response u next e log2,
      net (calls log) url (init_of env this) = Return response ->
      Response.ok response = true ->
      next_page response = Some u ->
      fetch env net fuel this u
        (log ++ [Fetch url (init_of env this) (Return response)])
      = (Some (Return next), log2) ->
      Response.json response = Throw e ->
      fetch env net (S fuel) this url log =
      (Some (Throw e), log2 ++ [Json url (Throw e)])).
Proof.
  repeat apply conj.
  - intros url res log'.
    apply disciplined_surface with (env := env) (this := this).
    apply disciplined_fetch.
  - intros res log'.
    apply disciplined_surface with (env := env) (this := this).
    apply disciplined_getAllReleases.
  - intros res log'.
    apply disciplined_surface with (env := env) (this := this).
    apply disciplined_getTotalDownloads.
  - intros url e Hnet. rewrite fetch_S, Hnet. reflexivity.
  - intros url response e Hnet Hjson Hlast.
    rewrite fetch_S, Hnet. cbn zeta. unfold after_response. rewrite Hjson.
    rewrite <- app_assoc. cbn [app].
    destruct (Response.ok response); [|reflexivity].
    destruct Hlast as [Hok | Hnext]; [discriminate Hok|].
    rewrite Hnext. reflexivity.
  - intros url response u e log2 Hnet Hok Hnext Hrec.
    rewrite fetch_S, Hnet. cbn zeta. unfold after_response.
    rewrite Hok, Hnext, Hrec. reflexivity.
  - intros url response u next e log2 Hnet Hok Hnext Hrec Hjson.
    rewrite fetch_S, Hnet. cbn zeta. unfold after_response.
    rewrite Hok, Hnext, Hrec, Hjson. reflexivity.
Qed.

(* ================================================================= *)
(** ** Requests *)

Lemma follows_app_Json (expected : option string) (trace : list event)
    (url : string) (res : completion value) :
  follows expected trace -> follows expected (trace ++ [Json url res]).
Proof.
  revert expected. induction trace as [|ev trace IH]; intros expected H.
  - exact I.
  - destruct ev as [u i r|u r]; cbn [app follows] in *.
    + destruct H as [He H]. split; [exact He|]. apply IH. exact H.
    + apply IH. exact H.
Qed.

Lemma fetch_links (env : Env) (net : Transport)
    (this : GithubStats) (fuel : nat) (url : string) (log log' : list event)
    (res : option (completion (list value))) :
  fetch env net fuel this url log = (res, log') ->
  exists trace,
    log' = log ++ trace /\
    follows (Some url) trace /\
    (0 < fuel -> exists r more,
        trace = Fetch url (init_of env this) r :: more).
Proof.
  revert url log log' res.
  induction fuel as [|fuel IH]; intros url log log' res H.
  - injection H as <- <-. exists []. rewrite app_nil_r.
    repeat split. intros Hf. inversion Hf.
  - rewrite fetch_S in H. cbn zeta in H.
    destruct (net (calls log) url (init_of env this)) as [response|e] eqn:En.
    + unfold after_response in H.
      destruct (Response.ok response) eqn:Hok.
      * destruct (next_page response) as [u|] eqn:Hnext.
        -- destruct (fetch env net fuel this u _) as [r1 log1] eqn:E1.
           destruct (IH _ _ _ _ E1) as (t1 & -> & Hfol & _).
           assert (Hshape : exists t2,
                      log' = log ++ Fetch url (init_of env this)
                                      (Return response) :: t2 /\
                      follows (Some u) t2).
           { destruct r1 as [[next|e]|].
             - destruct (Response.json response);
                 injection H as <- <-;
                 eexists; rewrite <- !app_assoc; (split; [reflexivity|]);
                 apply follows_app_Json; exact Hfol.
             - injection H as <- <-. exists t1.
               rewrite <- app_assoc. split; [reflexivity | exact Hfol].
             - injection H as <- <-. exists t1.
               rewrite <- app_assoc. split; [reflexivity | exact Hfol]. }
           destruct Hshape as (t2 & -> & Hf2).
           eexists. split; [reflexivity|]. split.
           ++ cbn [follows]. rewrite Hok, Hnext. split; [reflexivity|exact Hf2].
           ++ intros _. eauto.
        -- exists [Fetch url (init_of env this) (Return response);
                   Json url (Response.json response)].
           split.
           ++ destruct (Response.json response); injection H as <- <-;
                rewrite <- app_assoc; reflexivity.
           ++ split; [|intros _; eauto].
              cbn [follows]. repeat split.
      * exists [Fetch url (init_of env this) (Return response);
                Json url (Response.json response)].
        split.
        -- destruct (Response.json response) as [parsed|e];
             [destruct (cbind (get parsed "message") _)|];
             injection H as <- <-; rewrite <- app_assoc; reflexivity.
        -- split; [|intros _; eauto].
           cbn [follows]. repeat split.
    + injection H as <- <-. eexists. split; [reflexivity|]. split.
      * cbn [follows]. repeat split.
      * intros _. eauto.
Qed.

Lemma request_headers_eq (env : Env) (this : GithubStats) :
  request_headers env this =
  (if self_defined env then []
   else [("User-Agent", "github-release-stats")])
  ++ (if String.eqb (token this) "" then []
      else [("Authorization", ("token " ++ token this)%string)]).
Proof.
  unfold request_headers, truthy, append.
  destruct (self_defined env), (String.eqb (token this) ""); reflexivity.
Qed.

(** C7. [fetch] calls the transport, first of all for the URL it was
    given, and every call it makes is a GET without a body, and its
    headers are: the User-Agent of the client exactly when [self] is
    undefined, then [Authorization: token <token>] exactly when the
    token is not empty; nothing else. *)
Theorem fetch_requests (env : Env) (net : Transport) (this : GithubStats)
    (fuel : nat) (url : string) (log log' : list event)
    (res : option (completion (list value))) :
  fetch env net fuel this url log = (res, log') ->
  exists trace,
    log' = log ++ trace /\
    (0 < fuel ->
     exists init r more, trace = Fetch url init r :: more) /\
    forall u init r,
      In (Fetch u init r) trace ->
      method init = "GET" /\
      body init = None /\
      headers init =
        (if self_defined env then []
         else [("User-Agent", "github-release-stats")])
        ++ (if String.eqb (token this) "" then []
            else [("Authorization", ("token " ++ token this)%string)]) /\
      (In ("Authorization", ("token " ++ token this)%string) (headers init)
         <-> token this <> "") /\
      ((exists v, In ("Authorization", v) (headers init))
         <-> token this <> "") /\
      ((exists v, In ("User-Agent", v) (headers init))
         <-> self_defined env = false).
Proof.
  intros Hf.
  destruct (disciplined_fetch env net this fuel url _ _ _ Hf)
    as (trace & -> & Hu & _).
  exists trace. split; [reflexivity|]. split.
  { intros Hfuel.
    destruct (fetch_links env net this fuel url _ _ _ Hf)
      as (trace' & Heq & _ & Hfirst).
    apply app_inv_head in Heq. subst trace'.
    destruct (Hfirst Hfuel) as (r & more & ->). eauto. }
  intros u init r Hin.
  unfold uniform in Hu. rewrite Forall_forall in Hu.
  specialize (Hu _ Hin). cbn in Hu. subst init.
  unfold init_of. cbn [method body headers].
  split; [reflexivity|]. split; [reflexivity|].
  rewrite request_headers_eq. split; [reflexivity|].
  destruct (String.eqb_spec (token this) "") as [He|He];
    destruct (self_defined env); cbn [app In].
  all: repeat split; intros;
    repeat match goal with
           | H : _ \/ _ |- _ => destruct H
           | H : exists _, _ |- _ => destruct H
           | H : False |- _ => destruct H
           | H : (_, _) = (_, _) |- _ => inversion H; clear H
           end;
    try congruence; try discriminate; eauto.
Qed.

(* ================================================================= *)
(** ** Single resources *)

Lemma fetch_single (env : Env) (net : Transport) (this : GithubStats)
    (fuel : nat) (url : string) (log : list event)
    (response : Response.t) (parsed : value) :
  net (calls log) url (init_of env this) = Return response ->
  Response.ok response = true ->
  next_page response = None ->
  Response.json response = Return parsed ->
  fetch env net (S fuel) this url log =
  (Some (Return (flat [parsed])),
        log ++ [Fetch url (init_of env this) (Return response);
                Json url (Return parsed)]).
Proof.
  intros Hnet Hok Hnext Hjson.
  rewrite fetch_S, Hnet. cbn zeta. unfold after_response.
  rewrite Hok, Hnext, Hjson, app_nil_r, <- app_assoc. reflexivity.
Qed.

(** C8. A successful answer without a next page makes [fetch] resolve
    to the parsed body normalised to an array: an object becomes the
    array of that one object, an array stays as it is.  [getRelease]
    and [getLatestRelease] then resolve to the object itself. *)
Theorem fetch_normalises_body (env : Env) (net : Transport)
    (this : GithubStats) (fuel : nat) (url : string) (log : list event)
    (response : Response.t) (parsed : value) :
  net (calls log) url (init_of env this) = Return response ->
  Response.ok response = true ->
  next_page response = None ->
  Response.json response = Return parsed ->
  exists log',
    fetch env net (S fuel) this url log = (Some (Return (flat [parsed])), log') /\
    (forall items, parsed = VArray items -> flat [parsed] = items) /\
    (forall props, parsed = VObject props ->
       flat [parsed] = [VObject props] /\
       (forall tag, url = api this ("/releases/tags/" ++ tag) ->
          getRelease env net (S fuel) this tag log
          = (Some (Return (VObject props)), log')) /\
       (url = api this "/releases/latest" ->
          getLatestRelease env net (S fuel) this log
          = (Some (Return (VObject props)), log'))).
Proof.
  intros Hnet Hok Hnext Hjson.
  pose proof (fetch_single env net this fuel url log response parsed
                Hnet Hok Hnext Hjson) as Hf.
  eexists. split; [exact Hf|]. split.
  - intros items ->. cbn. apply app_nil_r.
  - intros props ->. split; [reflexivity|]. split.
    + intros tag ->. unfold getRelease, bind. rewrite Hf. reflexivity.
    + intros ->. unfold getLatestRelease, bind. rewrite Hf. reflexivity.
Qed.

(** C9. When [fetch] resolves to the empty array, as it does for a
    body that is the empty array, [getRelease] and [getLatestRelease]
    resolve to [undefined], the first element of the empty array, and
    do not reject; [getReleaseDownloads] and [getLatestReleaseDownloads]
    then reject with the TypeError of reading [assets] off [undefined]. *)
Theorem empty_response_gives_undefined (env : Env) (net : Transport)
    (this : GithubStats) (fuel : nat) (log log' : list event)
    (url : string) :
  fetch env net fuel this url log = (Some (Return []), log') ->
  flat [VArray []] = [] /\
  (forall tag, url = api this ("/releases/tags/" ++ tag) ->
     getRelease env net fuel this tag log = (Some (Return VUndefined), log') /\
     getReleaseDownloads env net fuel this tag log
     = (Some (Throw TypeError), log')) /\
  (url = api this "/releases/latest" ->
     getLatestRelease env net fuel this log = (Some (Return VUndefined), log') /\
     getLatestReleaseDownloads env net fuel this log
     = (Some (Throw TypeError), log')).
Proof.
  intros Hf. split; [reflexivity|]. split.
  - intros tag ->.
    unfold getReleaseDownloads, getRelease, bind. rewrite Hf.
    split; reflexivity.
  - intros ->.
    unfold getLatestReleaseDownloads, getLatestRelease, bind. rewrite Hf.
    split; reflexivity.
Qed.

(* ================================================================= *)
(** ** The token *)

Lemma init_of_env (this : GithubStats) (env env' : Env) :
  self_defined env' = self_defined env ->
  init_of env' this = init_of env this.
Proof.
  intros Hs. unfold init_of, request_headers. rewrite Hs. reflexivity.
Qed.

(** [fetch] reads [self] but not the environment variable. *)
Lemma fetch_env (net : Transport) (this : GithubStats) (env env' : Env) :
  self_defined env' = self_defined env ->
  forall fuel url log,
    fetch env' net fuel this url log = fetch env net fuel this url log.
Proof.
  intros Hs. induction fuel as [|fuel IH]; intros url log; [reflexivity|].
  rewrite !fetch_S. rewrite (init_of_env this env env' Hs).
  destruct (net (calls log) url (init_of env this)) as [response|e];
    cbn zeta; [|reflexivity].
  unfold after_response.
  destruct (Response.ok response); [|reflexivity].
  destruct (next_page response) as [u|]; [|reflexivity].
  rewrite IH. reflexivity.
Qed.

(** C6, as the code has it.  The constructor resolves the token once:
    a token that is given and not empty is the token of the client; a
    token that is left out or empty gives the environment variable
    when [self] is undefined (the empty string if the variable is not
    set) and the empty string otherwise.  Afterwards [fetch] depends on
    the stored token only: the environment variable may change without
    effect. *)
Theorem token_resolution (env : Env) (owner repo : string)
    (tok : option string) :
  let this := new_GithubStats env owner repo tok in
  (forall t, tok = Some t -> t <> "" -> token this = t) /\
  (tok = None \/ tok = Some "" ->
     token this =
       if self_defined env then ""
       else match GITHUB_TOKEN env with Some e => e | None => "" end) /\
  (forall env' net fuel url log,
     self_defined env' = self_defined env ->
     fetch env' net fuel this url log = fetch env net fuel this url log).
Proof.
  cbn zeta. split; [|split].
  - intros t -> Ht. unfold new_GithubStats. cbn [token].
    unfold or_env, or_string, truthy.
    destruct (String.eqb_spec t "") as [E|E]; [contradiction|].
    cbn [negb]. destruct (String.eqb_spec t "") as [E'|E']; [contradiction|].
    destruct (self_defined env); reflexivity.
  - intros Ht. unfold new_GithubStats. cbn [token].
    assert (Hd : match tok with Some t => t | None => "" end = "")
      by (destruct Ht as [-> | ->]; reflexivity).
    rewrite Hd. unfold or_env, or_string, truthy. cbn.
    destruct (self_defined env); cbn [negb]; [reflexivity|].
    destruct (GITHUB_TOKEN env) as [e|]; [|reflexivity].
    destruct (String.eqb_spec e "") as [->|E]; reflexivity.
  - intros env' net fuel url log Hs. apply fetch_env. exact Hs.
Qed.

(** C10. Outside a sandbox ([self] undefined), a client constructed
    with the empty string as its token gets the environment variable as
    its token, or the empty string if the variable is not set; with a
    variable that is not empty its requests carry the Authorization
    header. *)
Theorem empty_token_falls_back (env : Env) (owner repo : string) :
  self_defined env = false ->
  let this := new_GithubStats env owner repo (Some "") in
  token this = match GITHUB_TOKEN env with Some e => e | None => "" end /\
  (forall e, GITHUB_TOKEN env = Some e -> e <> "" ->
     request_headers env this =
       [("User-Agent", "github-release-stats");
        ("Authorization", ("token " ++ e)%string)]).
Proof.
  intros Hs. cbn zeta.
  assert (Ht : token (new_GithubStats env owner repo (Some "")) =
               match GITHUB_TOKEN env with Some e => e | None => "" end).
  { unfold new_GithubStats. cbn [token]. rewrite Hs. cbn [negb].
    unfold or_env, or_string, truthy. cbn.
    destruct (GITHUB_TOKEN env) as [e|]; [|reflexivity].
    destruct (String.eqb_spec e "") as [->|E]; reflexivity. }
  split; [exact Ht|].
  intros e He Hne. rewrite request_headers_eq, Ht, He, Hs.
  destruct (String.eqb_spec e "") as [E|E]; [contradiction|]. reflexivity.
Qed.

(* ================================================================= *)
(** ** The test suite, replayed *)

Lemma FakeApi_asset_typed (count : Z) : is_asset (FakeApi.asset count) count.
Proof. eexists. split; reflexivity. Qed.

Lemma FakeApi_release_typed (tag : string) (counts : list Z) :
  is_release (FakeApi.release tag counts) counts.
Proof.
  eexists. eexists. split; [reflexivity|]. split; [reflexivity|].
  induction counts as [|c counts IH]; constructor.
  - apply FakeApi_asset_typed.
  - exact IH.
Qed.

Lemma FakeApi_releases_typed :
  Forall2 is_release FakeApi.releases FakeApi.counts.
Proof. repeat constructor; apply FakeApi_release_typed. Qed.

(** 'fetches releases with pagination' *)
Example fetches_releases_with_pagination :
  exists log,
    getAllReleases FakeApi.node FakeApi.paginated 3 FakeApi.gh []
    = (Some (Return FakeApi.releases), log) /\
    requested log =
      [ "https://api.github.com/repos/foo/bar/releases?per_page=100";
        "https://api.github.com/repositories/1/releases?page=2";
        "https://api.github.com/repositories/1/releases?page=3" ].
Proof. eexists. split; vm_compute; reflexivity. Qed.

(** 'counts downloads with pagination' *)
Example counts_downloads_with_pagination :
  exists log,
    getTotalDownloads FakeApi.node FakeApi.paginated 3 FakeApi.gh []
    = (Some (Return (VNumber (Int 2212))), log).
Proof. eexists. vm_compute. reflexivity. Qed.

(** 'counts downloads for the tagged release' *)
Example counts_downloads_for_the_tagged_release :
  exists log,
    getReleaseDownloads FakeApi.node
      (FakeApi.single (FakeApi.release "v1.1.0" [110; 210]%Z)) 1
      FakeApi.gh "v1.1.0" []
    = (Some (Return (VNumber (Int 320))), log).
Proof. eexists. vm_compute. reflexivity. Qed.

(** 'fails on network error' *)
Example fails_on_network_error :
  exists log,
    getAllReleases FakeApi.node
      (FakeApi.mockResponses [Throw (Fault "Network error")]) 1 FakeApi.gh []
    = (Some (Throw (Fault "Network error")), log).
Proof. eexists. vm_compute. reflexivity. Qed.

(** The operator [+] on what JSON can hold. *)
Example add_counts :
  js_add (VNumber (Int 120)) (VNumber (Int 220)) = Return (VNumber (Int 340)).
Proof. reflexivity. Qed.

Example add_undefined :
  js_add (VNumber (Int 1)) VUndefined = Return (VNumber NaN).
Proof. reflexivity. Qed.

Example add_string :
  js_add (VNumber (Int 1)) (VString "2") = Return (VString "12").
Proof. reflexivity. Qed.

Example add_array :
  js_add (VNumber (Int 1)) (VArray [VNumber (Int 2); VNull; VObject []])
  = Return (VString "12,,[object Object]").
Proof. reflexivity. Qed.

(** The addition of doubles beyond 2^53: a tie goes to the even
    neighbour, and beyond the largest double the sum is infinite. *)
Example add_rounds_down :
  js_add (VNumber (Int (2 ^ 53))) (VNumber (Int 1))
  = Return (VNumber (Int (2 ^ 53))).
Proof. vm_compute. reflexivity. Qed.

Example add_rounds_up :
  js_add (VNumber (Int (2 ^ 53 + 2))) (VNumber (Int 1))
  = Return (VNumber (Int (2 ^ 53 + 4))).
Proof. vm_compute. reflexivity. Qed.

Example add_overflows :
  js_add (VNumber (Int (2 ^ 1023))) (VNumber (Int (2 ^ 1023)))
  = Return (VNumber (Infinity false)).
Proof. vm_compute. reflexivity. Qed.

Example add_infinities :
  js_add (VNumber (Infinity false)) (VNumber (Infinity true))
  = Return (VNumber NaN).
Proof. reflexivity. Qed.

(** The text of a number: all digits up to 2^53, the shortest digits
    that read back beyond, the exponent form from 10^21 on. *)
Example text_of_count : Number_toString (Int 2212) = "2212".
Proof. vm_compute. reflexivity. Qed.

Example text_of_negative : Number_toString (Int (-5)) = "-5".
Proof. vm_compute. reflexivity. Qed.

Example text_of_2_64 :
  Number_toString (Int (2 ^ 64)) = "18446744073709552000".
Proof. vm_compute. reflexivity. Qed.

Example text_of_10_21 : Number_toString (Int (10 ^ 21)) = "1e+21".
Proof. vm_compute. reflexivity. Qed.

Example text_of_2_70 :
  Number_toString (Int (2 ^ 70)) = "1.1805916207174113e+21".
Proof. vm_compute. reflexivity. Qed.

Example text_of_10_23 :
  double_of_Z (10 ^ 23) = Int 99999999999999991611392 /\
  Number_toString (Int 99999999999999991611392) = "1e+23".
Proof. split; vm_compute; reflexivity. Qed.

Example text_of_largest :
  Number_toString (Int ((2 ^ 53 - 1) * 2 ^ 971)) = "1.7976931348623157e+308".
Proof. vm_compute. reflexivity. Qed.

(** The link headers of the second and of the last test page. *)
Example next_of_page2 :
  next_page FakeApi.page2 = Some (FakeApi.page_url "3").
Proof. vm_compute. reflexivity. Qed.

Example next_of_page3 : next_page FakeApi.page3 = None.
Proof. vm_compute. reflexivity. Qed.

(* ================================================================= *)
(** ** The statements at the fixtures *)

Lemma FakeApi_counts_exact : exact (List.concat FakeApi.counts).
Proof. vm_compute. discriminate. Qed.

Lemma getTotalDownloads_is_sum_witness :
  exists log,
    getTotalDownloads FakeApi.node (FakeApi.single (VArray FakeApi.releases))
      1 FakeApi.gh []
    = (Some (Return (VNumber (Int 2212))), log).
Proof.
  eexists.
  apply (proj1 (getTotalDownloads_is_sum
                  FakeApi.node (FakeApi.single (VArray FakeApi.releases))
                  1 FakeApi.gh [] _ FakeApi.releases FakeApi.counts
                  eq_refl FakeApi_releases_typed FakeApi_counts_exact)).
Defined.

(** C1, as it is stated, fails: the additions are those of doubles, and
    a release whose two assets count 2^53 and 1 downloads totals 2^53,
    not the sum of the integers. *)
Lemma sum_rounds_beyond_2_53 :
  ~ (forall env net fuel this log log' releases counts,
        getAllReleases env net fuel this log
        = (Some (Return releases), log') ->
        Forall2 is_release releases counts ->
        getTotalDownloads env net fuel this log
        = (Some (Return (VNumber (Int (sum (List.concat counts))))), log')).
Proof.
  intros H.
  assert (Hall : exists log',
            getAllReleases FakeApi.node
              (FakeApi.single
                 (VArray [FakeApi.release "v1.0.0" [2 ^ 53; 1]%Z]))
              1 FakeApi.gh []
            = (Some (Return [FakeApi.release "v1.0.0" [2 ^ 53; 1]%Z]), log')).
  { eexists. vm_compute. reflexivity. }
  destruct Hall as [log' Hall].
  specialize (H _ _ _ _ _ _ _ [[2 ^ 53; 1]%Z] Hall).
  assert (Htyped : Forall2 is_release
                     [FakeApi.release "v1.0.0" [2 ^ 53; 1]%Z]
                     [[2 ^ 53; 1]%Z]).
  { repeat constructor. apply FakeApi_release_typed. }
  specialize (H Htyped). vm_compute in H. discriminate H.
Qed.

Lemma FakeApi_chain :
  chain FakeApi.node FakeApi.paginated FakeApi.gh (calls [])
        FakeApi.all_url FakeApi.pages.
Proof. vm_compute. repeat split; reflexivity. Qed.

Lemma fetch_concatenates_pages_witness :
  exists records log,
    fetch FakeApi.node FakeApi.paginated 3 FakeApi.gh FakeApi.all_url []
    = (Some (Return records), log) /\
    records = FakeApi.releases /\
    List.length records = 3 + 3 + 1.
Proof.
  destruct (fetch_concatenates_pages
              FakeApi.node FakeApi.paginated FakeApi.gh 3 FakeApi.all_url []
              FakeApi.pages FakeApi_chain (le_n 3))
    as (records & log & Hf & Hr & _ & Hl).
  exists records, log. split; [exact Hf|]. split.
  - rewrite Hr. reflexivity.
  - rewrite Hl. reflexivity.
Defined.

Lemma fetch_one_request_per_page_witness :
  exists records trace,
    fetch FakeApi.node FakeApi.paginated 3 FakeApi.gh FakeApi.all_url []
    = (Some (Return records), trace) /\
    requested trace =
      [ FakeApi.all_url; FakeApi.page_url "2"; FakeApi.page_url "3" ].
Proof.
  destruct (fetch_one_request_per_page
              FakeApi.node FakeApi.paginated FakeApi.gh 3 FakeApi.all_url []
              FakeApi.pages FakeApi_chain (le_n 3))
    as (res & trace & Hf & _ & Hr & _).
  exists res, trace. split; [exact Hf | exact Hr].
Defined.

(** C3, as it is stated, fails: on the three pages of the test suite
    the second request is issued while the body of the first answer has
    not been read. *)
Lemma requests_do_not_wait_for_bodies :
  ~ (forall env net this fuel url pages res trace,
        chain env net this [] url pages ->
        fetch env net fuel this url [] = (res, trace) ->
        bodies_read_first None trace = true).
Proof.
  intros H.
  pose proof (fetch_chain FakeApi.node FakeApi.paginated FakeApi.gh
                FakeApi.pages 3 FakeApi.all_url [] FakeApi_chain (le_n 3))
    as Hrun.
  specialize (H _ _ _ _ _ _ _ _ FakeApi_chain Hrun).
  vm_compute in H. discriminate H.
Qed.

Lemma fetch_throws_GithubError_witness :
  exists log,
    getRelease FakeApi.node FakeApi.not_found 1 FakeApi.gh "v9.9.9" []
    = (Some (Throw (EGithub {| message := "Not Found";
                              name := "GithubError" |})), log).
Proof.
  destruct (fetch_throws_GithubError
              FakeApi.node FakeApi.not_found FakeApi.gh 0
              (api FakeApi.gh "/releases/tags/v9.9.9") []
              _ [("message", VString "Not Found")] "Not Found"
              eq_refl eq_refl eq_refl eq_refl)
    as (e & log & _ & Hm & Hn & Hr & _).
  exists log. rewrite (Hr "v9.9.9" eq_refl).
  destruct e as [m n]. cbn in Hm, Hn. rewrite Hm, Hn. reflexivity.
Defined.

Lemma faults_propagate_witness :
  exists log,
    fetch FakeApi.node FakeApi.broken 3 FakeApi.gh FakeApi.all_url []
    = (Some (Throw (Fault "Network error")), log) /\
    faults_surface [] (Some (@Throw (list value) (Fault "Network error"))) log.
Proof.
  eexists. split.
  - vm_compute. reflexivity.
  - apply (proj1 (faults_propagate FakeApi.node FakeApi.broken FakeApi.gh 3 [])
             FakeApi.all_url).
    vm_compute. reflexivity.
Defined.

(** C6, as it is stated, fails: outside a sandbox an empty token given
    to the constructor does not take precedence over the environment
    variable. *)
Lemma explicit_empty_token_loses :
  ~ (forall env owner repo t,
        token (new_GithubStats env owner repo (Some t)) = t).
Proof.
  intros H.
  specialize (H FakeApi.node_with_token "foo" "bar" "").
  vm_compute in H. discriminate H.
Qed.

Lemma token_resolution_witness :
  token (new_GithubStats FakeApi.node_with_token "foo" "bar" (Some "mine"))
  = "mine" /\
  token (new_GithubStats FakeApi.node_with_token "foo" "bar" None)
  = "secret" /\
  token (new_GithubStats FakeApi.browser "foo" "bar" None) = "".
Proof.
  split; [|split].
  - apply (proj1 (token_resolution FakeApi.node_with_token "foo" "bar"
                    (Some "mine")) "mine" eq_refl).
    discriminate.
  - apply (proj1 (proj2 (token_resolution FakeApi.node_with_token
                           "foo" "bar" None))).
    left. reflexivity.
  - apply (proj1 (proj2 (token_resolution FakeApi.browser "foo" "bar" None))).
    left. reflexivity.
Defined.

Lemma fetch_requests_witness :
  exists res init r more,
    fetch FakeApi.node (FakeApi.single (VArray [])) 1
      (new_GithubStats FakeApi.node "foo" "bar" (Some "secret"))
      FakeApi.all_url []
    = (res, [] ++ Fetch FakeApi.all_url init r :: more) /\
    method init = "GET" /\
    body init = None /\
    headers init = [("User-Agent", "github-release-stats");
                    ("Authorization", "token secret")].
Proof.
  destruct (fetch_requests
              FakeApi.node (FakeApi.single (VArray []))
              (new_GithubStats FakeApi.node "foo" "bar" (Some "secret"))
              1 FakeApi.all_url [] _ _ eq_refl)
    as (trace & Ht & Hfirst & Hall).
  destruct (Hfirst (le_n 1)) as (init & r & more & ->).
  destruct (Hall _ init r (or_introl eq_refl)) as (Hm & Hb & Hh & _).
  eexists. exists init, r, more.
  split; [rewrite <- Ht; reflexivity|].
  split; [exact Hm|]. split; [exact Hb | exact Hh].
Defined.

Lemma fetch_normalises_body_witness :
  exists log,
    getLatestRelease FakeApi.node
      (FakeApi.single (FakeApi.release "v1.0.0" [100; 200]%Z)) 1
      FakeApi.gh []
    = (Some (Return (FakeApi.release "v1.0.0" [100; 200]%Z)), log).
Proof.
  destruct (fetch_normalises_body
              FakeApi.node
              (FakeApi.single (FakeApi.release "v1.0.0" [100; 200]%Z))
              FakeApi.gh 0 (api FakeApi.gh "/releases/latest") []
              _ _ eq_refl eq_refl eq_refl eq_refl)
    as (log & _ & _ & Hobj).
  exists log.
  destruct (Hobj _ eq_refl) as (_ & _ & Hlatest).
  exact (Hlatest eq_refl).
Defined.

Lemma empty_response_gives_undefined_witness :
  exists log,
    getRelease FakeApi.node (FakeApi.single (VArray [])) 1 FakeApi.gh "v1" []
    = (Some (Return VUndefined), log) /\
    getReleaseDownloads FakeApi.node (FakeApi.single (VArray [])) 1
      FakeApi.gh "v1" []
    = (Some (Throw TypeError), log).
Proof.
  eexists.
  apply (proj1 (proj2 (empty_response_gives_undefined
                         FakeApi.node (FakeApi.single (VArray [])) FakeApi.gh
                         1 [] _ (api FakeApi.gh "/releases/tags/v1")
                         eq_refl)) "v1" eq_refl).
Defined.

Lemma empty_token_falls_back_witness :
  token (new_GithubStats FakeApi.node_with_token "foo" "bar" (Some ""))
  = "secret".
Proof.
  apply (proj1 (empty_token_falls_back FakeApi.node_with_token "foo" "bar"
                  eq_refl)).
Defined.

(* ================================================================= *)
(** ** Further properties of the download counters *)

Lemma reduce_items_app (f : value -> value -> completion value)
    (xs ys : list value) :
  forall acc,
    reduce_items f (xs ++ ys) acc =
    (a <~ reduce_items f xs acc ;; reduce_items f ys a).
Proof.
  induction xs as [|x xs IH]; intros acc; cbn [app reduce_items cbind].
  - reflexivity.
  - destruct (f acc x) as [a|e]; cbn [cbind]; [apply IH | reflexivity].
Qed.

(** X1. [getReleaseDownloads] and [getLatestReleaseDownloads] count the
    first record of what [fetch] resolves to, and nothing else: when
    that record is a release whose counts add up without rounding, they
    resolve to the sum of the download counts of its assets, whatever
    records follow it. *)
Theorem first_record_downloads (env : Env) (net : Transport)
    (this : GithubStats) (fuel : nat) (url : string) (log log' : list event)
    (release : value) (more : list value) (counts : list Z) :
  fetch env net fuel this url log = (Some (Return (release :: more)), log') ->
  is_release release counts ->
  exact counts ->
  (forall tag, url = api this ("/releases/tags/" ++ tag) ->
     getReleaseDownloads env net fuel this tag log
     = (Some (Return (VNumber (Int (sum counts)))), log')) /\
  (url = api this "/releases/latest" ->
     getLatestReleaseDownloads env net fuel this log
     = (Some (Return (VNumber (Int (sum counts)))), log')).
Proof.
  intros Hf Hr He. split.
  - intros tag ->. unfold getReleaseDownloads, getRelease, bind.
    rewrite Hf. cbn [ret first]. unfold lift.
    rewrite (release_downloads_sum _ _ Hr He). reflexivity.
  - intros ->. unfold getLatestReleaseDownloads, getLatestRelease, bind.
    rewrite Hf. cbn [ret first]. unfold lift.
    rewrite (release_downloads_sum _ _ Hr He). reflexivity.
Qed.

(** X2. Over a chain of pages whose records are releases with counts
    that add up without rounding, [getTotalDownloads] resolves to the
    sum of the download counts of all assets of all releases of all
    pages, after one call per page. *)
Theorem total_downloads_over_pages (env : Env) (net : Transport)
    (this : GithubStats) (fuel : nat) (log : list event)
    (pages : list (string * Response.t)) (counts : list (list Z)) :
  chain env net this (calls log) (api this "/releases?per_page=100") pages ->
  List.length pages <= fuel ->
  Forall2 is_release (List.concat (map page_records (map snd pages))) counts ->
  exact (List.concat counts) ->
  exists trace,
    getTotalDownloads env net fuel this log
    = (Some (Return (VNumber (Int (sum (List.concat counts))))), log ++ trace) /\
    requested trace = map fst pages.
Proof.
  intros Hc Hf Hr He.
  pose proof (fetch_chain env net this pages fuel _ log Hc Hf) as Hrun.
  eexists. split.
  - unfold getTotalDownloads, getAllReleases, bind. rewrite Hrun.
    cbn [ret]. unfold lift. rewrite (reduce_releases _ _ Hr 0) by exact He.
    reflexivity.
  - rewrite requested_app, requested_fetch_events, requested_json_events.
    apply app_nil_r.
Qed.

Lemma release_downloads_not_array (release : value) :
  (forall items, get release "assets" <> Return (VArray items)) ->
  release_downloads release = Throw TypeError.
Proof.
  intros H. unfold release_downloads.
  destruct (get release "assets") as [assets|e] eqn:E.
  - cbn [cbind]. destruct assets; try reflexivity.
    exfalso. apply (H items). reflexivity.
  - cbn [cbind]. destruct release; cbn in E; try discriminate;
      injection E as <-; reflexivity.
Qed.

(** X3. A record without an array under [assets] (the key is missing,
    or the record is [null], or the value is no array) makes the
    counters reject with a TypeError; in [getTotalDownloads] the sum of
    the releases before it is lost, no partial total is returned. *)
Theorem release_without_assets_rejects (env : Env) (net : Transport)
    (this : GithubStats) (fuel : nat) (log log' : list event)
    (good : list value) (bad : value) (rest : list value)
    (counts : list (list Z)) :
  getAllReleases env net fuel this log
  = (Some (Return (good ++ bad :: rest)), log') ->
  Forall2 is_release good counts ->
  (forall items, get bad "assets" <> Return (VArray items)) ->
  release_downloads bad = Throw TypeError /\
  getTotalDownloads env net fuel this log = (Some (Throw TypeError), log').
Proof.
  intros Hall Hgood Hbad.
  pose proof (release_downloads_not_array bad Hbad) as Hd.
  split; [exact Hd|].
  unfold getTotalDownloads, bind. rewrite Hall. unfold lift.
  rewrite reduce_items_app.
  destruct (reduce_releases_number _ _ Hgood (Int 0)) as [n ->].
  cbn [cbind reduce_items]. unfold add_release at 1. rewrite Hd.
  reflexivity.
Qed.

Lemma number_add_NaN_r (n : number) : number_add n NaN = NaN.
Proof. destruct n; reflexivity. Qed.

Lemma add_asset_NaN (asset : value) :
  (exists count, is_asset asset count) \/ counterless asset ->
  add_asset (VNumber NaN) asset = Return (VNumber NaN).
Proof.
  intros [[count (props & -> & Hc)] | (props & -> & Hc)];
    unfold add_asset, get; rewrite Hc; reflexivity.
Qed.

Lemma reduce_assets_NaN (assets : list value) (counts : list Z) :
  Forall2 is_asset assets counts ->
  reduce_items add_asset assets (VNumber NaN) = Return (VNumber NaN).
Proof.
  induction 1 as [|asset count assets counts Ha _ IH]; [reflexivity|].
  cbn [reduce_items]. rewrite add_asset_NaN by (left; eauto). exact IH.
Qed.

Lemma reduce_releases_NaN (releases : list value) (counts : list (list Z)) :
  Forall2 is_release releases counts ->
  reduce_items add_release releases (VNumber NaN) = Return (VNumber NaN).
Proof.
  induction 1 as [|release cs releases counts Hr _ IH]; [reflexivity|].
  cbn [reduce_items]. rewrite (add_release_number _ _ _ Hr). cbn [cbind].
  exact IH.
Qed.

(** X4. An asset without [download_count] does not make the counters
    reject: the sum becomes NaN and stays NaN, so [getTotalDownloads]
    resolves to NaN although every other asset and release is in
    order. *)
Theorem asset_without_count_gives_NaN (env : Env) (net : Transport)
    (this : GithubStats) (fuel : nat) (log log' : list event)
    (before : list value) (release : value) (after : list value)
    (counts1 counts2 : list (list Z))
    (props : list (string * value))
    (assets1 : list value) (asset : value) (assets2 : list value)
    (c1 c2 : list Z) :
  getAllReleases env net fuel this log
  = (Some (Return (before ++ release :: after)), log') ->
  Forall2 is_release before counts1 ->
  Forall2 is_release after counts2 ->
  release = VObject props ->
  own "assets" props = Some (VArray (assets1 ++ asset :: assets2)) ->
  Forall2 is_asset assets1 c1 ->
  counterless asset ->
  Forall2 is_asset assets2 c2 ->
  release_downloads release = Return (VNumber NaN) /\
  getTotalDownloads env net fuel this log
  = (Some (Return (VNumber NaN)), log').
Proof.
  intros Hall Hb Ha -> Hassets H1 Hasset H2.
  assert (Hd : release_downloads (VObject props) = Return (VNumber NaN)).
  { unfold release_downloads, get. rewrite Hassets. cbn [cbind reduce].
    rewrite reduce_items_app, (reduce_assets_number _ _ H1).
    cbn [cbind reduce_items].
    destruct Hasset as (p & -> & Hc). unfold add_asset at 1, get.
    rewrite Hc. cbn [cbind].
    change (js_add (VNumber (add_all (Int 0) c1)) VUndefined)
      with (Return (VNumber (number_add (add_all (Int 0) c1) NaN))).
    rewrite number_add_NaN_r.
    cbn [cbind]. apply (reduce_assets_NaN _ _ H2). }
  split; [exact Hd|].
  unfold getTotalDownloads, bind. rewrite Hall. unfold lift.
  rewrite reduce_items_app.
  destruct (reduce_releases_number _ _ Hb (Int 0)) as [n ->].
  cbn [cbind reduce_items]. unfold add_release at 1. rewrite Hd.
  cbn [cbind]. rewrite js_add_numbers, number_add_NaN_r.
  cbn [cbind]. rewrite (reduce_releases_NaN _ _ Ha). reflexivity.
Qed.

(* ================================================================= *)
(** ** Further properties of [fetch] *)

(** X5. An answer that is not a success ends [fetch] there: one call,
    one reading of the body, always a rejection, and no next page is
    fetched whatever the link header says.  A body without [message]
    gives a [GithubError] with the empty message, the body [null] a
    TypeError, and a body that does not parse its own error. *)
Theorem not_ok_ends_fetch (env : Env) (net : Transport) (this : GithubStats)
    (fuel : nat) (url : string) (log : list event) (response : Response.t) :
  net (calls log) url (init_of env this) = Return response ->
  Response.ok response = false ->
  exists e,
    fetch env net (S fuel) this url log
    = (Some (Throw e),
       log ++ [Fetch url (init_of env this) (Return response);
               Json url (Response.json response)]) /\
    (forall props,
       Response.json response = Return (VObject props) ->
       own "message" props = None ->
       e = EGithub {| message := ""; name := "GithubError" |}) /\
    (Response.json response = Return VNull -> e = TypeError) /\
    (forall e', Response.json response = Throw e' -> e = e').
Proof.
  intros Hnet Hok. rewrite fetch_S, Hnet. cbn zeta.
  unfold after_response. rewrite Hok. rewrite <- app_assoc. cbn [app].
  destruct (Response.json response) as [parsed|e0] eqn:Ej.
  - destruct (cbind (get parsed "message") _) as [g|e1] eqn:Eg.
    + exists (EGithub g). split; [reflexivity|]. repeat split.
      * intros props [= ->] Hm. unfold get in Eg. rewrite Hm in Eg.
        cbn in Eg. congruence.
      * intros [= ->]. discriminate Eg.
      * intros e' [=].
    + exists e1. split; [reflexivity|]. repeat split.
      * intros props [= ->] Hm. unfold get in Eg. rewrite Hm in Eg.
        discriminate Eg.
      * intros [= ->]. cbn in Eg. congruence.
      * intros e' [=].
  - exists e0. split; [reflexivity|]. repeat split.
    + intros props [=].
    + intros [=].
    + intros e' [= ->]. reflexivity.
Qed.

(** X6. [fetch] has no page limit and does not notice a cycle: against
    a transport that keeps answering with a success that names a next
    page, it never settles and never reads a body, and the number of
    its calls grows with every step it is given. *)
Theorem endless_chain_never_settles (env : Env) (net : Transport)
    (this : GithubStats) (url : string) (response : Response.t) :
  (forall history, net history url (init_of env this) = Return response) ->
  Response.ok response = true ->
  next_page response = Some url ->
  forall fuel log,
    fetch env net fuel this url log
    = (None, log ++ repeat (Fetch url (init_of env this) (Return response)) fuel).
Proof.
  intros Hnet Hok Hnext. induction fuel as [|fuel IH]; intros log.
  - cbn. rewrite app_nil_r. reflexivity.
  - rewrite fetch_S, Hnet. cbn zeta. unfold after_response.
    rewrite Hok, Hnext, IH. rewrite <- app_assoc. reflexivity.
Qed.

(** X7. [fetch] calls no URL of its own making: the first call goes to
    the URL it was given, and every later call to the URL that the
    successful answer before it names as the next page. *)
Theorem fetch_follows_links (env : Env) (net : Transport)
    (this : GithubStats) (fuel : nat) (url : string) (log log' : list event)
    (res : option (completion (list value))) :
  fetch env net fuel this url log = (res, log') ->
  exists trace,
    log' = log ++ trace /\
    follows (Some url) trace /\
    (0 < fuel -> exists r more,
        trace = Fetch url (init_of env this) r :: more).
Proof. apply fetch_links. Qed.


(* ================================================================= *)
(** ** The pattern of the link header *)

Lemma list_ascii_app (a b : string) :
  list_ascii_of_string (a ++ b) =
  list_ascii_of_string a ++ list_ascii_of_string b.
Proof.
  induction a as [|c a IH]; cbn; [reflexivity | rewrite IH; reflexivity].
Qed.

Lemma string_of_list_app (a b : list ascii) :
  string_of_list_ascii (a ++ b) =
  (string_of_list_ascii a ++ string_of_list_ascii b)%string.
Proof.
  induction a as [|c a IH]; cbn; [reflexivity | rewrite IH; reflexivity].
Qed.

Lemma prefixb_split (l s : list ascii) :
  prefixb l s = true -> s = l ++ skipn (List.length l) s.
Proof.
  revert s. induction l as [|c l IH]; intros s H; [reflexivity|].
  destruct s as [|x s]; [discriminate|]. cbn in H.
  apply andb_prop in H. destruct H as [Hx Hl].
  apply Ascii.eqb_eq in Hx. subst x. cbn. f_equal. apply IH. exact Hl.
Qed.

Lemma prefixb_app (l s : list ascii) : prefixb l (l ++ s) = true.
Proof.
  induction l as [|c l IH]; [reflexivity|].
  cbn. rewrite Ascii.eqb_refl. exact IH.
Qed.

Lemma occurs_app (l a b : list ascii) : occurs l (a ++ l ++ b) = true.
Proof.
  induction a as [|x a IH].
  - cbn [app]. destruct (l ++ b) eqn:E; cbn [occurs];
      rewrite <- E, prefixb_app; reflexivity.
  - cbn [app occurs]. rewrite IH. apply orb_true_r.
Qed.

Lemma occurs_suffix (l a b : list ascii) :
  occurs l (a ++ b) = false -> prefixb l b = false.
Proof.
  induction a as [|x a IH]; cbn [app]; intros H.
  - destruct b; cbn [occurs] in H; apply orb_false_elim in H; apply H.
  - cbn [occurs] in H. apply orb_false_elim in H. apply IH. apply H.
Qed.

(** A literal matches exactly when it is a prefix of what is left. *)
Lemma run_Lit_eq (l : string) :
  forall st k,
    run (Lit l) st k =
    if prefixb (list_ascii_of_string l) (rest st)
    then k {| pos := pos st + String.length l;
              rest := skipn (String.length l) (rest st);
              caps := caps st |}
    else None.
Proof.
  induction l as [|c l IH]; intros st k; cbn [Lit run].
  - cbn. rewrite Nat.add_0_r. destruct st; reflexivity.
  - cbn [list_ascii_of_string String.length].
    destruct (rest st) as [|x xs] eqn:Er; [reflexivity|].
    cbn [prefixb skipn]. destruct (Ascii.eqb x c); [|reflexivity].
    cbn [andb]. rewrite IH. cbn [advance pos rest caps].
    rewrite Nat.add_succ_r. reflexivity.
Qed.

Lemma iterate_Dot_greedy (k : mstate -> option mstate) :
  forall n st,
    List.length (rest st) < n ->
    iterate (run Dot) k n st = greedy k (pos st) (caps st) (rest st).
Proof.
  induction n as [|n IH]; intros st Hn; [lia|].
  cbn [iterate run]. destruct st as [p s cs]. cbn [pos rest caps] in *.
  destruct s as [|x xs]; [reflexivity|]. cbn [greedy].
  destruct (line_terminator x); [reflexivity|].
  cbn [advance pos rest caps].
  replace (p <? S p)%nat with true by (symmetry; apply Nat.ltb_lt; lia).
  rewrite IH by (cbn in *; lia). reflexivity.
Qed.

Lemma run_Star_Dot (st : mstate) (k : mstate -> option mstate) :
  run (Star Dot) st k = greedy k (pos st) (caps st) (rest st).
Proof. cbn [run]. apply iterate_Dot_greedy. lia. Qed.

Lemma greedy_sound (k : mstate -> option mstate)
    (cs : list (nat * list ascii)) (s : list ascii) :
  forall p m,
    greedy k p cs s = Some m ->
    exists a b,
      s = a ++ b /\ plain a = true /\
      k {| pos := p + List.length a; rest := b; caps := cs |} = Some m.
Proof.
  induction s as [|x xs IH]; intros p m H; cbn [greedy] in H.
  - exists [], []. cbn. rewrite Nat.add_0_r. auto.
  - destruct (line_terminator x) eqn:Ex.
    + exists [], (x :: xs). cbn. rewrite Nat.add_0_r. auto.
    + destruct (greedy k (S p) cs xs) as [m'|] eqn:Eg.
      * injection H as <-. destruct (IH _ _ Eg) as (a & b & -> & Ha & Hk).
        exists (x :: a), b. cbn. rewrite Ex. cbn.
        rewrite Nat.add_succ_r. auto.
      * exists [], (x :: xs). cbn. rewrite Nat.add_0_r. auto.
Qed.

Lemma greedy_none (k : mstate -> option mstate)
    (cs : list (nat * list ascii)) (s : list ascii) :
  forall p,
    (forall a b, s = a ++ b ->
       k {| pos := p + List.length a; rest := b; caps := cs |} = None) ->
    greedy k p cs s = None.
Proof.
  induction s as [|x xs IH]; intros p H; cbn [greedy].
  - specialize (H [] [] eq_refl). cbn in H. rewrite Nat.add_0_r in H. exact H.
  - assert (H0 : k {| pos := p; rest := x :: xs; caps := cs |} = None).
    { specialize (H [] (x :: xs) eq_refl). cbn in H.
      rewrite Nat.add_0_r in H. exact H. }
    destruct (line_terminator x); [exact H0|].
    rewrite IH; [exact H0|].
    intros a b ->. specialize (H (x :: a) b eq_refl). cbn in H.
    rewrite Nat.add_succ_r in H. exact H.
Qed.

Lemma greedy_skip (k : mstate -> option mstate)
    (cs : list (nat * list ascii)) (a t : list ascii) :
  forall p m,
    plain a = true ->
    greedy k (p + List.length a) cs t = Some m ->
    greedy k p cs (a ++ t) = Some m.
Proof.
  induction a as [|x a IH]; intros p m Ha H.
  - cbn in H. rewrite Nat.add_0_r in H. exact H.
  - cbn in Ha. apply andb_prop in Ha. destruct Ha as [Hx Ha].
    cbn [app greedy]. apply negb_true_iff in Hx. rewrite Hx.
    rewrite (IH (S p) m Ha); [reflexivity|].
    cbn in H. rewrite Nat.add_succ_r in H. exact H.
Qed.

Lemma greedy_here (k : mstate -> option mstate)
    (cs : list (nat * list ascii)) (t : list ascii) (p : nat) (m : mstate) :
  k {| pos := p; rest := t; caps := cs |} = Some m ->
  (forall a b, a <> [] -> t = a ++ b ->
     k {| pos := p + List.length a; rest := b; caps := cs |} = None) ->
  greedy k p cs t = Some m.
Proof.
  intros Hk Hlater. destruct t as [|x xs]; cbn [greedy]; [exact Hk|].
  destruct (line_terminator x); [exact Hk|].
  rewrite greedy_none; [exact Hk|].
  intros a b ->. specialize (Hlater (x :: a) b).
  cbn in Hlater. rewrite Nat.add_succ_r in Hlater.
  apply Hlater; [discriminate | reflexivity].
Qed.

Lemma exec_from_Bol_later (r : regex) (s : list ascii) :
  forall i, exec_from (Cat Bol r) (S i) s = None.
Proof.
  induction s as [|x s IH]; intros i; cbn [exec_from run pos Nat.eqb].
  - reflexivity.
  - apply IH.
Qed.

Lemma exec_from_Bol (r : regex) (s : list ascii) :
  exec_from (Cat Bol r) 0 s
  = run r {| pos := 0; rest := s; caps := [] |} Some.
Proof.
  destruct s as [|x s]; cbn [exec_from run pos Nat.eqb];
    destruct (run r _ Some); try reflexivity.
  apply exec_from_Bol_later.
Qed.

Lemma list_ascii_length (s : string) :
  List.length (list_ascii_of_string s) = String.length s.
Proof. induction s as [|c s IH]; cbn; [reflexivity | rewrite IH; reflexivity]. Qed.

Lemma run_Cat (r1 r2 : regex) (st : mstate) (k : mstate -> option mstate) :
  run (Cat r1 r2) st k = run r1 st (fun st1 => run r2 st1 k).
Proof. reflexivity. Qed.

Lemma run_Chr (c : ascii) (st : mstate) (k : mstate -> option mstate) :
  run (Chr c) st k =
  match rest st with
  | x :: xs => if Ascii.eqb x c then k (advance st xs) else None
  | [] => None
  end.
Proof. reflexivity. Qed.

Lemma run_Group (i : nat) (r : regex) (st : mstate)
    (k : mstate -> option mstate) :
  run (Group i r) st k =
  run r st (fun st1 =>
    k {| pos := pos st1; rest := rest st1;
         caps := (i, firstn (pos st1 - pos st) (rest st)) :: caps st1 |}).
Proof. reflexivity. Qed.

(** What the pattern captures is what stands between a [<] and the
    mark. *)
Lemma next_link_sound (s : list ascii) (m : mstate) :
  exec_from next_link 0 s = Some m ->
  exists pre u post,
    s = pre ++ "<"%char :: u ++ list_ascii_of_string next_mark ++ post /\
    plain pre = true /\ plain u = true /\
    group 1 (caps m) = Some (string_of_list_ascii u).
Proof.
  unfold next_link. rewrite exec_from_Bol, run_Cat, run_Star_Dot.
  cbn [pos rest caps]. intros H.
  apply greedy_sound in H. destruct H as (pre & b & -> & Hpre & H).
  cbn beta in H. rewrite run_Cat, run_Chr in H.
  cbn [rest] in H. destruct b as [|x xs]; [discriminate|].
  destruct (Ascii.eqb_spec x "<"%char) as [->|]; [|discriminate].
  rewrite run_Cat, run_Group, run_Star_Dot in H.
  cbn [advance pos rest caps] in H.
  apply greedy_sound in H. destruct H as (u & b & -> & Hu & H).
  cbn beta in H. cbn [pos rest caps] in H.
  change (Lit _) with (Lit next_mark) in H.
  rewrite run_Lit_eq in H. cbn [rest] in H.
  destruct (prefixb (list_ascii_of_string next_mark) b) eqn:Eb;
    [|discriminate].
  injection H as <-. cbn [caps group Nat.eqb].
  exists pre, u, (skipn (String.length next_mark) b).
  split; [|split; [exact Hpre|split; [exact Hu|]]].
  - f_equal. f_equal. f_equal.
    rewrite (prefixb_split _ _ Eb) at 1.
    rewrite list_ascii_length. reflexivity.
  - f_equal. f_equal.
    match goal with
    | |- firstn ?n _ = _ => replace n with (List.length u) by lia
    end.
    rewrite firstn_app, Nat.sub_diag, firstn_all. cbn. apply app_nil_r.
Qed.

Lemma mark_not_later (c : ascii) (post l0 : list ascii) :
  forall l a b,
    lacks c l = true ->
    l ++ post = a ++ b ->
    prefixb (c :: l0) b = false \/ exists a0, post = a0 ++ b.
Proof.
  induction l as [|y l IH]; intros a b Hl E.
  - right. exists a. exact E.
  - cbn in Hl. apply andb_prop in Hl. destruct Hl as [Hy Hl].
    destruct a as [|z a].
    + left. cbn in E. subst b. cbn [prefixb].
      apply negb_true_iff in Hy. rewrite Hy. reflexivity.
    + cbn in E. injection E as _ E. exact (IH a b Hl E).
Qed.

Lemma mark_later_fails (c : ascii) (l post a b : list ascii) :
  lacks c l = true ->
  occurs (c :: l) post = false ->
  a <> [] ->
  (c :: l) ++ post = a ++ b ->
  prefixb (c :: l) b = false.
Proof.
  intros Hl Ho Ha E. destruct a as [|z a]; [contradiction|].
  cbn in E. injection E as _ E.
  destruct (mark_not_later c post l l a b Hl E) as [H | [a0 ->]].
  - exact H.
  - apply (occurs_suffix _ a0). exact Ho.
Qed.

Lemma bracket_in_post (c : ascii) (post xs : list ascii) :
  forall w a,
    lacks c w = true ->
    w ++ post = a ++ c :: xs ->
    exists a0, post = a0 ++ c :: xs.
Proof.
  induction w as [|y w IH]; intros a Hw E.
  - exists a. exact E.
  - cbn in Hw. apply andb_prop in Hw. destruct Hw as [Hy Hw].
    destruct a as [|z a].
    + cbn in E. injection E as -> _.
      rewrite Ascii.eqb_refl in Hy. discriminate.
    + cbn in E. injection E as _ E. exact (IH a Hw E).
Qed.

Lemma lacks_app (c : ascii) (a b : list ascii) :
  lacks c (a ++ b) = lacks c a && lacks c b.
Proof. unfold lacks. apply forallb_app. Qed.

Lemma bracket_pattern_complete (mk : string) (c : ascii)
    (l pre u post : list ascii) :
  list_ascii_of_string mk = c :: l ->
  lacks c l = true ->
  lacks "<"%char (c :: l) = true ->
  plain pre = true ->
  plain u = true ->
  lacks "<"%char u = true ->
  occurs (c :: l) post = false ->
  exists m,
    exec_from (Cat Bol
                (Cat (Star Dot)
                  (Cat (Chr "<") (Cat (Group 1 (Star Dot)) (Lit mk))))) 0
      (pre ++ "<"%char :: u ++ (c :: l) ++ post)
    = Some m /\
    group 1 (caps m) = Some (string_of_list_ascii u).
Proof.
  intros Hmk Hc Hltm Hpre Hu Hlt Hpost.
  assert (Hlater : forall a b, a <> [] -> (c :: l) ++ post = a ++ b ->
                     prefixb (c :: l) b = false)
    by (intros a b Ha E; eapply mark_later_fails; eauto).
  clear Hc. revert Hmk Hltm Hpost Hlater. generalize (c :: l).
  intros mark Hmk Hltm Hpost Hlater.
  eexists. split.
  - rewrite exec_from_Bol, run_Cat, run_Star_Dot.
    cbn [pos rest caps]. apply greedy_skip; [exact Hpre|].
    apply greedy_here.
    + rewrite run_Cat, run_Chr. cbn [rest]. rewrite Ascii.eqb_refl.
      rewrite run_Cat, run_Group, run_Star_Dot.
      cbn [advance pos rest caps]. apply greedy_skip; [exact Hu|].
      apply greedy_here.
      * cbn [pos rest caps]. rewrite run_Lit_eq. cbn [rest].
        rewrite Hmk, prefixb_app. reflexivity.
      * intros a b Ha E. cbn [pos rest caps].
        rewrite run_Lit_eq. cbn [rest]. rewrite Hmk.
        rewrite (Hlater a b Ha E). reflexivity.
    + intros a b Ha E. rewrite run_Cat, run_Chr. cbn [rest].
      destruct a as [|z a]; [contradiction|].
      rewrite <- app_comm_cons in E. injection E as _ E.
      destruct b as [|x xs]; [reflexivity|].
      destruct (Ascii.eqb_spec x "<"%char) as [->|]; [|reflexivity].
      rewrite run_Cat, run_Group, run_Star_Dot.
      cbn [advance pos rest caps]. apply greedy_none.
      intros a2 b2 ->. cbn [pos rest caps].
      rewrite run_Lit_eq. cbn [rest]. rewrite Hmk.
      replace (prefixb mark b2) with false; [reflexivity|].
      symmetry. rewrite app_assoc in E.
      destruct (bracket_in_post "<"%char post (a2 ++ b2) (u ++ mark) a)
        as [a0 Ha0]; [|exact E|].
      * rewrite lacks_app, Hlt, Hltm. reflexivity.
      * apply (occurs_suffix mark (a0 ++ "<"%char :: a2)).
        rewrite <- app_assoc. cbn [app]. rewrite <- Ha0. exact Hpost.
  - cbn [caps group Nat.eqb]. f_equal. f_equal.
    match goal with
    | |- firstn ?n _ = _ => replace n with (List.length u) by lia
    end.
    rewrite firstn_app, Nat.sub_diag, firstn_all. cbn. apply app_nil_r.
Qed.

(** In a header where the URL in brackets stands right before the mark,
    and the mark does not come again, the pattern captures the URL. *)
Lemma next_link_complete (pre u post : list ascii) :
  plain pre = true ->
  plain u = true ->
  lacks "<"%char u = true ->
  occurs (list_ascii_of_string next_mark) post = false ->
  exists m,
    exec_from next_link 0
      (pre ++ "<"%char :: u ++ list_ascii_of_string next_mark ++ post)
    = Some m /\
    group 1 (caps m) = Some (string_of_list_ascii u).
Proof.
  intros Hpre Hu Hlt Hpost.
  exact (bracket_pattern_complete next_mark ">"%char
           (tl (list_ascii_of_string next_mark)) pre u post
           eq_refl eq_refl eq_refl Hpre Hu Hlt Hpost).
Qed.

Lemma get_header_has (h : Headers) (key link : string) :
  get_header h key = Some link -> has h key = true.
Proof.
  unfold has, get_header. destruct (values_of h key); [discriminate|].
  reflexivity.
Qed.

Lemma next_page_match (response : Response.t) (link : string) :
  get_header (Response.headers response) "link" = Some link ->
  next_page response =
  match regex_match link next_link with
  | Some m => Some (match group 1 (caps m) with
                    | Some u => u
                    | None => "undefined"
                    end)
  | None => None
  end.
Proof.
  intros H. unfold next_page. rewrite (get_header_has _ _ _ H), H.
  reflexivity.
Qed.

(** X8. A next page is only ever a URL that stands in the link header
    between a [<] and the mark [>; rel="next"]; a response without a
    link header, or with one in which the mark does not occur, has no
    next page. *)
Theorem next_page_is_bracketed (response : Response.t) :
  (forall u,
     next_page response = Some u ->
     exists link pre post,
       get_header (Response.headers response) "link" = Some link /\
       link = (pre ++ "<" ++ u ++ next_mark ++ post)%string /\
       plain (list_ascii_of_string pre) = true /\
       plain (list_ascii_of_string u) = true) /\
  (forall link,
     get_header (Response.headers response) "link" = Some link ->
     occurs (list_ascii_of_string next_mark) (list_ascii_of_string link)
     = false ->
     next_page response = None) /\
  (get_header (Response.headers response) "link" = None ->
   next_page response = None).
Proof.
  assert (Hsound : forall link u,
            get_header (Response.headers response) "link" = Some link ->
            next_page response = Some u ->
            exists pre post,
              link = (pre ++ "<" ++ u ++ next_mark ++ post)%string /\
              plain (list_ascii_of_string pre) = true /\
              plain (list_ascii_of_string u) = true).
  { intros link u Hl Hn. rewrite (next_page_match _ _ Hl) in Hn.
    unfold regex_match in Hn.
    destruct (exec_from next_link 0 (list_ascii_of_string link)) as [m|] eqn:E;
      [|discriminate].
    destruct (next_link_sound _ _ E) as (pre & lu & post & Hs & Hp & Hu & Hg).
    rewrite Hg in Hn. injection Hn as <-.
    exists (string_of_list_ascii pre), (string_of_list_ascii post).
    rewrite !list_ascii_of_string_of_list_ascii. split; [|split; assumption].
    rewrite <- (string_of_list_ascii_of_string link), Hs.
    rewrite string_of_list_app. cbn [string_of_list_ascii].
    rewrite !string_of_list_app, string_of_list_ascii_of_string.
    reflexivity. }
  split; [|split].
  - intros u Hn.
    destruct (get_header (Response.headers response) "link") as [link|] eqn:Hl.
    + destruct (Hsound link u eq_refl Hn) as (pre & post & H).
      exists link, pre, post. split; [reflexivity | exact H].
    + unfold next_page in Hn. rewrite Hl in Hn.
      destruct (has _ _); discriminate.
  - intros link Hl Ho.
    destruct (next_page response) as [u|] eqn:Hn; [|reflexivity].
    destruct (Hsound link u Hl eq_refl) as (pre & post & -> & _).
    rewrite !list_ascii_app in Ho.
    rewrite (app_assoc (list_ascii_of_string "<")) in Ho.
    rewrite app_assoc in Ho. rewrite occurs_app in Ho. discriminate.
  - intros Hl. unfold next_page. rewrite Hl.
    destruct (has _ _); reflexivity.
Qed.

(** X9. In a link header of the form GitHub sends, where the URL of the
    next page stands in brackets right before the mark, and the mark
    does not come again after it, [fetch] finds that URL, whatever
    relations stand before and after. *)
Theorem next_page_found (response : Response.t) (pre u post : string) :
  get_header (Response.headers response) "link"
  = Some (pre ++ "<" ++ u ++ next_mark ++ post)%string ->
  plain (list_ascii_of_string pre) = true ->
  plain (list_ascii_of_string u) = true ->
  lacks "<"%char (list_ascii_of_string u) = true ->
  occurs (list_ascii_of_string next_mark) (list_ascii_of_string post) = false ->
  next_page response = Some u.
Proof.
  intros Hl Hpre Hu Hlt Hpost. rewrite (next_page_match _ _ Hl).
  unfold regex_match. rewrite !list_ascii_app. cbn [list_ascii_of_string app].
  destruct (next_link_complete _ _ _ Hpre Hu Hlt Hpost) as (m & -> & ->).
  rewrite string_of_list_ascii_of_string. reflexivity.
Qed.

(* ================================================================= *)
(** ** The command line: arguments *)

Lemma forEach_helps (args : list string) :
  forall cli,
    existsb helps args = true ->
    Cli.forEach cli args = Cli.Exit 0 [Cli.Info Cli.help].
Proof.
  induction args as [|arg more IH]; intros cli H; [discriminate|].
  cbn [existsb] in H. cbn [Cli.forEach]. unfold Cli.step.
  fold (helps arg). fold (sets_detailed arg). fold (sets_latest arg).
  fold (sets_quiet arg).
  destruct (helps arg); [reflexivity|]. cbn [orb] in H.
  destruct (sets_detailed arg); [apply IH; exact H|].
  destruct (sets_latest arg); [apply IH; exact H|].
  destruct (sets_quiet arg); [apply IH; exact H|].
  destruct (negb (truthy (Cli.repoOwner cli))); [apply IH; exact H|].
  destruct (negb (truthy_opt (Cli.repoName cli))); [apply IH; exact H|].
  destruct (negb (truthy (Cli.releaseTag cli))); apply IH; exact H.
Qed.

(** X10. A help argument ([-h], [--help] or [-?]) anywhere on the
    command line ends the process in the constructor: the help text is
    the only output, the exit code is 0, and nothing is requested,
    whatever the other arguments are. *)
Theorem help_ends_the_process (env : Env) (net : Transport)
    (ask : string -> string) (describe : exn -> string)
    (inspect : value -> string) (fuel : nat) (args : list string) :
  existsb helps args = true ->
  Cli.new_GithubStatsCli args = Cli.Exit 0 [Cli.Info Cli.help] /\
  Cli.main env net ask describe inspect fuel args =
  {| Cli.console := [Cli.Info Cli.help];
     Cli.exitCode := Some 0%Z;
     Cli.log := [] |}.
Proof.
  intros H. unfold Cli.main, Cli.new_GithubStatsCli.
  rewrite (forEach_helps args Cli.initial H). split; reflexivity.
Qed.

Lemma options_exclusive (arg : string) :
  (sets_detailed arg = true ->
     sets_latest arg = false /\ sets_quiet arg = false) /\
  (sets_latest arg = true ->
     sets_detailed arg = false /\ sets_quiet arg = false) /\
  (sets_quiet arg = true ->
     sets_detailed arg = false /\ sets_latest arg = false).
Proof.
  unfold sets_detailed, sets_latest, sets_quiet, includes. cbn [existsb].
  destruct (String.eqb_spec arg "-d"); subst; cbn; [intuition congruence|].
  destruct (String.eqb_spec arg "--detailed"); subst; cbn;
    [intuition congruence|].
  destruct (String.eqb_spec arg "-l"); subst; cbn; [intuition congruence|].
  destruct (String.eqb_spec arg "--latest"); subst; cbn;
    [intuition congruence|].
  intuition congruence.
Qed.

Ltac forEach_step IH Hm :=
  match goal with
  | |- exists c c2,
         Cli.forEach ?a ?more = _ /\
         Cli.forEach ?b (filter positional ?more) = _ /\ _ =>
      let c := fresh "c" in
      let c2 := fresh "c2" in
      let H1 := fresh "H1" in
      let H2 := fresh "H2" in
      let H := fresh "H" in
      destruct (IH a b Hm) as (c & c2 & H1 & H2 & H);
      [ cbn; congruence ..
      | exists c, c2; split; [exact H1 | split; [exact H2 |]];
        cbn [Cli.detailed Cli.latest Cli.quiet Cli.repoOwner Cli.repoName
             Cli.releaseTag orb] in H |- *;
        rewrite ?orb_true_r in *; exact H ]
  end.

Lemma forEach_independent (args : list string) :
  forall cli cli2,
    existsb helps args = false ->
    Cli.repoOwner cli2 = Cli.repoOwner cli ->
    Cli.repoName cli2 = Cli.repoName cli ->
    Cli.releaseTag cli2 = Cli.releaseTag cli ->
    exists c c2,
      Cli.forEach cli args = Cli.Built c /\
      Cli.forEach cli2 (filter positional args) = Cli.Built c2 /\
      Cli.repoOwner c = Cli.repoOwner c2 /\
      Cli.repoName c = Cli.repoName c2 /\
      Cli.releaseTag c = Cli.releaseTag c2 /\
      Cli.detailed c = Cli.detailed cli || existsb sets_detailed args /\
      Cli.latest c = Cli.latest cli || existsb sets_latest args /\
      Cli.quiet c = Cli.quiet cli || existsb sets_quiet args /\
      Cli.detailed c2 = Cli.detailed cli2 /\
      Cli.latest c2 = Cli.latest cli2 /\
      Cli.quiet c2 = Cli.quiet cli2.
Proof.
  induction args as [|arg more IH]; intros cli cli2 Hh Ho Hn Ht.
  - exists cli, cli2. cbn. rewrite !orb_false_r. repeat split; congruence.
  - cbn [existsb] in Hh. apply orb_false_elim in Hh. destruct Hh as [Hh Hm].
    cbn [filter Cli.forEach existsb]. unfold positional at 1.
    unfold Cli.step at 1.
    fold (helps arg). fold (sets_detailed arg). fold (sets_latest arg).
    fold (sets_quiet arg). rewrite Hh. cbn [orb].
    destruct (options_exclusive arg) as (Xd & Xl & Xq).
    destruct (sets_detailed arg) eqn:Ed.
    { destruct (Xd eq_refl) as [-> ->]. cbn [negb orb]. forEach_step IH Hm. }
    destruct (sets_latest arg) eqn:El.
    { destruct (Xl eq_refl) as [_ ->]. cbn [negb orb]. forEach_step IH Hm. }
    destruct (sets_quiet arg) eqn:Eq.
    { cbn [negb orb]. forEach_step IH Hm. }
    cbn [negb orb Cli.forEach]. unfold Cli.step.
    fold (helps arg). fold (sets_detailed arg). fold (sets_latest arg).
    fold (sets_quiet arg). rewrite Hh, Ed, El, Eq.
    rewrite Ho, Hn, Ht.
    destruct (negb (truthy (Cli.repoOwner cli)));
      [|destruct (negb (truthy_opt (Cli.repoName cli)));
        [|destruct (negb (truthy (Cli.releaseTag cli)))]];
      forEach_step IH Hm.
Qed.

(** X11. Options and names do not interfere.  Without a help argument
    the constructor always builds the object; [detailed], [latest] and
    [quiet] are set exactly when [-d] or [--detailed], [-l] or
    [--latest], [-q] or [--quiet] is among the arguments; and owner,
    name and tag are those of the command line with the options taken
    out, wherever the options stand. *)
Theorem options_and_names_are_independent (args : list string) :
  existsb helps args = false ->
  exists cli named,
    Cli.new_GithubStatsCli args = Cli.Built cli /\
    Cli.new_GithubStatsCli (filter positional args) = Cli.Built named /\
    Cli.repoOwner cli = Cli.repoOwner named /\
    Cli.repoName cli = Cli.repoName named /\
    Cli.releaseTag cli = Cli.releaseTag named /\
    Cli.detailed cli = existsb sets_detailed args /\
    Cli.latest cli = existsb sets_latest args /\
    Cli.quiet cli = existsb sets_quiet args /\
    Cli.detailed named = false /\
    Cli.latest named = false /\
    Cli.quiet named = false.
Proof.
  intros H.
  destruct (forEach_independent args Cli.initial Cli.initial H
              eq_refl eq_refl eq_refl) as (c & c2 & H').
  exists c, c2. exact H'.
Qed.

Lemma split_plain (o : string) :
  lacks "/"%char (list_ascii_of_string o) = true ->
  split "/" o = [o] /\
  forall r, split "/" (o ++ "/" ++ r) = o :: split "/" r.
Proof.
  induction o as [|c o IH]; intros H.
  - split; reflexivity.
  - cbn in H. apply andb_prop in H. destruct H as [Hc Ho].
    apply negb_true_iff in Hc. destruct (IH Ho) as [H1 H2].
    split.
    + cbn [split]. rewrite Hc, H1. reflexivity.
    + intros r.
      change (String c o ++ "/" ++ r)%string
        with (String c (o ++ "/" ++ r)).
      cbn [split]. rewrite Hc, H2. reflexivity.
Qed.

Lemma slash_positional (s : string) :
  lacks "/"%char (list_ascii_of_string s) = false -> positional s = true.
Proof.
  intros H.
  unfold positional, helps, sets_detailed, sets_latest, sets_quiet, includes.
  cbn [existsb].
  repeat match goal with
         | |- context [String.eqb s ?f] =>
             destruct (String.eqb_spec s f);
             [subst s; cbn in H; discriminate H|]
         end.
  reflexivity.
Qed.

(** X12. The two ways to name the repository agree: [owner/name] as one
    argument gives the object that [owner] and [name] as two arguments
    give, for an owner and a name without a slash that are no options,
    whatever arguments follow. *)
Theorem slash_form_agrees (owner name : string) (more : list string) :
  lacks "/"%char (list_ascii_of_string owner) = true ->
  lacks "/"%char (list_ascii_of_string name) = true ->
  truthy owner = true ->
  positional owner = true ->
  positional name = true ->
  Cli.new_GithubStatsCli ((owner ++ "/" ++ name)%string :: more)
  = Cli.new_GithubStatsCli (owner :: name :: more) /\
  Cli.new_GithubStatsCli [(owner ++ "/" ++ name)%string]
  = Cli.Built {| Cli.repoOwner := owner; Cli.repoName := Some name;
                 Cli.releaseTag := ""; Cli.detailed := false;
                 Cli.latest := false; Cli.quiet := false |}.
Proof.
  intros Ho Hn Ht Hpo Hpn.
  assert (Hps : positional (owner ++ "/" ++ name) = true).
  { apply slash_positional. rewrite !list_ascii_app, !lacks_app.
    cbn. apply andb_false_r. }
  destruct (split_plain owner Ho) as [Hs1 Hs2].
  destruct (split_plain name Hn) as [Hs3 _].
  assert (Hstep : forall arg cli,
            positional arg = true ->
            Cli.step cli arg =
            if negb (truthy (Cli.repoOwner cli)) then
              Cli.Built {| Cli.repoOwner := nth 0 (split "/" arg) "";
                           Cli.repoName := nth_error (split "/" arg) 1;
                           Cli.releaseTag := Cli.releaseTag cli;
                           Cli.detailed := Cli.detailed cli;
                           Cli.latest := Cli.latest cli;
                           Cli.quiet := Cli.quiet cli |}
            else if negb (truthy_opt (Cli.repoName cli)) then
              Cli.Built {| Cli.repoOwner := Cli.repoOwner cli;
                           Cli.repoName := Some arg;
                           Cli.releaseTag := Cli.releaseTag cli;
                           Cli.detailed := Cli.detailed cli;
                           Cli.latest := Cli.latest cli;
                           Cli.quiet := Cli.quiet cli |}
            else if negb (truthy (Cli.releaseTag cli)) then
              Cli.Built {| Cli.repoOwner := Cli.repoOwner cli;
                           Cli.repoName := Cli.repoName cli;
                           Cli.releaseTag := arg;
                           Cli.detailed := Cli.detailed cli;
                           Cli.latest := Cli.latest cli;
                           Cli.quiet := Cli.quiet cli |}
            else Cli.Built cli).
  { intros arg cli Hp. unfold positional in Hp.
    apply negb_true_iff in Hp. do 3 (apply orb_false_elim in Hp as [Hp ?]).
    unfold Cli.step. fold (helps arg). fold (sets_detailed arg).
    fold (sets_latest arg). fold (sets_quiet arg).
    rewrite Hp. repeat match goal with H : _ = false |- _ => rewrite H end.
    reflexivity. }
  assert (Hone : Cli.step Cli.initial (owner ++ "/" ++ name)
                 = Cli.Built {| Cli.repoOwner := owner;
                                Cli.repoName := Some name;
                                Cli.releaseTag := ""; Cli.detailed := false;
                                Cli.latest := false; Cli.quiet := false |}).
  { rewrite (Hstep _ _ Hps). cbn [Cli.initial Cli.repoOwner truthy negb].
    rewrite Hs2, Hs3. reflexivity. }
  split.
  - unfold Cli.new_GithubStatsCli. cbn [Cli.forEach].
    rewrite Hone. rewrite (Hstep _ _ Hpo).
    cbn [Cli.initial Cli.repoOwner]. change (truthy "") with false.
    cbn [negb]. rewrite Hs1. cbn [nth nth_error].
    rewrite (Hstep _ _ Hpn).
    cbn [Cli.repoOwner Cli.repoName truthy_opt]. rewrite Ht. reflexivity.
  - unfold Cli.new_GithubStatsCli. cbn [Cli.forEach]. rewrite Hone.
    reflexivity.
Qed.

(* ================================================================= *)
(** ** The command line: [run] *)

Lemma entered_keeps (ask : string -> string) (cli : Cli.t) (w : Cli.world) :
  Cli.releaseTag (fst (entered ask cli w)) = Cli.releaseTag cli /\
  Cli.detailed (fst (entered ask cli w)) = Cli.detailed cli /\
  Cli.latest (fst (entered ask cli w)) = Cli.latest cli /\
  Cli.quiet (fst (entered ask cli w)) = Cli.quiet cli /\
  Cli.exitCode (snd (entered ask cli w)) = Cli.exitCode w /\
  Cli.log (snd (entered ask cli w)) = Cli.log w /\
  Cli.repoOwner (fst (entered ask cli w)) =
    (if truthy (Cli.repoOwner cli) then Cli.repoOwner cli
     else ask Cli.owner_question) /\
  Cli.repoName (fst (entered ask cli w)) =
    (if truthy_opt (Cli.repoName cli) then Cli.repoName cli
     else Some (ask Cli.name_question)) /\
  Cli.console (snd (entered ask cli w)) =
    Cli.console w
    ++ (if Cli.quiet cli then [] else [Cli.Info "GitHub Release Stats"])
    ++ (if truthy (Cli.repoOwner cli) then []
        else [Cli.Question Cli.owner_question])
    ++ (if truthy_opt (Cli.repoName cli) then []
        else [Cli.Question Cli.name_question]).
Proof.
  unfold entered, Cli.getUserInput, Cli.printMessage.
  destruct (truthy (Cli.repoOwner cli)) eqn:Eo,
    (truthy_opt (Cli.repoName cli)) eqn:En;
    cbn [negb orb fst snd];
    (repeat split; try reflexivity);
    destruct (Cli.quiet cli); cbn;
    rewrite ?app_nil_r, <- ?app_assoc; reflexivity.
Qed.

Lemma run_entered (env : Env) (net : Transport) (ask : string -> string)
    (describe : exn -> string) (inspect : value -> string)
    (fuel : nat) (cli : Cli.t) (w : Cli.world) :
  Cli.run env net ask describe inspect fuel cli w =
  let cli' := fst (entered ask cli w) in
  let w' := snd (entered ask cli w) in
  if truthy (Cli.releaseTag cli') && Cli.latest cli' then
    Cli.fail Cli.tag_or_latest w'
  else if Cli.detailed cli' && Cli.quiet cli' then
    Cli.fail Cli.detailed_or_quiet w'
  else
    settle env net describe inspect fuel cli'
      (Cli.printMessage cli' (announcement cli') w').
Proof.
  unfold Cli.run. fold (entered ask cli w).
  destruct (entered ask cli w) as [cli' w']. cbn [fst snd]. cbn zeta.
  unfold settle, announcement, counter. fold (client_of env cli').
  destruct (truthy (Cli.releaseTag cli') && Cli.latest cli');
    [reflexivity|].
  destruct (Cli.detailed cli' && Cli.quiet cli'); [reflexivity|].
  destruct (Cli.detailed cli'), (Cli.latest cli'),
    (truthy (Cli.releaseTag cli')); reflexivity.
Qed.

Lemma then_catch_keeps {A : Type} (describe : exn -> string)
    (promise : M A) (onValue : A -> Cli.P unit) (w : Cli.world) :
  Cli.exitCode (Cli.then_catch describe promise onValue w) = Cli.exitCode w /\
  Cli.log (Cli.then_catch describe promise onValue w)
  = snd (promise (Cli.log w)).
Proof.
  unfold Cli.then_catch.
  destruct (promise (Cli.log w)) as [[[a|e]|] log'].
  - destruct (onValue a (Cli.console w)) as [[u|e] console'];
      split; reflexivity.
  - split; reflexivity.
  - split; reflexivity.
Qed.

Lemma printMessage_keeps (cli : Cli.t) (message : string) (w : Cli.world) :
  Cli.exitCode (Cli.printMessage cli message w) = Cli.exitCode w /\
  Cli.log (Cli.printMessage cli message w) = Cli.log w /\
  Cli.console (Cli.printMessage cli message w)
  = Cli.console w ++ (if Cli.quiet cli then [] else [Cli.Info message]).
Proof.
  unfold Cli.printMessage. destruct (Cli.quiet cli); cbn;
    rewrite ?app_nil_r; repeat split; reflexivity.
Qed.

Lemma conflict_entered (ask : string -> string) (cli : Cli.t)
    (w : Cli.world) :
  truthy (Cli.releaseTag (fst (entered ask cli w)))
  && Cli.latest (fst (entered ask cli w))
  = truthy (Cli.releaseTag cli) && Cli.latest cli /\
  Cli.detailed (fst (entered ask cli w)) && Cli.quiet (fst (entered ask cli w))
  = Cli.detailed cli && Cli.quiet cli.
Proof.
  destruct (entered_keeps ask cli w) as (-> & -> & -> & -> & _).
  split; reflexivity.
Qed.

(** X13. Options that exclude each other (a tag with [latest], or
    [detailed] with [quiet]) end [run] before any request: one line on
    stderr that names the two options, after the title and the
    questions, exit code 1, and no call to the transport.  When both
    pairs are given, the message is the one about the tag. *)
Theorem conflicting_options_fail (env : Env) (net : Transport)
    (ask : string -> string) (describe : exn -> string)
    (inspect : value -> string) (fuel : nat) (cli : Cli.t) (w : Cli.world) :
  conflict cli = true ->
  Cli.exitCode (Cli.run env net ask describe inspect fuel cli w) = Some 1%Z /\
  Cli.log (Cli.run env net ask describe inspect fuel cli w) = Cli.log w /\
  Cli.console (Cli.run env net ask describe inspect fuel cli w) =
    Cli.console w
    ++ (if Cli.quiet cli then [] else [Cli.Info "GitHub Release Stats"])
    ++ (if truthy (Cli.repoOwner cli) then []
        else [Cli.Question Cli.owner_question])
    ++ (if truthy_opt (Cli.repoName cli) then []
        else [Cli.Question Cli.name_question])
    ++ [Cli.Error (if truthy (Cli.releaseTag cli) && Cli.latest cli
                   then Cli.tag_or_latest else Cli.detailed_or_quiet)].
Proof.
  intros Hc. rewrite run_entered. cbn zeta.
  destruct (conflict_entered ask cli w) as [-> ->].
  destruct (entered_keeps ask cli w)
    as (_ & _ & _ & _ & Hexit & Hlog & _ & _ & Hcon).
  unfold conflict in Hc.
  destruct (truthy (Cli.releaseTag cli) && Cli.latest cli).
  - unfold Cli.fail. cbn [Cli.exitCode Cli.log Cli.console].
    rewrite Hlog, Hcon, <- !app_assoc. repeat split.
  - cbn [orb] in Hc. rewrite Hc.
    unfold Cli.fail. cbn [Cli.exitCode Cli.log Cli.console].
    rewrite Hlog, Hcon, <- !app_assoc. repeat split.
Qed.

Lemma settle_keeps (env : Env) (net : Transport) (describe : exn -> string)
    (inspect : value -> string) (fuel : nat) (cli : Cli.t) (w : Cli.world) :
  Cli.exitCode (settle env net describe inspect fuel cli w) = Cli.exitCode w.
Proof.
  unfold settle.
  destruct (Cli.detailed cli), (Cli.latest cli),
    (truthy (Cli.releaseTag cli)); apply then_catch_keeps.
Qed.

(** X14. When the options do not exclude each other, [run] leaves the
    exit code of the process as it was, whatever becomes of the
    request: a rejection of the client is printed, it does not make the
    process fail. *)
Theorem run_keeps_exit_code (env : Env) (net : Transport)
    (ask : string -> string) (describe : exn -> string)
    (inspect : value -> string) (fuel : nat) (cli : Cli.t) (w : Cli.world) :
  conflict cli = false ->
  Cli.exitCode (Cli.run env net ask describe inspect fuel cli w)
  = Cli.exitCode w.
Proof.
  intros Hc. rewrite run_entered. cbn zeta.
  destruct (conflict_entered ask cli w) as [-> ->].
  unfold conflict in Hc. apply orb_false_elim in Hc. destruct Hc as [-> ->].
  rewrite settle_keeps.
  destruct (printMessage_keeps (fst (entered ask cli w))
              (announcement (fst (entered ask cli w)))
              (snd (entered ask cli w))) as [-> _].
  apply entered_keeps.
Qed.

Lemma entered_given (ask : string -> string) (cli : Cli.t) (w : Cli.world) :
  truthy (Cli.repoOwner cli) = true ->
  truthy_opt (Cli.repoName cli) = true ->
  entered ask cli w = (cli, Cli.printMessage cli "GitHub Release Stats" w).
Proof. intros Ho Hn. unfold entered. rewrite Ho, Hn. reflexivity. Qed.

(** X15. The plain mode (no [detailed]) with both names given prints
    the title and the announcement unless [quiet] is set, and then one
    line: the text of the number on stdout when the counter resolves to
    a number (its decimal digits for an integer up to 2^53 in
    magnitude), [GithubError:] and the message of the service on stderr
    when it rejects with a [GithubError], nothing while it is pending.
    With [quiet] that one line is all the output. *)
Theorem plain_mode_output (env : Env) (net : Transport)
    (ask : string -> string) (describe : exn -> string)
    (inspect : value -> string) (fuel : nat) (cli : Cli.t) (w : Cli.world)
    (res : option (completion value)) (log' : list event) :
  Cli.detailed cli = false ->
  conflict cli = false ->
  truthy (Cli.repoOwner cli) = true ->
  truthy_opt (Cli.repoName cli) = true ->
  counter env net fuel cli (Cli.log w) = (res, log') ->
  let before :=
    Cli.console w
    ++ (if Cli.quiet cli then []
        else [Cli.Info "GitHub Release Stats"; Cli.Info (announcement cli)]) in
  let w' := Cli.run env net ask describe inspect fuel cli w in
  Cli.log w' = log' /\
  Cli.exitCode w' = Cli.exitCode w /\
  (forall n, res = Some (Return (VNumber n)) ->
     is_double n ->
     Cli.console w' = before ++ [Cli.Info (Number_toString n)]) /\
  (forall z, res = Some (Return (VNumber (Int z))) ->
     (Z.abs z <= exact_bound)%Z ->
     Cli.console w' = before ++ [Cli.Info (decimal z)]) /\
  (forall e, res = Some (Throw (EGithub e)) ->
     Cli.console w'
     = before ++ [Cli.Error (name e ++ ": " ++ message e)%string]) /\
  (res = None -> Cli.console w' = before).
Proof.
  intros Hd Hc Ho Hn Hres. cbn zeta.
  rewrite run_entered, (entered_given ask cli w Ho Hn). cbn [fst snd].
  unfold conflict in Hc. apply orb_false_elim in Hc. destruct Hc as [-> ->].
  unfold settle. rewrite Hd. unfold Cli.then_catch.
  assert (Hlog : Cli.log (Cli.printMessage cli (announcement cli)
                   (Cli.printMessage cli "GitHub Release Stats" w))
                 = Cli.log w).
  { unfold Cli.printMessage. destruct (Cli.quiet cli); reflexivity. }
  assert (Hexit : Cli.exitCode (Cli.printMessage cli (announcement cli)
                    (Cli.printMessage cli "GitHub Release Stats" w))
                  = Cli.exitCode w).
  { unfold Cli.printMessage. destruct (Cli.quiet cli); reflexivity. }
  assert (Hcon : Cli.console (Cli.printMessage cli (announcement cli)
                    (Cli.printMessage cli "GitHub Release Stats" w))
                 = Cli.console w
                   ++ (if Cli.quiet cli then []
                       else [Cli.Info "GitHub Release Stats";
                             Cli.Info (announcement cli)])).
  { unfold Cli.printMessage. destruct (Cli.quiet cli); cbn;
      rewrite ?app_nil_r, <- ?app_assoc; reflexivity. }
  rewrite Hlog, Hres, Hexit, Hcon.
  destruct res as [[v|e]|].
  - destruct (Cli.info_value inspect v _) as [[u|e] console'] eqn:Ei;
      cbn [Cli.log Cli.exitCode Cli.console];
      (split; [reflexivity|]); (split; [reflexivity|]);
      (split; [|split; [|split; intros; discriminate]]).
    + intros n [= ->] _. unfold Cli.info_value, Cli.info in Ei.
      inversion Ei; subst; reflexivity.
    + intros z [= ->] Hz. unfold Cli.info_value, Cli.info in Ei.
      rewrite (Number_toString_exact z Hz) in Ei.
      inversion Ei; subst; reflexivity.
    + intros n [= ->] _. unfold Cli.info_value, Cli.info in Ei.
      discriminate Ei.
    + intros z [= ->] Hz. unfold Cli.info_value, Cli.info in Ei.
      discriminate Ei.
  - cbn [Cli.log Cli.exitCode Cli.console].
    split; [reflexivity|]. split; [reflexivity|].
    split; [intros; discriminate|]. split; [intros; discriminate|].
    split; [|intros; discriminate].
    intros g [= ->]. reflexivity.
  - cbn [Cli.log Cli.exitCode Cli.console].
    split; [reflexivity|]. split; [reflexivity|].
    split; [intros; discriminate|]. split; [intros; discriminate|].
    split; [intros; discriminate|].
    reflexivity.
Qed.

Lemma ToString_scalar (v : value) :
  scalar v = true -> exists s, ToString v = Return s.
Proof.
  destruct v as [| |b|n|s|items|props]; intros H; try discriminate H;
    try (eexists; reflexivity).
  destruct b; eexists; reflexivity.
Qed.

Lemma append_empty_r (s : string) : (s ++ "")%string = s.
Proof. induction s as [|c s IH]; cbn; [reflexivity | rewrite IH; reflexivity]. Qed.

Lemma printable_is_release (release : value) (counts : list Z) :
  printable release counts -> is_release release counts.
Proof.
  intros (props & assets & -> & Ha & Hf & _).
  exists props, assets. split; [reflexivity|]. split; [exact Ha|].
  clear Ha.
  induction Hf as [|a c l l' (p & -> & Hc & _) _ IH]; constructor.
  - exists p. split; [reflexivity | exact Hc].
  - exact IH.
Qed.

Lemma print_asset_line (n : number) (asset : value) (count : Z)
    (console : list Cli.output) :
  printable_asset asset count ->
  exists line,
    Cli.print_asset (VNumber n) asset console
    = (Return (VNumber (number_add n (Int count))),
       console ++ [Cli.Info line]).
Proof.
  intros (props & -> & Hc & Hn).
  destruct (ToString_scalar _ Hn) as [s Hs].
  unfold Cli.print_asset, Cli.pbind, Cli.plift, Cli.pret, Cli.info, get.
  fold (field props "name"). rewrite Hc, Hs.
  cbn. eexists. reflexivity.
Qed.

Lemma print_assets_lines (assets : list value) (counts : list Z) :
  Forall2 printable_asset assets counts ->
  forall n console,
  exists lines,
    Cli.print_assets assets (VNumber n) console
    = (Return (VNumber (add_all n counts)), console ++ lines) /\
    forallb is_info lines = true /\
    List.length lines = List.length counts.
Proof.
  induction 1 as [|asset count assets counts Ha _ IH]; intros n console.
  - exists []. cbn. rewrite app_nil_r. auto.
  - destruct (print_asset_line n asset count console Ha) as [line Hl].
    destruct (IH (number_add n (Int count)) (console ++ [Cli.Info line]))
      as (lines & Hr & Hi & Hn).
    exists (Cli.Info line :: lines).
    cbn [Cli.print_assets]. unfold Cli.pbind. rewrite Hl, Hr.
    rewrite <- app_assoc. cbn [app forallb is_info andb List.length].
    rewrite Hn. auto.
Qed.

Lemma printRelease_lines (release : value) (counts : list Z)
    (console : list Cli.output) :
  printable release counts ->
  exists props name tag url published lines,
    release = VObject props /\
    ToString (field props "name") = Return name /\
    ToString (field props "tag_name") = Return tag /\
    ToString (field props "url") = Return url /\
    ToString (field props "published_at") = Return published /\
    Cli.printRelease release console
    = (Return tt,
       console
       ++ (if ToBoolean (field props "name")
           then [Cli.Info ("Name: " ++ name)%string] else [])
       ++ [Cli.Info ("Tag: " ++ tag)%string;
           Cli.Info ("URL: " ++ url)%string;
           Cli.Info ("Published at: " ++ published)%string;
           Cli.Info "Assets:"]
       ++ lines
       ++ [Cli.Info ("    " ++ Number_toString (add_all (Int 0) counts)
                       ++ " total downloads")%string]) /\
    forallb is_info lines = true /\
    List.length lines = List.length counts.
Proof.
  intros (props & assets & -> & Ha & Hf & Hname & Htag & Hurl & Hpub).
  destruct (ToString_scalar _ Hname) as [name H1].
  destruct (ToString_scalar _ Htag) as [tag H2].
  destruct (ToString_scalar _ Hurl) as [url H3].
  destruct (ToString_scalar _ Hpub) as [published H4].
  exists props, name, tag, url, published.
  unfold Cli.printRelease.
  unfold Cli.pbind at 1. unfold Cli.plift at 1. unfold get at 1.
  fold (field props "name").
  assert (Hfirst :
            (if ToBoolean (field props "name")
             then Cli.pbind (Cli.plift (Cli.template "Name: "
                                          (field props "name") ""))
                            (fun line => Cli.info line)
             else Cli.pret tt) console
            = (Return tt,
               console ++ (if ToBoolean (field props "name")
                           then [Cli.Info ("Name: " ++ name)%string]
                           else []))).
  { destruct (ToBoolean (field props "name")).
    - unfold Cli.pbind, Cli.plift, Cli.info, Cli.template.
      rewrite H1. cbn [cbind]. rewrite append_empty_r. reflexivity.
    - unfold Cli.pret. rewrite app_nil_r. reflexivity. }
  unfold Cli.pbind at 1. rewrite Hfirst.
  unfold Cli.pbind, Cli.plift, Cli.info, Cli.template, get.
  fold (field props "tag_name"). fold (field props "url").
  fold (field props "published_at"). rewrite H2, H3, H4, Ha.
  cbn [cbind]. rewrite !append_empty_r.
  match goal with
  | |- context [Cli.print_assets assets (VNumber (Int 0)) ?c] =>
      destruct (print_assets_lines assets counts Hf (Int 0) c)
        as (lines & Hr & Hi & Hn)
  end.
  rewrite Hr. cbn [ToString cbind].
  exists lines. repeat split; try assumption.
  f_equal. rewrite <- !app_assoc. reflexivity.
Qed.

Lemma printRelease_infos (release : value) (counts : list Z)
    (console : list Cli.output) :
  printable release counts ->
  exists lines,
    Cli.printRelease release console = (Return tt, console ++ lines) /\
    forallb is_info lines = true.
Proof.
  intros Hp.
  destruct (printRelease_lines release counts console Hp)
    as (props & name & tag & url & published & lines & _ & _ & _ & _ & _
        & Hr & Hi & _).
  eexists. split; [exact Hr|].
  rewrite !forallb_app, Hi.
  destruct (ToBoolean (field props "name")); reflexivity.
Qed.

(** X16. For a release whose printed properties are scalars and whose
    assets carry counts that add up without rounding, [printRelease]
    throws nothing and prints only on stdout: the name exactly when it
    is truthy, then the tag, the URL, the date and [Assets:], one line
    per asset, and last the total, which is the sum of the counts, the
    number that [getReleaseDownloads] gives for the same release. *)
Theorem printRelease_total (release : value) (counts : list Z)
    (console : list Cli.output) :
  printable release counts ->
  exact counts ->
  exists props name tag url published lines,
    release = VObject props /\
    ToString (field props "name") = Return name /\
    ToString (field props "tag_name") = Return tag /\
    ToString (field props "url") = Return url /\
    ToString (field props "published_at") = Return published /\
    Cli.printRelease release console
    = (Return tt,
       console
       ++ (if ToBoolean (field props "name")
           then [Cli.Info ("Name: " ++ name)%string] else [])
       ++ [Cli.Info ("Tag: " ++ tag)%string;
           Cli.Info ("URL: " ++ url)%string;
           Cli.Info ("Published at: " ++ published)%string;
           Cli.Info "Assets:"]
       ++ lines
       ++ [Cli.Info ("    " ++ decimal (sum counts)
                       ++ " total downloads")%string]) /\
    forallb is_info lines = true /\
    List.length lines = List.length counts /\
    release_downloads release = Return (VNumber (Int (sum counts))).
Proof.
  intros Hp He.
  destruct (printRelease_lines release counts console Hp)
    as (props & name & tag & url & published & lines & Hrel & H1 & H2 & H3
        & H4 & Hr & Hi & Hn).
  exists props, name, tag, url, published, lines.
  rewrite add_all_exact in Hr by exact He. cbn [Z.add] in Hr.
  rewrite Number_toString_exact in Hr.
  2:{ pose proof (sum_le_magnitude counts). unfold exact in He. lia. }
  repeat split; try assumption.
  apply release_downloads_sum; [|exact He].
  apply printable_is_release. exact Hp.
Qed.

Lemma print_all_lines (releases : list value) (counts : list (list Z)) :
  Forall2 printable releases counts ->
  forall acc console,
    (Z.abs acc + magnitude (List.concat counts) <= exact_bound)%Z ->
    exists lines,
      Cli.print_all releases (VNumber (Int acc)) console
      = (Return (VNumber (Int (acc + sum (List.concat counts)))),
         console ++ lines) /\
      forallb is_info lines = true.
Proof.
  induction 1 as [|release cs releases counts Hp _ IH];
    intros acc console Hb.
  - exists []. cbn. rewrite app_nil_r, Z.add_0_r. auto.
  - cbn [List.concat] in Hb. rewrite magnitude_app in Hb.
    pose proof (magnitude_nonneg cs) as Hcs.
    pose proof (magnitude_nonneg (List.concat counts)) as Hrest.
    pose proof (sum_le_magnitude cs) as Hsum.
    destruct (printRelease_infos release cs console Hp) as (l1 & H1 & Hi1).
    cbn [Cli.print_all]. unfold Cli.pbind at 1.
    unfold Cli.print_listed. unfold Cli.pbind at 1. rewrite H1.
    unfold Cli.pbind at 1. unfold Cli.info at 1.
    unfold Cli.pbind at 1. unfold Cli.plift at 1.
    rewrite (release_downloads_sum _ _ (printable_is_release _ _ Hp))
      by (unfold exact; lia).
    unfold Cli.plift.
    rewrite js_add_numbers, number_add_exact by lia.
    match goal with
    | |- context [Cli.print_all releases _ ?c] =>
        destruct (IH (acc + sum cs)%Z c) as (l2 & H2 & Hi2); [lia|]
    end.
    rewrite H2.
    eexists. split.
    + f_equal.
      * cbn [List.concat]. rewrite sum_app, Z.add_assoc. reflexivity.
      * rewrite <- !app_assoc. reflexivity.
    + rewrite !forallb_app, Hi1, Hi2. reflexivity.
Qed.

(** X17. In the detailed listing of all releases, with counts that add
    up without rounding, the last line is the grand total, and it is
    the number that the plain mode prints for the same answers of the
    service: the sum over all assets of all releases.  Nothing goes to
    stderr and the exit code is untouched. *)
Theorem detailed_listing_total (env : Env) (net : Transport)
    (ask : string -> string) (describe : exn -> string)
    (inspect : value -> string) (fuel : nat) (cli : Cli.t) (w : Cli.world)
    (releases : list value) (counts : list (list Z)) (log' : list event) :
  Cli.detailed cli = true ->
  Cli.quiet cli = false ->
  Cli.latest cli = false ->
  truthy (Cli.releaseTag cli) = false ->
  truthy (Cli.repoOwner cli) = true ->
  truthy_opt (Cli.repoName cli) = true ->
  getAllReleases env net fuel (client_of env cli) (Cli.log w)
  = (Some (Return releases), log') ->
  Forall2 printable releases counts ->
  exact (List.concat counts) ->
  exists lines,
    Cli.run env net ask describe inspect fuel cli w =
    {| Cli.console :=
         Cli.console w
         ++ [Cli.Info "GitHub Release Stats"; Cli.Info (announcement cli)]
         ++ lines
         ++ [Cli.Info (decimal (sum (List.concat counts))
                         ++ " total downloads")%string];
       Cli.exitCode := Cli.exitCode w;
       Cli.log := log' |} /\
    forallb is_info lines = true /\
    getTotalDownloads env net fuel (client_of env cli) (Cli.log w)
    = (Some (Return (VNumber (Int (sum (List.concat counts))))), log').
Proof.
  intros Hd Hq Hl Ht Ho Hn Hall Hp He.
  rewrite run_entered, (entered_given ask cli w Ho Hn). cbn [fst snd].
  rewrite Hd, Hq, Hl, Ht. cbn [andb].
  unfold settle. rewrite Hd, Hl, Ht.
  unfold Cli.then_catch, Cli.printMessage. rewrite Hq.
  cbn [negb Cli.log Cli.console Cli.exitCode]. rewrite Hall.
  match goal with
  | |- context [Cli.print_listing releases ?c] =>
      destruct (print_all_lines releases counts Hp 0%Z c He)
        as (lines & Hr & Hi)
  end.
  unfold Cli.print_listing, Cli.pbind. rewrite Hr.
  unfold Cli.plift, Cli.template. cbn [Z.add ToString cbind Cli.info].
  rewrite Number_toString_exact.
  2:{ pose proof (sum_le_magnitude (List.concat counts)).
      unfold exact in He. lia. }
  exists lines. split; [|split; [exact Hi|]].
  - f_equal. rewrite <- !app_assoc. reflexivity.
  - unfold getTotalDownloads, bind. rewrite Hall. unfold lift.
    assert (Hr2 : Forall2 is_release releases counts).
    { clear Hall Hr He. induction Hp; constructor; auto.
      apply printable_is_release. assumption. }
    rewrite (reduce_releases _ _ Hr2 0) by exact He. reflexivity.
Qed.

Lemma asks_nothing_pret {A : Type} (a : A) : asks_nothing (Cli.pret a).
Proof. intros console. reflexivity. Qed.

Lemma asks_nothing_plift {A : Type} (c : completion A) :
  asks_nothing (Cli.plift c).
Proof. intros console. reflexivity. Qed.

Lemma asks_nothing_info (text : string) : asks_nothing (Cli.info text).
Proof.
  intros console. unfold Cli.info. cbn [snd].
  rewrite filter_app. cbn. apply app_nil_r.
Qed.

Lemma asks_nothing_pbind {A B : Type} (m : Cli.P A) (k : A -> Cli.P B) :
  asks_nothing m -> (forall a, asks_nothing (k a)) ->
  asks_nothing (Cli.pbind m k).
Proof.
  intros Hm Hk console. unfold Cli.pbind.
  specialize (Hm console). destruct (m console) as [[a|e] console'].
  - rewrite Hk. exact Hm.
  - exact Hm.
Qed.

Ltac asks_nothing :=
  repeat first
    [ apply asks_nothing_pret
    | apply asks_nothing_plift
    | apply asks_nothing_info
    | apply asks_nothing_pbind; [|intros ?] ].

Lemma asks_nothing_print_assets (assets : list value) :
  forall total, asks_nothing (Cli.print_assets assets total).
Proof.
  induction assets as [|asset more IH]; intros total; cbn [Cli.print_assets].
  - asks_nothing.
  - apply asks_nothing_pbind; [|exact IH].
    unfold Cli.print_asset. asks_nothing.
Qed.

Lemma asks_nothing_printRelease (release : value) :
  asks_nothing (Cli.printRelease release).
Proof.
  unfold Cli.printRelease.
  apply asks_nothing_pbind; [asks_nothing|]. intros name.
  apply asks_nothing_pbind.
  { destruct (ToBoolean name); asks_nothing. }
  intros _.
  repeat (apply asks_nothing_pbind; [solve [asks_nothing]|intros ?]).
  apply asks_nothing_pbind.
  { match goal with
    | |- asks_nothing (match ?v with _ => _ end) =>
        destruct v; try apply asks_nothing_plift
    end.
    apply asks_nothing_print_assets. }
  intros total. asks_nothing.
Qed.

Lemma asks_nothing_print_all (releases : list value) :
  forall total, asks_nothing (Cli.print_all releases total).
Proof.
  induction releases as [|release more IH]; intros total;
    cbn [Cli.print_all].
  - asks_nothing.
  - apply asks_nothing_pbind; [|exact IH].
    unfold Cli.print_listed.
    apply asks_nothing_pbind; [apply asks_nothing_printRelease|].
    intros _. asks_nothing.
Qed.

Lemma asks_nothing_print_listing (releases : list value) :
  asks_nothing (Cli.print_listing releases).
Proof.
  unfold Cli.print_listing.
  apply asks_nothing_pbind; [apply asks_nothing_print_all|].
  intros total. asks_nothing.
Qed.

Lemma asks_nothing_info_value (inspect : value -> string) (v : value) :
  asks_nothing (Cli.info_value inspect v).
Proof.
  destruct v as [| |[|]|n|s|items|props]; apply asks_nothing_info.
Qed.

Lemma then_catch_asks_nothing {A : Type} (describe : exn -> string)
    (promise : M A) (onValue : A -> Cli.P unit) (w : Cli.world) :
  (forall a, asks_nothing (onValue a)) ->
  filter is_question (Cli.console (Cli.then_catch describe promise onValue w))
  = filter is_question (Cli.console w).
Proof.
  intros H. unfold Cli.then_catch.
  destruct (promise (Cli.log w)) as [[[a|e]|] log'];
    cbn [Cli.console].
  - specialize (H a (Cli.console w)).
    destruct (onValue a (Cli.console w)) as [[u|e] console'];
      cbn [Cli.console snd] in *.
    + exact H.
    + unfold Cli.printError. cbn [snd]. rewrite filter_app. cbn.
      rewrite app_nil_r. exact H.
  - unfold Cli.printError. cbn [snd]. rewrite filter_app. cbn.
    apply app_nil_r.
  - reflexivity.
Qed.

(** X18. [run] asks for the owner exactly when none was given, for the
    name exactly when none was given, each once and in this order; it
    asks nothing else and does not ask again, whatever the answers are
    and whatever becomes of the request. *)
Theorem run_asks_for_missing_names (env : Env) (net : Transport)
    (ask : string -> string) (describe : exn -> string)
    (inspect : value -> string) (fuel : nat) (cli : Cli.t) (w : Cli.world) :
  filter is_question
    (Cli.console (Cli.run env net ask describe inspect fuel cli w))
  = filter is_question (Cli.console w)
    ++ (if truthy (Cli.repoOwner cli) then []
        else [Cli.Question Cli.owner_question])
    ++ (if truthy_opt (Cli.repoName cli) then []
        else [Cli.Question Cli.name_question]).
Proof.
  rewrite run_entered. cbn zeta.
  assert (He : filter is_question (Cli.console (snd (entered ask cli w)))
               = filter is_question (Cli.console w)
                 ++ (if truthy (Cli.repoOwner cli) then []
                     else [Cli.Question Cli.owner_question])
                 ++ (if truthy_opt (Cli.repoName cli) then []
                     else [Cli.Question Cli.name_question])).
  { destruct (entered_keeps ask cli w) as (_ & _ & _ & _ & _ & _ & _ & _ & ->).
    rewrite !filter_app.
    destruct (Cli.quiet cli), (truthy (Cli.repoOwner cli)),
      (truthy_opt (Cli.repoName cli)); reflexivity. }
  destruct (truthy (Cli.releaseTag (fst (entered ask cli w)))
            && Cli.latest (fst (entered ask cli w))).
  { unfold Cli.fail. cbn [Cli.console]. rewrite filter_app, He. cbn.
    rewrite app_nil_r. reflexivity. }
  destruct (Cli.detailed (fst (entered ask cli w))
            && Cli.quiet (fst (entered ask cli w))).
  { unfold Cli.fail. cbn [Cli.console]. rewrite filter_app, He. cbn.
    rewrite app_nil_r. reflexivity. }
  assert (Hs : forall c w0,
            filter is_question
              (Cli.console (settle env net describe inspect fuel c w0))
            = filter is_question (Cli.console w0)).
  { intros c w0. unfold settle.
    destruct (Cli.detailed c), (Cli.latest c), (truthy (Cli.releaseTag c));
      apply then_catch_asks_nothing;
      first [ exact asks_nothing_printRelease
            | exact asks_nothing_print_listing
            | exact (asks_nothing_info_value inspect) ]. }
  rewrite Hs.
  destruct (printMessage_keeps (fst (entered ask cli w))
              (announcement (fst (entered ask cli w)))
              (snd (entered ask cli w))) as (_ & _ & ->).
  rewrite filter_app, He.
  destruct (Cli.quiet (fst (entered ask cli w))); cbn;
    rewrite app_nil_r; reflexivity.
Qed.

Lemma bind_fetch_log {A B : Type} (m : M A) (k : A -> M B)
    (log : list event) :
  (forall a l, snd (k a l) = l) ->
  snd (bind m k log) = snd (m log).
Proof.
  intros Hk. unfold bind. destruct (m log) as [[[a|e]|] l]; cbn [snd];
    [apply Hk | reflexivity | reflexivity].
Qed.

Lemma settle_log (env : Env) (net : Transport) (describe : exn -> string)
    (inspect : value -> string) (fuel : nat) (cli : Cli.t) (w : Cli.world) :
  Cli.log (settle env net describe inspect fuel cli w)
  = snd (fetch env net fuel (client_of env cli)
           (api (client_of env cli) (endpoint cli)) (Cli.log w)).
Proof.
  unfold settle, endpoint, counter.
  destruct (Cli.detailed cli), (Cli.latest cli),
    (truthy (Cli.releaseTag cli));
    match goal with
    | |- Cli.log (Cli.then_catch ?d ?p ?f ?w) = _ =>
        rewrite (proj2 (then_catch_keeps d p f w))
    end;
    unfold getLatestReleaseDownloads, getReleaseDownloads, getTotalDownloads,
      getLatestRelease, getRelease, getAllReleases;
    repeat (rewrite bind_fetch_log; [|intros a l; reflexivity]);
    reflexivity.
Qed.

(** X19. When the options do not exclude each other, [run] makes its
    first call to the address of the repository under
    [https://api.github.com/repos/], with the owner and the name as
    given or as answered, and the path chosen by the options alone:
    [/releases/latest] with [latest], [/releases/tags/] and the tag
    with a tag, [/releases?per_page=100] otherwise; [detailed] and
    [quiet] do not change the request.  The client is made without a
    token argument. *)
Theorem run_first_request (env : Env) (net : Transport)
    (ask : string -> string) (describe : exn -> string)
    (inspect : value -> string) (fuel : nat) (cli : Cli.t) (w : Cli.world) :
  conflict cli = false ->
  0 < fuel ->
  let owner := if truthy (Cli.repoOwner cli) then Cli.repoOwner cli
               else ask Cli.owner_question in
  let name := if truthy_opt (Cli.repoName cli) then Cli.repoName cli
              else Some (ask Cli.name_question) in
  exists r more,
    Cli.log (Cli.run env net ask describe inspect fuel cli w)
    = Cli.log w
      ++ Fetch ("https://api.github.com/repos/" ++ owner ++ "/"
                  ++ text_of name ++ endpoint cli)%string
               (init_of env (new_GithubStats env owner (text_of name) None))
               r
         :: more.
Proof.
  intros Hc Hfuel. cbn zeta. rewrite run_entered. cbn zeta.
  destruct (conflict_entered ask cli w) as [-> ->].
  unfold conflict in Hc. apply orb_false_elim in Hc. destruct Hc as [-> ->].
  rewrite settle_log.
  destruct (printMessage_keeps (fst (entered ask cli w))
              (announcement (fst (entered ask cli w)))
              (snd (entered ask cli w))) as (_ & -> & _).
  destruct (entered_keeps ask cli w)
    as (Ht & _ & Hl & _ & _ & Hlog & Ho & Hn & _).
  rewrite Hlog.
  assert (Hend : endpoint (fst (entered ask cli w)) = endpoint cli).
  { unfold endpoint. rewrite Ht, Hl. reflexivity. }
  rewrite Hend. unfold client_of, api. rewrite Ho, Hn.
  cbn [repoOwner repoName new_GithubStats].
  match goal with
  | |- context [fetch env net fuel ?gh ?url ?log] =>
      destruct (fetch env net fuel gh url log) as [res log'] eqn:E;
      destruct (fetch_links env net gh fuel url log log' res E)
        as (trace & -> & _ & Hfirst)
  end.
  destruct (Hfirst Hfuel) as (r & more & ->).
  exists r, more. reflexivity.
Qed.

(* ================================================================= *)
(** ** The further statements at the fixtures *)

Lemma FakeApi_latest_fetched :
  exists log,
    fetch FakeApi.node (FakeApi.single (VArray FakeApi.releases)) 1
      FakeApi.gh (api FakeApi.gh "/releases/latest") []
    = (Some (Return (FakeApi.release "v1.2.0" [120; 220]%Z
                       :: tl FakeApi.releases)), log).
Proof. eexists. vm_compute. reflexivity. Qed.

Lemma FakeApi_first_exact : exact [120; 220]%Z.
Proof. vm_compute. discriminate. Qed.

Lemma first_record_downloads_witness :
  exists log,
    getLatestReleaseDownloads FakeApi.node
      (FakeApi.single (VArray FakeApi.releases)) 1 FakeApi.gh []
    = (Some (Return (VNumber (Int 340))), log).
Proof.
  destruct FakeApi_latest_fetched as [log H].
  exists log.
  exact (proj2 (first_record_downloads _ _ _ _ _ _ _ _ _ [120; 220]%Z
                  H (FakeApi_release_typed _ _) FakeApi_first_exact)
           eq_refl).
Defined.

Lemma FakeApi_pages_typed :
  Forall2 is_release
    (List.concat (map page_records (map snd FakeApi.pages))) FakeApi.counts.
Proof.
  replace (List.concat (map page_records (map snd FakeApi.pages)))
    with FakeApi.releases by (vm_compute; reflexivity).
  exact FakeApi_releases_typed.
Qed.

Lemma total_downloads_over_pages_witness :
  exists trace,
    getTotalDownloads FakeApi.node FakeApi.paginated 3 FakeApi.gh []
    = (Some (Return (VNumber (Int 2212))), [] ++ trace) /\
    requested trace
    = [FakeApi.all_url; FakeApi.page_url "2"; FakeApi.page_url "3"].
Proof.
  exact (total_downloads_over_pages FakeApi.node FakeApi.paginated
           FakeApi.gh 3 [] FakeApi.pages FakeApi.counts
           FakeApi_chain (le_n 3) FakeApi_pages_typed FakeApi_counts_exact).
Defined.

Lemma FakeApi_incomplete_fetched :
  exists log,
    getAllReleases FakeApi.node
      (FakeApi.single
         (VArray [FakeApi.release "v1" [1]%Z;
                  VObject [("tag_name", VString "v2")]])) 1 FakeApi.gh []
    = (Some (Return ([FakeApi.release "v1" [1]%Z]
                       ++ VObject [("tag_name", VString "v2")] :: [])), log).
Proof. eexists. vm_compute. reflexivity. Qed.

Lemma release_without_assets_rejects_witness :
  exists log,
    getTotalDownloads FakeApi.node
      (FakeApi.single
         (VArray [FakeApi.release "v1" [1]%Z;
                  VObject [("tag_name", VString "v2")]])) 1 FakeApi.gh []
    = (Some (Throw TypeError), log).
Proof.
  destruct FakeApi_incomplete_fetched as [log H].
  exists log.
  refine (proj2 (release_without_assets_rejects _ _ _ _ _ _ _ _ _ [[1]%Z]
                   H _ _)).
  - constructor; [apply FakeApi_release_typed | constructor].
  - intros items Hget. discriminate Hget.
Defined.

Lemma FakeApi_uncounted_fetched :
  exists log,
    getAllReleases FakeApi.node
      (FakeApi.single
         (VArray [VObject [("assets",
                            VArray [FakeApi.asset 1;
                                    VObject [("name", VString "a.zip")];
                                    FakeApi.asset 2])]])) 1 FakeApi.gh []
    = (Some (Return ([] ++ VObject [("assets",
                            VArray [FakeApi.asset 1;
                                    VObject [("name", VString "a.zip")];
                                    FakeApi.asset 2])] :: [])), log).
Proof. eexists. vm_compute. reflexivity. Qed.

Lemma asset_without_count_gives_NaN_witness :
  exists log,
    getTotalDownloads FakeApi.node
      (FakeApi.single
         (VArray [VObject [("assets",
                            VArray [FakeApi.asset 1;
                                    VObject [("name", VString "a.zip")];
                                    FakeApi.asset 2])]])) 1 FakeApi.gh []
    = (Some (Return (VNumber NaN)), log).
Proof.
  destruct FakeApi_uncounted_fetched as [log H].
  exists log.
  refine (proj2 (asset_without_count_gives_NaN _ _ _ _ _ _ [] _ [] [] []
                   _ [FakeApi.asset 1] (VObject [("name", VString "a.zip")])
                   [FakeApi.asset 2] [1]%Z [2]%Z
                   H (Forall2_nil _) (Forall2_nil _) eq_refl eq_refl _ _ _)).
  - constructor; [apply FakeApi_asset_typed | constructor].
  - eexists. split; reflexivity.
  - constructor; [apply FakeApi_asset_typed | constructor].
Defined.

Lemma not_ok_ends_fetch_witness :
  exists log,
    fetch FakeApi.node FakeSession.refused 1 FakeApi.gh FakeApi.all_url []
    = (Some (Throw (EGithub {| message := ""; name := "GithubError" |})),
       log).
Proof.
  destruct (not_ok_ends_fetch FakeApi.node FakeSession.refused FakeApi.gh 0
              FakeApi.all_url [] _ eq_refl eq_refl)
    as (e & Hf & Hobj & _).
  rewrite (Hobj [] eq_refl eq_refl) in Hf.
  eexists. exact Hf.
Defined.

Lemma endless_page_next : next_page endless_page = Some FakeApi.all_url.
Proof. vm_compute. reflexivity. Qed.

Lemma endless_chain_never_settles_witness :
  fetch FakeApi.node endless 5 FakeApi.gh FakeApi.all_url []
  = (None,
     [] ++ repeat (Fetch FakeApi.all_url (init_of FakeApi.node FakeApi.gh)
                     (Return endless_page)) 5).
Proof.
  exact (endless_chain_never_settles FakeApi.node endless FakeApi.gh
           FakeApi.all_url endless_page (fun _ => eq_refl) eq_refl
           endless_page_next 5 []).
Defined.

Lemma fetch_follows_links_witness :
  exists res trace,
    fetch FakeApi.node FakeApi.paginated 3 FakeApi.gh FakeApi.all_url []
    = (res, [] ++ trace) /\
    follows (Some FakeApi.all_url) trace.
Proof.
  destruct (fetch FakeApi.node FakeApi.paginated 3 FakeApi.gh
              FakeApi.all_url []) as [res log'] eqn:E.
  destruct (fetch_follows_links _ _ _ _ _ _ _ _ E) as (trace & -> & Hf & _).
  exists res, trace. split; [reflexivity | exact Hf].
Defined.

Lemma next_page_is_bracketed_witness :
  exists link pre post,
    get_header (Response.headers FakeApi.page2) "link" = Some link /\
    link = (pre ++ "<" ++ FakeApi.page_url "3" ++ next_mark ++ post)%string /\
    plain (list_ascii_of_string pre) = true /\
    plain (list_ascii_of_string (FakeApi.page_url "3")) = true.
Proof.
  exact (proj1 (next_page_is_bracketed FakeApi.page2)
           (FakeApi.page_url "3") next_of_page2).
Defined.

Lemma FakeApi_page2_link :
  get_header (Response.headers FakeApi.page2) "link"
  = Some ((FakeApi.rel "1" "prev" ++ ", ") ++ "<" ++ FakeApi.page_url "3"
            ++ next_mark
            ++ (", " ++ FakeApi.rel "3" "last" ++ ", "
                  ++ FakeApi.rel "1" "first"))%string.
Proof. vm_compute. reflexivity. Qed.

Lemma next_page_found_witness :
  next_page FakeApi.page2 = Some (FakeApi.page_url "3").
Proof.
  apply (next_page_found FakeApi.page2
           (FakeApi.rel "1" "prev" ++ ", ")%string (FakeApi.page_url "3")
           (", " ++ FakeApi.rel "3" "last" ++ ", "
              ++ FakeApi.rel "1" "first")%string FakeApi_page2_link);
    vm_compute; reflexivity.
Defined.

Lemma help_ends_the_process_witness :
  Cli.main FakeApi.node FakeApi.paginated FakeSession.answers
    FakeSession.describe FakeSession.inspect 3
    ["foo/bar"; "-d"; "--help"; "-q"]
  = {| Cli.console := [Cli.Info Cli.help];
       Cli.exitCode := Some 0%Z;
       Cli.log := [] |}.
Proof.
  exact (proj2 (help_ends_the_process FakeApi.node FakeApi.paginated
                  FakeSession.answers FakeSession.describe
                  FakeSession.inspect 3 ["foo/bar"; "-d"; "--help"; "-q"]
                  eq_refl)).
Defined.

Lemma options_and_names_are_independent_witness :
  exists cli named,
    Cli.new_GithubStatsCli ["-l"; "foo"; "--detailed"; "bar"] = Cli.Built cli /\
    Cli.new_GithubStatsCli ["foo"; "bar"] = Cli.Built named /\
    Cli.repoOwner cli = Cli.repoOwner named /\
    Cli.repoName cli = Cli.repoName named /\
    Cli.releaseTag cli = Cli.releaseTag named /\
    Cli.detailed cli = true /\
    Cli.latest cli = true /\
    Cli.quiet cli = false /\
    Cli.detailed named = false /\
    Cli.latest named = false /\
    Cli.quiet named = false.
Proof.
  exact (options_and_names_are_independent
           ["-l"; "foo"; "--detailed"; "bar"] eq_refl).
Defined.

Lemma slash_form_agrees_witness :
  Cli.new_GithubStatsCli ["foo/bar"; "v1.0.0"]
  = Cli.new_GithubStatsCli ["foo"; "bar"; "v1.0.0"] /\
  Cli.new_GithubStatsCli ["foo/bar"]
  = Cli.Built (FakeSession.command "" false false false).
Proof.
  exact (slash_form_agrees "foo" "bar" ["v1.0.0"]
           eq_refl eq_refl eq_refl eq_refl eq_refl).
Defined.

Lemma conflicting_options_fail_witness :
  Cli.exitCode
    (Cli.run FakeApi.node FakeApi.paginated FakeSession.answers
       FakeSession.describe FakeSession.inspect 3
       (FakeSession.command "v1.0.0" false true false) FakeSession.started)
  = Some 1%Z /\
  Cli.log
    (Cli.run FakeApi.node FakeApi.paginated FakeSession.answers
       FakeSession.describe FakeSession.inspect 3
       (FakeSession.command "v1.0.0" false true false) FakeSession.started)
  = [] /\
  Cli.console
    (Cli.run FakeApi.node FakeApi.paginated FakeSession.answers
       FakeSession.describe FakeSession.inspect 3
       (FakeSession.command "v1.0.0" false true false) FakeSession.started)
  = [Cli.Info "GitHub Release Stats"; Cli.Error Cli.tag_or_latest].
Proof.
  exact (conflicting_options_fail FakeApi.node FakeApi.paginated
           FakeSession.answers FakeSession.describe FakeSession.inspect 3
           (FakeSession.command "v1.0.0" false true false)
           FakeSession.started eq_refl).
Defined.

Lemma run_keeps_exit_code_witness :
  Cli.exitCode
    (Cli.run FakeApi.node FakeApi.paginated FakeSession.answers
       FakeSession.describe FakeSession.inspect 3
       (FakeSession.command "" false false false) FakeSession.started)
  = None.
Proof.
  exact (run_keeps_exit_code FakeApi.node FakeApi.paginated
           FakeSession.answers FakeSession.describe FakeSession.inspect 3
           (FakeSession.command "" false false false)
           FakeSession.started eq_refl).
Defined.

Lemma FakeApi_counted :
  exists log,
    counter FakeApi.node FakeApi.paginated 3
      (FakeSession.command "" false false false)
      (Cli.log FakeSession.started)
    = (Some (Return (VNumber (Int 2212))), log).
Proof. eexists. vm_compute. reflexivity. Qed.

Lemma FakeApi_total_exact : (Z.abs 2212 <= exact_bound)%Z.
Proof. vm_compute. discriminate. Qed.

Lemma plain_mode_output_witness :
  Cli.console
    (Cli.run FakeApi.node FakeApi.paginated FakeSession.answers
       FakeSession.describe FakeSession.inspect 3
       (FakeSession.command "" false false false) FakeSession.started)
  = [Cli.Info "GitHub Release Stats";
     Cli.Info "Fetching foo/bar download count...";
     Cli.Info "2212"].
Proof.
  destruct FakeApi_counted as [log H].
  pose proof (plain_mode_output FakeApi.node FakeApi.paginated
                FakeSession.answers FakeSession.describe FakeSession.inspect
                3 (FakeSession.command "" false false false)
                FakeSession.started _ _ eq_refl eq_refl eq_refl eq_refl H)
    as Hrun.
  cbn zeta in Hrun. destruct Hrun as (_ & _ & _ & Hz & _).
  exact (Hz 2212%Z eq_refl FakeApi_total_exact).
Defined.

Lemma FakeApi_asset_printable (count : Z) :
  printable_asset (FakeApi.asset count) count.
Proof. eexists. repeat split; reflexivity. Qed.

Lemma FakeApi_release_printable (tag : string) (counts : list Z) :
  printable (FakeApi.release tag counts) counts.
Proof.
  eexists. eexists. split; [reflexivity|]. split; [reflexivity|].
  split; [|repeat split; reflexivity].
  induction counts as [|c counts IH]; constructor.
  - apply FakeApi_asset_printable.
  - exact IH.
Qed.

Lemma FakeApi_releases_printable :
  Forall2 printable FakeApi.releases FakeApi.counts.
Proof. repeat constructor; apply FakeApi_release_printable. Qed.

Lemma FakeApi_last_exact : exact [100; 200]%Z.
Proof. vm_compute. discriminate. Qed.

Lemma printRelease_total_witness :
  exists props name tag url published lines,
    FakeApi.release "v1.0.0" [100; 200]%Z = VObject props /\
    ToString (field props "name") = Return name /\
    ToString (field props "tag_name") = Return tag /\
    ToString (field props "url") = Return url /\
    ToString (field props "published_at") = Return published /\
    Cli.printRelease (FakeApi.release "v1.0.0" [100; 200]%Z) []
    = (Return tt,
       []
       ++ (if ToBoolean (field props "name")
           then [Cli.Info ("Name: " ++ name)%string] else [])
       ++ [Cli.Info ("Tag: " ++ tag)%string;
           Cli.Info ("URL: " ++ url)%string;
           Cli.Info ("Published at: " ++ published)%string;
           Cli.Info "Assets:"]
       ++ lines
       ++ [Cli.Info "    300 total downloads"]) /\
    forallb is_info lines = true /\
    List.length lines = 2 /\
    release_downloads (FakeApi.release "v1.0.0" [100; 200]%Z)
    = Return (VNumber (Int 300)).
Proof.
  exact (printRelease_total (FakeApi.release "v1.0.0" [100; 200]%Z)
           [100; 200]%Z [] (FakeApi_release_printable _ _)
           FakeApi_last_exact).
Defined.

Lemma FakeApi_listed :
  exists log,
    getAllReleases FakeApi.node FakeApi.paginated 3
      (client_of FakeApi.node (FakeSession.command "" true false false))
      (Cli.log FakeSession.started)
    = (Some (Return FakeApi.releases), log).
Proof. eexists. vm_compute. reflexivity. Qed.

Lemma detailed_listing_total_witness :
  exists lines log,
    Cli.run FakeApi.node FakeApi.paginated FakeSession.answers
      FakeSession.describe FakeSession.inspect 3
      (FakeSession.command "" true false false) FakeSession.started
    = {| Cli.console :=
           [] ++ [Cli.Info "GitHub Release Stats";
                  Cli.Info ("Fetching foo/bar stats..." ++ newline)%string]
           ++ lines ++ [Cli.Info "2212 total downloads"];
         Cli.exitCode := None;
         Cli.log := log |} /\
    forallb is_info lines = true.
Proof.
  destruct FakeApi_listed as [log H].
  destruct (detailed_listing_total FakeApi.node FakeApi.paginated
              FakeSession.answers FakeSession.describe FakeSession.inspect
              3 (FakeSession.command "" true false false)
              FakeSession.started FakeApi.releases FakeApi.counts log
              eq_refl eq_refl eq_refl eq_refl eq_refl eq_refl H
              FakeApi_releases_printable FakeApi_counts_exact)
    as (lines & Hrun & Hinfo & _).
  exists lines, log. split; [exact Hrun | exact Hinfo].
Defined.

Lemma run_first_request_witness :
  exists r more,
    Cli.log
      (Cli.run FakeApi.node FakeApi.paginated FakeSession.answers
         FakeSession.describe FakeSession.inspect 1
         {| Cli.repoOwner := ""; Cli.repoName := Some "";
            Cli.releaseTag := "v1.0.0"; Cli.detailed := false;
            Cli.latest := false; Cli.quiet := true |}
         FakeSession.started)
    = [] ++ Fetch "https://api.github.com/repos/foo/bar/releases/tags/v1.0.0"
              (init_of FakeApi.node FakeApi.gh) r
         :: more.
Proof.
  exact (run_first_request FakeApi.node FakeApi.paginated
           FakeSession.answers FakeSession.describe FakeSession.inspect 1
           {| Cli.repoOwner := ""; Cli.repoName := Some "";
              Cli.releaseTag := "v1.0.0"; Cli.detailed := false;
              Cli.latest := false; Cli.quiet := true |}
           FakeSession.started eq_refl (le_n 1)).
Defined.
